(** * Readiness-driven file distribution server: a shallow embedding

    This development models the per-connection transfer protocol of the
    multiplexing file server ([server_send_file_size],
    [server_send_file_block], FILESHARE_CONNECTION and TRANSFER_STATE of
    server-poll.c), the client that consumes it ([client_recv_file_size],
    [client_recv_file_block] and [main] of client.c), and the two event
    loops that drive the protocol: the epoll loop (its [main] together with
    the [epoll_*] wrappers) and the poll loop of server-poll.c.  It also
    models the parsing of the servers' client-count argument and the
    libaio file copy ([io_read_setup], [io_write_setup] and its [main])
    and the POSIX AIO file copy ([aio_read_setup], [aio_write_setup] and
    its [main]).

    System calls are not executed: every result a system call can return
    is an input of the model (an "oracle"), and the kernel's guarantees
    on those results (write() returns at most the requested count, epoll
    reports only registered descriptors, poll ignores negative
    descriptors, ...) are written out as normalising functions. *)

From Stdlib Require Import ZArith Lia Bool Sorted Ascii String.
From stdpp Require Import base list strings.

Open Scope Z_scope.

(* ------------------------------------------------------------------ *)
(** ** size_t arithmetic and byte images *)

(** Unsigned 64-bit arithmetic: the wrap-around of [size_t] and [uint64_t]. *)
Definition size_t (z : Z) : Z := z mod 2 ^ 64.

(** The memory image of a [w]-byte unsigned integer on the little-endian
    host (x86-64): least significant byte first. *)
Fixpoint le_store (w : nat) (x : Z) : list Z :=
  match w with
  | O => []
  | S w' => (x mod 256) :: le_store w' (x / 256)
  end.

(** Loading an unsigned integer from its little-endian memory image. *)
Fixpoint le_load (bs : list Z) : Z :=
  match bs with
  | [] => 0
  | b :: bs' => b + 256 * le_load bs'
  end.

(** [htobe64] on the little-endian host: the byte swap of a [uint64_t]. *)
Definition htobe64 (x : Z) : Z := le_load (rev (le_store 8 x)).

(** A byte as stored in memory. *)
Definition is_byte (b : Z) : Prop := 0 <= b < 256.

(* ------------------------------------------------------------------ *)
(** ** Data model of the server (server-common-multiplexing.h) *)

Definition TRANSFER_BLOCK_SIZE : Z := 1024.

Inductive TRANSFER_STATE :=
  | CONNECTION_EMPTY
  | SEND_FILE_SIZE
  | SEND_DATA_BLOCK
  | TRANSFER_FINISHED.

Definition TRANSFER_STATE_eqb (a b : TRANSFER_STATE) : bool :=
  match a, b with
  | CONNECTION_EMPTY, CONNECTION_EMPTY
  | SEND_FILE_SIZE, SEND_FILE_SIZE
  | SEND_DATA_BLOCK, SEND_DATA_BLOCK
  | TRANSFER_FINISHED, TRANSFER_FINISHED => true
  | _, _ => false
  end.

Record FILESHARE_CONNECTION := mkConn {
  client_sock_fd : Z;
  src_file_offset : Z;
  state : TRANSFER_STATE
}.

Definition set_state (c : FILESHARE_CONNECTION) (st : TRANSFER_STATE) :=
  mkConn (client_sock_fd c) (src_file_offset c) st.

(** The server descriptor.  The source file is represented by its bytes;
    [src_file_size] is what [fstat] reports for it in
    [server_open_src_file]. *)
Record FILESHARE_SERVER := mkServer {
  src_file : list Z;
  listen_sock_fd : Z
}.

Definition src_file_size (srv : FILESHARE_SERVER) : Z :=
  Z.of_nat (length (src_file srv)).

(* ------------------------------------------------------------------ *)
(** ** System calls used by the protocol *)

Definition EAGAIN : Z := 11.

(** What one call of [write] returned: its return value and the value
    of [errno] after the call (set by a failing call, left as it was by a
    successful one). *)
Record write_ret := mkWrite {
  wr_ret : Z;
  wr_errno : Z
}.

(** [write(fd, buf, count)]: a negative result is -1 with [errno] set;
    otherwise the kernel accepted the first [n <= count] bytes of the
    buffer.  Returns (return value, errno, bytes put on the wire). *)
Definition write_sys (buf : list Z) (o : write_ret) : Z * Z * list Z :=
  if wr_ret o <? 0 then (-1, wr_errno o, [])
  else let n := Z.min (wr_ret o) (Z.of_nat (length buf)) in
       (n, wr_errno o, take (Z.to_nat n) buf).

(** [pread(fd, buf, count, offset)] on the regular source file: -1 when
    the read fails, otherwise the bytes of the file from [offset] on, at
    most [count] of them (0 at or past the end of the file). *)
Definition pread_sys (file : list Z) (count offset : Z) (fails : bool)
    : Z * list Z :=
  if fails then (-1, [])
  else let bs := take (Z.to_nat count) (drop (Z.to_nat offset) file) in
       (Z.of_nat (length bs), bs).

(* ------------------------------------------------------------------ *)
(** ** The protocol steps (server-poll.c) *)

(** [server_send_file_size]: returns the boolean result, the updated
    connection and the bytes the call put on the wire. *)
Definition server_send_file_size (srv : FILESHARE_SERVER)
    (conn : FILESHARE_CONNECTION) (o : write_ret)
    : bool * FILESHARE_CONNECTION * list Z :=
  let file_size := htobe64 (size_t (src_file_size srv)) in
  let '(ret, errno, sent) := write_sys (le_store 8 file_size) o in
  let bytes_written := size_t ret in
  if negb (bytes_written =? 8) then
    if errno =? EAGAIN then (true, conn, sent)
    else (false, set_state conn TRANSFER_FINISHED, sent)
  else (true, mkConn (client_sock_fd conn) 0 SEND_DATA_BLOCK, sent).

(** [server_send_file_block]: [rd_fails] is whether the [pread] fails. *)
Definition server_send_file_block (srv : FILESHARE_SERVER)
    (conn : FILESHARE_CONNECTION) (rd_fails : bool) (o : write_ret)
    : bool * FILESHARE_CONNECTION * list Z :=
  let '(rret, file_block) :=
    pread_sys (src_file srv) TRANSFER_BLOCK_SIZE (src_file_offset conn) rd_fails in
  let bytes_read := size_t rret in
  if (bytes_read =? size_t (-1)) ||
     ((bytes_read =? 0) && negb (src_file_offset conn =? src_file_size srv))
  then (false, set_state conn TRANSFER_FINISHED, [])
  else
    let '(wret, _, sent) := write_sys file_block o in
    let bytes_written := size_t wret in
    if (bytes_written =? size_t (-1)) || negb (bytes_written =? bytes_read)
    then (false, set_state conn TRANSFER_FINISHED, sent)
    else
      let off := size_t (src_file_offset conn + bytes_written) in
      if off =? src_file_size srv
      then (false, mkConn (client_sock_fd conn) off TRANSFER_FINISHED, sent)
      else (true, mkConn (client_sock_fd conn) off (state conn), sent).

(** The [switch (conns[conn_i].state)] of both event loops on a
    writability event: [None] is the [exit(EXIT_FAILURE)] on
    [CONNECTION_EMPTY]; a finished connection yields [success = false]. *)
Definition advance (srv : FILESHARE_SERVER) (conn : FILESHARE_CONNECTION)
    (rd_fails : bool) (o : write_ret)
    : option (bool * FILESHARE_CONNECTION * list Z) :=
  match state conn with
  | CONNECTION_EMPTY => None
  | SEND_FILE_SIZE => Some (server_send_file_size srv conn o)
  | SEND_DATA_BLOCK => Some (server_send_file_block srv conn rd_fails o)
  | TRANSFER_FINISHED => Some (false, conn, [])
  end.

(* ------------------------------------------------------------------ *)
(** ** One connection driven through the protocol *)

(** What the event loops do with one connection slot on one readiness
    event: a hang-up closes it and marks it finished; writability runs the
    [switch] of [advance] and, on [success = false], the connection is
    closed. *)
Inductive conn_event :=
  | EvHup
  | EvOut (rd_fails : bool) (o : write_ret).

(** One advance: the connection before, the event, the boolean result,
    the connection after and the bytes written to the socket. *)
Record step_rec := mkStep {
  st_before : FILESHARE_CONNECTION;
  st_event : conn_event;
  st_success : bool;
  st_after : FILESHARE_CONNECTION;
  st_sent : list Z
}.

(** The successive advances of one connection on a sequence of readiness
    events, up to the one after which the loop closes it. *)
Fixpoint conn_run (srv : FILESHARE_SERVER) (c : FILESHARE_CONNECTION)
    (evs : list conn_event) : list step_rec :=
  match evs with
  | [] => []
  | EvHup :: _ => [mkStep c EvHup false (set_state c TRANSFER_FINISHED) []]
  | EvOut rd o :: evs' =>
      match advance srv c rd o with
      | None => []
      | Some (b, c', sent) =>
          mkStep c (EvOut rd o) b c' sent ::
          (if b then conn_run srv c' evs' else [])
      end
  end.

(** The bytes one connection puts on the wire. *)
Definition wire_bytes (tr : list step_rec) : list Z := concat (map st_sent tr).

(** The number of bytes [pread] returns for a [SEND_DATA_BLOCK] advance
    at the connection's offset. *)
Definition block_len (srv : FILESHARE_SERVER) (c : FILESHARE_CONNECTION) : Z :=
  Z.min TRANSFER_BLOCK_SIZE (Z.max 0 (src_file_size srv - src_file_offset c)).

(** A record in which the transfer failed: a hang-up, a failing [pread],
    or a [write] that accepted fewer bytes than it was offered (a short
    write, or -1). *)
Definition step_failed (srv : FILESHARE_SERVER) (r : step_rec) : bool :=
  match st_event r with
  | EvHup => true
  | EvOut rd o =>
      match state (st_before r) with
      | SEND_FILE_SIZE => wr_ret o <? 8
      | SEND_DATA_BLOCK => rd || (wr_ret o <? block_len srv (st_before r))
      | _ => false
      end
  end.

(** The file offsets observed after the [SEND_DATA_BLOCK] advances of a
    run that did not fail. *)
Definition data_offsets (srv : FILESHARE_SERVER) (tr : list step_rec) : list Z :=
  map (fun r => src_file_offset (st_after r))
    (filter (fun r => TRANSFER_STATE_eqb (state (st_before r)) SEND_DATA_BLOCK
                      && negb (step_failed srv r)) tr).

(** A [write] into which the kernel accepts every byte offered (the
    protocol never offers more than one block). *)
Definition full_write : write_ret := mkWrite TRANSFER_BLOCK_SIZE 0.

(** [n] writability events on which every read and write succeeds. *)
Definition full_events (n : nat) : list conn_event :=
  repeat (EvOut false full_write) n.

(* ------------------------------------------------------------------ *)
(** ** The client (client.c) *)

Record FILESHARE_CLIENT := mkClient {
  dst_file : list Z;       (* contents of the destination file *)
  dst_file_size : Z;
  dst_file_offset : Z
}.

(** [pwrite(fd, buf, count, offset)] on the destination regular file:
    the bytes land at [offset]; a gap past the end of the file reads as
    zeros.  The destination was preallocated, so the write is complete. *)
Definition pwrite_file (file buf : list Z) (off : nat) : list Z :=
  take off file ++ replicate (off - length file) 0 ++ buf
  ++ drop (off + length buf) file.

(** [client_recv_file_size]: [recv(..., 8, MSG_WAITALL)] returns the
    first eight bytes of the stream, or fewer when the stream ends early.
    Returns the result, the client and the rest of the stream. *)
Definition client_recv_file_size (cl : FILESHARE_CLIENT) (stream : list Z)
    : bool * FILESHARE_CLIENT * list Z :=
  let buf := take 8 stream in
  let bytes_read := size_t (Z.of_nat (length buf)) in
  if negb (bytes_read =? 8) then (false, cl, drop 8 stream)
  else (true, mkClient (dst_file cl) (htobe64 (le_load buf)) 0, drop 8 stream).

(** [client_recv_file_block]: [recv(..., TRANSFER_BLOCK_SIZE, 0)] returns
    0 at the end of the stream and otherwise between 1 and 1024 of the
    available bytes; how many is the kernel's choice, [cap]. *)
Definition client_recv_file_block (cl : FILESHARE_CLIENT) (stream : list Z)
    (cap : Z) : bool * FILESHARE_CLIENT * list Z :=
  let n := match stream with
           | [] => 0
           | _ => Z.max 1 (Z.min cap TRANSFER_BLOCK_SIZE)
           end in
  let file_block := take (Z.to_nat n) stream in
  let bytes_read := size_t (Z.of_nat (length file_block)) in
  if (bytes_read =? 0) && negb (dst_file_offset cl =? dst_file_size cl)
  then (false, cl, drop (Z.to_nat n) stream)
  else
    let dst := pwrite_file (dst_file cl) file_block (Z.to_nat (dst_file_offset cl)) in
    let bytes_written := bytes_read in
    (true, mkClient dst (dst_file_size cl)
             (size_t (dst_file_offset cl + bytes_written)),
     drop (Z.to_nat n) stream).

(** The [while (client.dst_file_offset != client.dst_file_size)] loop of
    the client's [main]; [caps k] is what the [k]-th [recv] returns at most,
    [fuel] bounds the iterations of the model.  [None]: the [goto
    start_connection] after a failed block, or fuel exhausted. *)
Fixpoint client_recv_loop (fuel : nat) (caps : nat -> Z) (k : nat)
    (cl : FILESHARE_CLIENT) (stream : list Z) : option FILESHARE_CLIENT :=
  if dst_file_offset cl =? dst_file_size cl then Some cl
  else match fuel with
       | O => None
       | S fuel' =>
           let '(ok, cl', rest) := client_recv_file_block cl stream (caps k) in
           if ok then client_recv_loop fuel' caps (S k) cl' rest else None
       end.

(** What the file system answers to the client's two calls on the
    destination: whether [open(filename, O_WRONLY|O_CREAT|O_TRUNC, 0644)]
    succeeds (it fails on EACCES, ENOENT, EROFS, ...), and for which
    lengths [fallocate] finds the room (it fails with EFBIG past the
    file system's maximal file size, with ENOSPC when the disk is full,
    with EIO, ...).  Both depend on the machine, not on the program. *)
Record FILE_SYSTEM := mkFileSystem {
  fs_open_ok : bool;
  fs_alloc_ok : Z -> bool
}.

(** The [size_t] length passed to [fallocate]'s [off_t] parameter: a
    value of [2^63] or more becomes negative. *)
Definition off_t_of_size_t (z : Z) : Z :=
  if z <? 2 ^ 63 then z else z - 2 ^ 64.

(** [fallocate(fd, 0, 0, len)]: a length that is not positive as an
    [off_t] is refused with EINVAL (this covers 0 and every length of
    [2^63] or more); otherwise the file system decides. *)
Definition fallocate (fs : FILE_SYSTEM) (len : Z) : bool :=
  (0 <? off_t_of_size_t len) && fs_alloc_ok fs len.

(** [client_open_dst_file]: [open(..., O_TRUNC)] empties the file, then
    [fallocate(fd, 0, 0, size)] extends it with zeros; when either call
    fails ([None]) the client exits with [EXIT_FAILURE]. *)
Definition client_open_dst_file (fs : FILE_SYSTEM) (cl : FILESHARE_CLIENT)
    : option FILESHARE_CLIENT :=
  if negb (fs_open_ok fs) then None
  else if negb (fallocate fs (dst_file_size cl)) then None
  else Some (mkClient (replicate (Z.to_nat (dst_file_size cl)) 0)
               (dst_file_size cl) (dst_file_offset cl)).

(** Whether [client_open_dst_file] gets past both calls for [size]. *)
Definition dst_file_opens (fs : FILE_SYSTEM) (size : Z) : bool :=
  fs_open_ok fs && fallocate fs size.

(** [client_close_dst_file]: [ftruncate] to the announced size. *)
Definition client_close_dst_file (cl : FILESHARE_CLIENT) : list Z :=
  let n := Z.to_nat (dst_file_size cl) in
  take n (dst_file cl) ++ replicate (n - length (dst_file cl)) 0.

(** A file system on which [open] succeeds and [fallocate] finds room
    for every length. *)
Definition ample_fs : FILE_SYSTEM := mkFileSystem true (fun _ => true).

Inductive client_outcome :=
  | ClientRetry                            (* goto start_connection *)
  | ClientExit (code : Z) (dst : list Z).  (* exit status, destination file *)

(** One connection of the client's [main], from the size to the exit;
    the destination file of the model starts empty. *)
Definition client_main (stream : list Z) (caps : nat -> Z) (fs : FILE_SYSTEM)
    : client_outcome :=
  let cl0 := mkClient [] 0 0 in
  let '(ok, cl, rest) := client_recv_file_size cl0 stream in
  if negb ok then ClientRetry
  else match client_open_dst_file fs cl with
       | None => ClientExit 1 []
       | Some cl' =>
           match client_recv_loop (S (length rest)) caps 0 cl' rest with
           | None => ClientRetry
           | Some cl'' => ClientExit 0 (client_close_dst_file cl'')
           end
       end.

(* ------------------------------------------------------------------ *)
(** ** Programs that may call [exit]: a state monad with exit *)

Inductive exec (S A : Type) : Type :=
  | Done (a : A) (s : S)
  | Exited (code : Z) (s : S).
Arguments Done {S A} a s.
Arguments Exited {S A} code s.

Definition ST (S A : Type) : Type := S -> exec S A.

Definition st_bind {S A B} (m : ST S A) (k : A -> ST S B) : ST S B := fun s =>
  match m s with
  | Done a s' => k a s'
  | Exited c s' => Exited c s'
  end.

Global Instance ST_ret S : MRet (ST S) := fun A a s => Done a s.
Global Instance ST_bind S : MBind (ST S) := fun A B k m => st_bind m k.

Notation "'let!' x := m 'in' k" := (st_bind m (fun x => k))
  (at level 200, x name, m at level 100, k at level 200).

Definition st_get {S} : ST S S := fun s => Done s s.
Definition st_put {S} (s : S) : ST S unit := fun _ => Done tt s.
Definition st_modify {S} (f : S -> S) : ST S unit := fun s => Done tt (f s).
Definition st_exit {S A} (code : Z) : ST S A := fun s => Exited code s.

Definition EXIT_SUCCESS : Z := 0.
Definition EXIT_FAILURE : Z := 1.

(** What the kernel and the C library return to the calls of one loop
    iteration.  Each descriptor appears at most once in a readiness
    batch, so each slot sees at most one advance, one [close] and one
    [epoll_ctl] per iteration, and an oracle indexed by the slot (or the
    readiness tag) describes all of them. *)
Record tick := mkTick {
  t_sig : bool;                    (* SIGINT delivered before the admission check *)
  t_epoll : option (list (Z * Z)); (* epoll_wait: -1, or the (tag, events) reported *)
  t_poll : option (Z -> Z);        (* poll: -1, or the revents of each pollfd index *)
  t_accept : option N;             (* accept: the new descriptor, or -1 *)
  t_sig_accept : bool;             (* SIGINT delivered before a failed accept looks at the flag *)
  t_sockopt : bool;                (* the setsockopt calls after accept succeed *)
  t_io : Z -> bool * write_ret;    (* slot i: pread fails?, write result *)
  t_ctl : Z -> bool;               (* epoll_ctl for the descriptor of this tag succeeds *)
  t_close : Z -> bool              (* close of slot i's socket succeeds *)
}.

Inductive loop_ctl := LoopBreak | LoopContinue.

(* ------------------------------------------------------------------ *)
(** ** State shared by the two event loops *)

(** An entry of the epoll interest list: descriptor, tag ([data.u32]) and
    requested events. *)
Record reg := mkReg { reg_fd : Z; reg_tag : Z; reg_events : Z }.

(** [struct pollfd]. *)
Record pollfd := mkPollfd { pfd_fd : Z; pfd_events : Z; pfd_revents : Z }.

(** The variables of [main] that live across loop iterations, the
    kernel objects the loop manipulates, and the process's output.  The
    epoll loop uses [accept_new_connections_prev] and [interest]; the poll
    loop uses [pollfds]. *)
Record state_t := mkState {
  conns : list FILESHARE_CONNECTION;
  num_active_clients : Z;
  num_connected_clients : Z;
  received_sigint : bool;
  stdout : list string;
  accept_new_connections_prev : bool;
  interest : list reg;
  pollfds : list pollfd
}.

Definition set_conns (s : state_t) x :=
  mkState x (num_active_clients s) (num_connected_clients s) (received_sigint s)
    (stdout s) (accept_new_connections_prev s) (interest s) (pollfds s).
Definition set_active (s : state_t) x :=
  mkState (conns s) x (num_connected_clients s) (received_sigint s)
    (stdout s) (accept_new_connections_prev s) (interest s) (pollfds s).
Definition set_connected (s : state_t) x :=
  mkState (conns s) (num_active_clients s) x (received_sigint s)
    (stdout s) (accept_new_connections_prev s) (interest s) (pollfds s).
Definition set_sigint (s : state_t) x :=
  mkState (conns s) (num_active_clients s) (num_connected_clients s) x
    (stdout s) (accept_new_connections_prev s) (interest s) (pollfds s).
Definition set_stdout (s : state_t) x :=
  mkState (conns s) (num_active_clients s) (num_connected_clients s) (received_sigint s)
    x (accept_new_connections_prev s) (interest s) (pollfds s).
Definition set_prev (s : state_t) x :=
  mkState (conns s) (num_active_clients s) (num_connected_clients s) (received_sigint s)
    (stdout s) x (interest s) (pollfds s).
Definition set_interest (s : state_t) x :=
  mkState (conns s) (num_active_clients s) (num_connected_clients s) (received_sigint s)
    (stdout s) (accept_new_connections_prev s) x (pollfds s).
Definition set_pollfds (s : state_t) x :=
  mkState (conns s) (num_active_clients s) (num_connected_clients s) (received_sigint s)
    (stdout s) (accept_new_connections_prev s) (interest s) x.

Abbreviation M := (ST state_t).

Definition printf (msg : string) : M unit :=
  st_modify (fun s => set_stdout s (stdout s ++ [msg])).

(** [sigint_handler]: [atomic_store(&received_sigint, true)], when the
    signal arrives. *)
Definition sigint_arrives (sig : bool) : M unit :=
  st_modify (fun s => set_sigint s (received_sigint s || sig)).

Definition program_in_shutdown : M bool :=
  let! s := st_get in mret (received_sigint s).

Definition empty_conn : FILESHARE_CONNECTION := mkConn 0 0 CONNECTION_EMPTY.

(** [conns[i]] *)
Definition get_conn (i : Z) : M FILESHARE_CONNECTION :=
  let! s := st_get in mret (default empty_conn (conns s !! Z.to_nat i)).

Definition put_conn (i : Z) (c : FILESHARE_CONNECTION) : M unit :=
  st_modify (fun s => set_conns s (<[Z.to_nat i := c]> (conns s))).

Definition alter_conn (i : Z) (f : FILESHARE_CONNECTION -> FILESHARE_CONNECTION) : M unit :=
  st_modify (fun s => set_conns s (alter f (Z.to_nat i) (conns s))).

(** [server_accept_connection_request(&server, &conns[k])]; its result is
    ignored by both loops. *)
Definition server_accept_connection_request (k : Z) (t : tick) : M bool :=
  printf "Wait for client to connect" ;;
  match t_accept t with
  | None =>
      alter_conn k (fun c => mkConn (-1) (src_file_offset c) (state c)) ;;
      sigint_arrives (t_sig_accept t) ;;
      let! sd := program_in_shutdown in
      if sd then mret false else st_exit EXIT_FAILURE
  | Some fd =>
      alter_conn k (fun c => mkConn (Z.of_N fd) (src_file_offset c) (state c)) ;;
      if negb (t_sockopt t) then st_exit EXIT_FAILURE
      else printf "Client connected" ;; mret true
  end.

(** [server_close_conn_socket]: exits when [close] fails. *)
Definition server_close_conn_socket (ok : bool) : M unit :=
  if ok then mret tt else st_exit EXIT_FAILURE.

Definition increment_connected : M unit :=
  st_modify (fun s => set_connected s (size_t (num_connected_clients s + 1))).

Definition increment_active : M unit :=
  st_modify (fun s => set_active s (size_t (num_active_clients s + 1))).

Definition decrement_active : M unit :=
  st_modify (fun s => set_active s (size_t (num_active_clients s - 1))).

(** [accept_new_connections] as both loops compute it. *)
Definition admission (N : Z) (s : state_t) : bool :=
  negb (num_connected_clients s =? N) && negb (received_sigint s).

(** What the set-up calls of [main] return. *)
Record setup_ret := mkSetup {
  su_mux_create : bool;             (* epoll_create1 (the epoll server only) *)
  su_alloc : bool;                  (* the two calloc calls *)
  su_src_file : option (list Z);    (* open + fstat of the source file *)
  su_sigaction : bool;              (* init_shutdown_control *)
  su_socket : option N;             (* socket() of the listening socket *)
  su_listen_setup : bool;           (* setsockopt + bind + listen *)
  su_ctl : bool                     (* epoll_ctl of the listening socket (epoll only) *)
}.

(** The state when [main] reaches the loop, for [max_conns = N]. *)
Definition init_state (N : Z) (pfds : list pollfd) : state_t :=
  mkState (replicate (Z.to_nat N) (mkConn 0 0 CONNECTION_EMPTY)) 0 0 false [] true [] pfds.

(** After the loop: [close] of the listening socket and of the source file
    (each exits on failure), then the final message and [return
    EXIT_SUCCESS]. *)
Definition finish (close_listen_ok close_src_ok : bool) : M unit :=
  if negb close_listen_ok then st_exit EXIT_FAILURE
  else if negb close_src_ok then st_exit EXIT_FAILURE
  else printf "Transfer finished" ;; st_exit EXIT_SUCCESS.

(* ------------------------------------------------------------------ *)
(** ** The epoll server (its [main] and the [epoll_*] wrappers) *)

Module EpollServer.

Definition EPOLLIN : Z := 1.
Definition EPOLLOUT : Z := 4.
Definition EPOLLERR : Z := 8.
Definition EPOLLHUP : Z := 16.

Definition registered (fd : Z) (l : list reg) : bool :=
  existsb (fun r => reg_fd r =? fd) l.

(** [epoll_ctl(EPOLL_CTL_ADD)]: EBADF on a negative descriptor, EEXIST on
    one already in the interest list; [ok] is whether the kernel
    otherwise succeeds.  Returns whether the call returned 0. *)
Definition epoll_ctl_add (fd tag events : Z) (ok : bool) : M bool :=
  let! s := st_get in
  if (fd <? 0) || registered fd (interest s) || negb ok then mret false
  else st_put (set_interest s (interest s ++ [mkReg fd tag events])) ;; mret true.

(** [epoll_ctl(EPOLL_CTL_DEL)]: EBADF on a negative descriptor, ENOENT on
    one not in the interest list. *)
Definition epoll_ctl_del (fd : Z) (ok : bool) : M bool :=
  let! s := st_get in
  if (fd <? 0) || negb (registered fd (interest s)) || negb ok then mret false
  else st_put (set_interest s (filter (fun r => negb (reg_fd r =? fd)) (interest s)))
       ;; mret true.

Definition epoll_server_wait_for_client (srv : FILESHARE_SERVER) (ok : bool) : M unit :=
  let! r := epoll_ctl_add (listen_sock_fd srv) 0 EPOLLIN ok in
  if r then mret tt else st_exit EXIT_FAILURE.

Definition epoll_server_stop_waiting_for_client (srv : FILESHARE_SERVER) (ok : bool) : M unit :=
  let! r := epoll_ctl_del (listen_sock_fd srv) ok in
  if r then mret tt else st_exit EXIT_FAILURE.

Definition epoll_conn_wait_on_socket (conn_i : Z) (conn : FILESHARE_CONNECTION)
    (ok : bool) : M unit :=
  let! r := epoll_ctl_add (client_sock_fd conn) (1 + conn_i) (Z.lor EPOLLOUT EPOLLHUP) ok in
  if r then mret tt else st_exit EXIT_FAILURE.

Definition epoll_conn_stop_waiting_on_socket (conn : FILESHARE_CONNECTION) (ok : bool) : M unit :=
  let! r := epoll_ctl_del (client_sock_fd conn) ok in
  if r then mret tt else st_exit EXIT_FAILURE.

(** What [epoll_wait] can report: each registered descriptor at most once,
    under its tag, with events among the requested ones and EPOLLERR and
    EPOLLHUP, and at most [maxevents] entries. *)
Fixpoint epoll_ready (l : list reg) (seen : list Z) (raw : list (Z * Z))
    : list (Z * Z) :=
  match raw with
  | [] => []
  | (tag, ev) :: raw' =>
      match list_find (fun r => reg_tag r = tag) l with
      | Some (_, r) =>
          let ev' := Z.land ev (Z.lor (reg_events r) (Z.lor EPOLLERR EPOLLHUP)) in
          if (ev' =? 0) || existsb (Z.eqb tag) seen then epoll_ready l seen raw'
          else (tag, ev') :: epoll_ready l (tag :: seen) raw'
      | None => epoll_ready l seen raw'
      end
  end.

(** The listening-socket event of the loop body. *)
Definition accept_event (t : tick) : M unit :=
  let! s := st_get in
  let k := num_connected_clients s in
  let! _ := server_accept_connection_request k t in
  alter_conn k (fun c => set_state c SEND_FILE_SIZE) ;;
  let! c := get_conn k in
  epoll_conn_wait_on_socket k c (t_ctl t (1 + k)) ;;
  increment_connected ;;
  increment_active.

(** A connection event of the loop body. *)
Definition conn_event_step (srv : FILESHARE_SERVER) (t : tick) (tag ev : Z) : M unit :=
  let conn_i := size_t (tag - 1) in
  let! c := get_conn conn_i in
  if negb (Z.land ev EPOLLHUP =? 0) then
    epoll_conn_stop_waiting_on_socket c (t_ctl t tag) ;;
    server_close_conn_socket (t_close t conn_i) ;;
    alter_conn conn_i (fun c => set_state c TRANSFER_FINISHED) ;;
    decrement_active
  else if negb (Z.land ev EPOLLOUT =? 0) then
    let '(rd, o) := t_io t conn_i in
    match advance srv c rd o with
    | None => st_exit EXIT_FAILURE
    | Some (success, c', _) =>
        put_conn conn_i c' ;;
        if negb success then
          epoll_conn_stop_waiting_on_socket c' (t_ctl t tag) ;;
          server_close_conn_socket (t_close t conn_i) ;;
          alter_conn conn_i (fun c => set_state c TRANSFER_FINISHED) ;;
          decrement_active
        else mret tt
    end
  else mret tt.

Fixpoint process_events (srv : FILESHARE_SERVER) (t : tick) (evs : list (Z * Z)) : M unit :=
  match evs with
  | [] => mret tt
  | (tag, ev) :: evs' =>
      (if tag =? 0 then accept_event t else conn_event_step srv t tag ev) ;;
      process_events srv t evs'
  end.

(** The head of the loop body, up to the wait: the shutdown check, the
    exit test and the deregistration of the listening socket.  [None] is
    the [break]; otherwise the [accept_new_connections] of the
    iteration. *)
Definition loop_top (N : Z) (srv : FILESHARE_SERVER) (t : tick) : M (option bool) :=
  sigint_arrives (t_sig t) ;;
  let! s := st_get in
  let accept_new_connections := admission N s in
  if (num_active_clients s =? 0) && negb accept_new_connections then mret None
  else
    (if accept_new_connections_prev s && negb accept_new_connections then
       st_modify (fun s => set_prev s false) ;;
       epoll_server_stop_waiting_for_client srv (t_ctl t 0)
     else mret tt) ;;
    mret (Some accept_new_connections).

(** One iteration of [while (true)] with [max_conns = N]. *)
Definition iteration (N : Z) (srv : FILESHARE_SERVER) (t : tick) : M loop_ctl :=
  let! top := loop_top N srv t in
  match top with
  | None => mret LoopBreak
  | Some _ =>
      match t_epoll t with
      | None => st_exit EXIT_FAILURE
      | Some raw =>
          let! s' := st_get in
          process_events srv t (take (Z.to_nat (N + 1)) (epoll_ready (interest s') [] raw)) ;;
          mret LoopContinue
      end
  end.

(** The loop over a sequence of iterations: [true] once it has left the
    loop, [false] while it is still running. *)
Fixpoint event_loop (N : Z) (srv : FILESHARE_SERVER) (ts : list tick) : M bool :=
  match ts with
  | [] => mret false
  | t :: ts' =>
      let! r := iteration N srv t in
      match r with
      | LoopBreak => mret true
      | LoopContinue => event_loop N srv ts'
      end
  end.

(** [main] up to the loop: returns the server descriptor. *)
Definition setup (su : setup_ret) : M FILESHARE_SERVER :=
  if negb (su_mux_create su) then st_exit EXIT_FAILURE
  else if negb (su_alloc su) then st_exit EXIT_FAILURE
  else match su_src_file su with
       | None => st_exit EXIT_FAILURE
       | Some file =>
           if negb (su_sigaction su) then st_exit EXIT_FAILURE
           else match su_socket su with
                | None => st_exit EXIT_FAILURE
                | Some lfd =>
                    if negb (su_listen_setup su) then st_exit EXIT_FAILURE
                    else
                      let srv := mkServer file (Z.of_N lfd) in
                      epoll_server_wait_for_client srv (su_ctl su) ;;
                      mret srv
                end
       end.

(** The whole of [main] (after argument parsing) for [max_conns = N]. *)
Definition main (N : Z) (su : setup_ret) (ts : list tick) (cl1 cl2 : bool) : M unit :=
  let! srv := setup su in
  let! left := event_loop N srv ts in
  if left then finish cl1 cl2 else mret tt.

(** The state when the loop is entered. *)
Definition init (N : Z) : state_t := init_state N [].

(** [main] up to the end of the loop, for the sequence of iterations
    [ts]: the server descriptor and whether the loop was left. *)
Definition run_loop (N : Z) (su : setup_ret) (ts : list tick) : M (FILESHARE_SERVER * bool) :=
  let! srv := setup su in
  let! left := event_loop N srv ts in
  mret (srv, left).

End EpollServer.

(* ------------------------------------------------------------------ *)
(** ** The poll server (the [main] of server-poll.c) *)

Module PollServer.

Definition POLLIN : Z := 1.
Definition POLLOUT : Z := 4.
Definition POLLERR : Z := 8.
Definition POLLHUP : Z := 16.
Definition POLLNVAL : Z := 32.

Definition zero_pollfd : pollfd := mkPollfd 0 0 0.

(** [pollfds[i]] *)
Definition get_pollfd (i : Z) : M pollfd :=
  let! s := st_get in mret (default zero_pollfd (pollfds s !! Z.to_nat i)).

Definition set_pollfd (i : Z) (p : pollfd) : M unit :=
  st_modify (fun s => set_pollfds s (<[Z.to_nat i := p]> (pollfds s))).

Definition poll_server_wait_for_client (srv : FILESHARE_SERVER) : M unit :=
  set_pollfd 0 (mkPollfd (listen_sock_fd srv) POLLIN 0).

Definition poll_server_do_not_wait_for_client : M unit :=
  set_pollfd 0 (mkPollfd (-1) 0 0).

Definition poll_conn_wait_on_socket (conn_i : Z) (conn : FILESHARE_CONNECTION) : M unit :=
  set_pollfd (1 + conn_i) (mkPollfd (client_sock_fd conn) (Z.lor POLLOUT POLLHUP) 0).

Definition poll_conn_do_not_wait_on_socket (conn_i : Z) : M unit :=
  set_pollfd (1 + conn_i) (mkPollfd (-1) 0 0).

(** [for (conn_i = i; conn_i < i + n; ++conn_i) body(conn_i)] *)
Fixpoint for_range (i : Z) (n : nat) (body : Z -> M unit) : M unit :=
  match n with
  | O => mret tt
  | S n' => body i ;; for_range (i + 1) n' body
  end.

(** The body of the first [for] loop: arm or disarm slot [conn_i]. *)
Definition arm_conn (conn_i : Z) : M unit :=
  let! c := get_conn conn_i in
  match state c with
  | CONNECTION_EMPTY => st_exit EXIT_FAILURE
  | SEND_FILE_SIZE | SEND_DATA_BLOCK => poll_conn_wait_on_socket conn_i c
  | TRANSFER_FINISHED => poll_conn_do_not_wait_on_socket conn_i
  end.

(** What [poll(pollfds, nfds, -1)] does to the array: for each of the
    first [nfds] entries, [revents] is 0 for a negative descriptor and
    otherwise among the requested events and POLLERR, POLLHUP, POLLNVAL;
    the entries past [nfds] are not touched. *)
Definition poll_revents (nfds : Z) (rv : Z -> Z) (i : nat) (p : pollfd) : pollfd :=
  if Z.of_nat i <? nfds then
    if pfd_fd p <? 0 then mkPollfd (pfd_fd p) (pfd_events p) 0
    else mkPollfd (pfd_fd p) (pfd_events p)
           (Z.land (rv (Z.of_nat i))
              (Z.lor (pfd_events p) (Z.lor POLLERR (Z.lor POLLHUP POLLNVAL))))
  else p.

Definition do_poll (nfds : Z) (rv : Z -> Z) : M unit :=
  st_modify (fun s => set_pollfds s (imap (poll_revents nfds rv) (pollfds s))).

(** The listening-socket branch of the loop body. *)
Definition accept_event (t : tick) : M unit :=
  let! s := st_get in
  let k := num_connected_clients s in
  let! _ := server_accept_connection_request k t in
  alter_conn k (fun c => set_state c SEND_FILE_SIZE) ;;
  increment_connected ;;
  increment_active.

(** The body of the second [for] loop, for slot [conn_i]. *)
Definition conn_poll_step (srv : FILESHARE_SERVER) (t : tick) (conn_i : Z) : M unit :=
  let! p := get_pollfd (1 + conn_i) in
  if negb (Z.land (pfd_revents p) POLLHUP =? 0) then
    server_close_conn_socket (t_close t conn_i) ;;
    alter_conn conn_i (fun c => set_state c TRANSFER_FINISHED) ;;
    decrement_active
  else if negb (Z.land (pfd_revents p) POLLOUT =? 0) then
    let! c := get_conn conn_i in
    let '(rd, o) := t_io t conn_i in
    match advance srv c rd o with
    | None => st_exit EXIT_FAILURE
    | Some (success, c', _) =>
        put_conn conn_i c' ;;
        if negb success then
          server_close_conn_socket (t_close t conn_i) ;;
          decrement_active
        else mret tt
    end
  else mret tt.

(** The head of the loop body, up to the [poll]: the shutdown check, the
    exit test and the arming of the [pollfds] array.  [None] is the
    [break]; otherwise the [nfds] passed to [poll]. *)
Definition loop_top (N : Z) (srv : FILESHARE_SERVER) (t : tick) : M (option Z) :=
  sigint_arrives (t_sig t) ;;
  let! s := st_get in
  let accept_new_connections := admission N s in
  if (num_active_clients s =? 0) && negb accept_new_connections then mret None
  else
    (if accept_new_connections then poll_server_wait_for_client srv
     else poll_server_do_not_wait_for_client) ;;
    for_range 0 (Z.to_nat (num_connected_clients s)) arm_conn ;;
    mret (Some (1 + num_connected_clients s)).

(** One iteration of [while (true)] with [max_conns = N]. *)
Definition iteration (N : Z) (srv : FILESHARE_SERVER) (t : tick) : M loop_ctl :=
  let! top := loop_top N srv t in
  match top with
  | None => mret LoopBreak
  | Some nfds =>
      match t_poll t with
      | None => st_exit EXIT_FAILURE
      | Some rv =>
          do_poll nfds rv ;;
          let! p0 := get_pollfd 0 in
          (if negb (Z.land (pfd_revents p0) POLLIN =? 0) then accept_event t
           else mret tt) ;;
          let! s' := st_get in
          for_range 0 (Z.to_nat (num_connected_clients s')) (conn_poll_step srv t) ;;
          mret LoopContinue
      end
  end.

Fixpoint event_loop (N : Z) (srv : FILESHARE_SERVER) (ts : list tick) : M bool :=
  match ts with
  | [] => mret false
  | t :: ts' =>
      let! r := iteration N srv t in
      match r with
      | LoopBreak => mret true
      | LoopContinue => event_loop N srv ts'
      end
  end.

(** [main] up to the loop: returns the server descriptor. *)
Definition setup (su : setup_ret) : M FILESHARE_SERVER :=
  if negb (su_alloc su) then st_exit EXIT_FAILURE
  else match su_src_file su with
       | None => st_exit EXIT_FAILURE
       | Some file =>
           if negb (su_sigaction su) then st_exit EXIT_FAILURE
           else match su_socket su with
                | None => st_exit EXIT_FAILURE
                | Some lfd =>
                    if negb (su_listen_setup su) then st_exit EXIT_FAILURE
                    else mret (mkServer file (Z.of_N lfd))
                end
       end.

Definition main (N : Z) (su : setup_ret) (ts : list tick) (cl1 cl2 : bool) : M unit :=
  let! srv := setup su in
  let! left := event_loop N srv ts in
  if left then finish cl1 cl2 else mret tt.

(** The state when the loop is entered: [pollfds] from [calloc]. *)
Definition init (N : Z) : state_t :=
  init_state N (replicate (Z.to_nat (N + 1)) zero_pollfd).

(** [main] up to the end of the loop, for the sequence of iterations
    [ts]: the server descriptor and whether the loop was left. *)
Definition run_loop (N : Z) (su : setup_ret) (ts : list tick) : M (FILESHARE_SERVER * bool) :=
  let! srv := setup su in
  let! left := event_loop N srv ts in
  mret (srv, left).

End PollServer.

(** The connections a run of the protocol starts from or passes through
    while it is still going: sending the size, or sending data from an
    offset within the file. *)
Definition conn_inv (srv : FILESHARE_SERVER) (c : FILESHARE_CONNECTION) : Prop :=
  state c = SEND_FILE_SIZE \/
  (state c = SEND_DATA_BLOCK /\ 0 <= src_file_offset c <= src_file_size srv).

(** The data blocks of a run: what the [SEND_DATA_BLOCK] advances put on
    the wire, in order. *)
Definition data_blocks (tr : list step_rec) : list (list Z) :=
  map st_sent (filter (fun r => TRANSFER_STATE_eqb (state (st_before r)) SEND_DATA_BLOCK) tr).

(** Sample source files: byte [i] of the file is [i mod 251]. *)
Definition sample_server (n : nat) : FILESHARE_SERVER :=
  mkServer (map (fun i => Z.of_nat i mod 251) (seq 0 n)) 3.

(* ------------------------------------------------------------------ *)
(** ** What the two loops maintain *)

(** A connection slot that is still being served. *)
Definition is_live (c : FILESHARE_CONNECTION) : bool :=
  match state c with
  | SEND_FILE_SIZE | SEND_DATA_BLOCK => true
  | _ => false
  end.

Fixpoint count_live (l : list FILESHARE_CONNECTION) : nat :=
  match l with
  | [] => O
  | c :: l' => ((if is_live c then 1 else 0) + count_live l')%nat
  end.

(** The slot array and the two counters: the first
    [num_connected_clients] slots hold accepted connections, the others
    are as [calloc] left them, and [num_active_clients] counts the slots
    still being served. *)
Definition slots_ok (N : Z) (s : state_t) : Prop :=
  length (conns s) = Z.to_nat N /\
  0 <= num_connected_clients s <= N /\
  (forall i c, conns s !! i = Some c ->
     (Z.of_nat i < num_connected_clients s -> state c <> CONNECTION_EMPTY) /\
     (num_connected_clients s <= Z.of_nat i -> c = empty_conn)) /\
  num_active_clients s = Z.of_nat (count_live (conns s)).

(** The registration of the listening socket in the epoll interest list. *)
Definition epoll_listen_reg (srv : FILESHARE_SERVER) : reg :=
  mkReg (listen_sock_fd srv) 0 EpollServer.EPOLLIN.

(** The registration of the connection in slot [i]. *)
Definition epoll_slot_reg (i : nat) (c : FILESHARE_CONNECTION) : reg :=
  mkReg (client_sock_fd c) (1 + Z.of_nat i) (Z.lor EpollServer.EPOLLOUT EpollServer.EPOLLHUP).

(** The interest list holds the listening socket while
    [accept_new_connections_prev] is set and the connections still being
    served, each descriptor once. *)
Definition epoll_interest_ok (srv : FILESHARE_SERVER) (s : state_t) : Prop :=
  NoDup (map reg_fd (interest s)) /\
  forall r, r ∈ interest s <->
    (r = epoll_listen_reg srv /\ accept_new_connections_prev s = true) \/
    (exists i c, conns s !! i = Some c /\ is_live c = true /\ r = epoll_slot_reg i c).

(** The invariant of the epoll loop between two iterations. *)
Definition epoll_inv (N : Z) (srv : FILESHARE_SERVER) (s : state_t) : Prop :=
  slots_ok N s /\ epoll_interest_ok srv s /\
  (admission N s = true -> accept_new_connections_prev s = true).

(** A batch of readiness events as the loop receives it: each tag once,
    the listening socket only while a slot is free, connections only for
    slots still being served. *)
Definition epoll_batch_ok (N : Z) (s : state_t) (evs : list (Z * Z)) : Prop :=
  NoDup (map fst evs) /\
  forall tag ev, (tag, ev) ∈ evs ->
    (tag = 0 /\ num_connected_clients s < N) \/
    (exists i c, tag = 1 + Z.of_nat i /\ conns s !! i = Some c /\ is_live c = true).

(** The final message has not been printed. *)
Definition quiet (s : state_t) : Prop := "Transfer finished"%string ∉ stdout s.

(** What an iteration never undoes: accepted clients stay counted and a
    received SIGINT stays received. *)
Definition monotone (s s' : state_t) : Prop :=
  num_connected_clients s <= num_connected_clients s' /\
  (received_sigint s = true -> received_sigint s' = true).

(** The invariant of the poll loop between two iterations: the slots and
    counters as in [slots_ok], one [pollfds] entry per slot plus the
    listening socket, and the entries of the slots not yet used still as
    [calloc] left them. *)
Definition poll_inv (N : Z) (s : state_t) : Prop :=
  slots_ok N s /\ length (pollfds s) = Z.to_nat (N + 1) /\
  (forall j, num_connected_clients s <= Z.of_nat j < N ->
     pollfds s !! S j = Some PollServer.zero_pollfd).

(** The [pollfds] entry of the listening socket when admissions are
    allowed or not. *)
Definition poll_listen_entry (srv : FILESHARE_SERVER) (accept : bool) : pollfd :=
  if accept then mkPollfd (listen_sock_fd srv) PollServer.POLLIN 0 else mkPollfd (-1) 0 0.

(** The [pollfds] entry of a connection: armed for writability and
    hang-up while it is served, disabled ([fd = -1]) otherwise. *)
Definition poll_slot_entry (c : FILESHARE_CONNECTION) : pollfd :=
  if is_live c then mkPollfd (client_sock_fd c) (Z.lor PollServer.POLLOUT PollServer.POLLHUP) 0
  else mkPollfd (-1) 0 0.

(** The state an execution ends in. *)
Definition final_state {S A} (e : exec S A) : S :=
  match e with Done _ s | Exited _ s => s end.

(** A set-up in which every call succeeds, serving a 2500-byte file on
    listening descriptor 3. *)
Definition sample_setup : setup_ret :=
  mkSetup true true (Some (src_file (sample_server 2500))) true (Some 3%N) true true.

(** An iteration in which the descriptors with the tags (epoll) or
    [pollfds] indices (poll) in [ready] are ready, [accept] returns [fd]
    and every call succeeds, writes accepting up to 1024 bytes. *)
Definition sample_tick (fd : N) (ready : list Z) : tick :=
  mkTick false
    (Some (map (fun tag => (tag, if tag =? 0 then EpollServer.EPOLLIN else EpollServer.EPOLLOUT)) ready))
    (Some (fun i => if existsb (Z.eqb i) ready
                    then (if i =? 0 then PollServer.POLLIN else PollServer.POLLOUT) else 0))
    (Some fd) false true (fun _ => (false, mkWrite 1024 0)) (fun _ => true) (fun _ => true).

(** Two clients admitted with [max_conns = 2]. *)
Definition sample_ticks_2 : list tick := [sample_tick 5 [0]; sample_tick 6 [0; 1]].

(** One client served to the end with [max_conns = 1], then the loop
    is left. *)
Definition sample_ticks_1 : list tick :=
  [sample_tick 5 [0]; sample_tick 5 [1]; sample_tick 5 [1]; sample_tick 5 [1];
   sample_tick 5 [1]; sample_tick 5 []].

(** The state of the sample runs after the iterations [ts]. *)
Definition epoll_sample (N : Z) (ts : list tick) : state_t :=
  final_state (EpollServer.run_loop N sample_setup ts (EpollServer.init N)).

Definition poll_sample (N : Z) (ts : list tick) : state_t :=
  final_state (PollServer.run_loop N sample_setup ts (PollServer.init N)).

(* ------------------------------------------------------------------ *)
(** ** Argument parsing of the servers' [main] *)

Definition LONG_MAX : Z := 2 ^ 63 - 1.
Definition LONG_MIN : Z := - 2 ^ 63.

(** [isspace] and [isdigit] in the C locale. *)
Definition c_isspace (c : ascii) : bool :=
  let n := nat_of_ascii c in ((n =? 32)%nat || ((9 <=? n)%nat && (n <=? 13)%nat))%bool.
Definition c_isdigit (c : ascii) : bool :=
  let n := nat_of_ascii c in ((48 <=? n)%nat && (n <=? 57)%nat)%bool.
Definition digit_value (c : ascii) : Z := Z.of_nat (nat_of_ascii c) - 48.

Fixpoint skip_space (l : list ascii) : nat :=
  match l with
  | c :: l' => if c_isspace c then S (skip_space l') else O
  | [] => O
  end.

Fixpoint scan_digits (l : list ascii) (acc : Z) : Z * nat :=
  match l with
  | c :: l' =>
      if c_isdigit c then
        let r := scan_digits l' (10 * acc + digit_value c) in (fst r, S (snd r))
      else (acc, O)
  | [] => (acc, O)
  end.

Definition strtol10 (l : list ascii) : Z * nat :=
  let w := skip_space l in
  let l1 := drop w l in
  let '(neg, k) := match l1 with
                   | c :: _ => if Ascii.eqb c "-"%char then (true, 1%nat)
                               else if Ascii.eqb c "+"%char then (false, 1%nat)
                               else (false, 0%nat)
                   | [] => (false, 0%nat)
                   end in
  let '(mag, nd) := scan_digits (drop k l1) 0 in
  if (nd =? 0)%nat then (0, O)
  else (Z.max LONG_MIN (Z.min LONG_MAX (if neg then - mag else mag)), (w + k + nd)%nat).

Definition parse_max_conns (arg : string) : option Z :=
  let l := list_ascii_of_string arg in
  let '(v, e) := strtol10 l in
  let max_conns := size_t v in
  if (match l with [] => true | _ => false end || (e <? length l)%nat || (max_conns =? 0))%bool
  then None else Some max_conns.

Definition decimal_value (ds : list ascii) : Z :=
  fold_left (fun acc c => 10 * acc + digit_value c) ds 0.

(* ------------------------------------------------------------------ *)
(** ** The libaio file copy (linux-aio-cp) *)

Module LinuxAio.

Definition READ_BLOCK_SIZE : Z := 4096.
Definition QUEUE_SIZE : nat := 16.

(** [IO_CMD_PREAD] and [IO_CMD_PWRITE] of libaio's [io_iocb_cmd]. *)
Definition IO_CMD_PREAD : Z := 0.
Definition IO_CMD_PWRITE : Z := 1.

(** [struct iocb]; [buf] is the index of [u.c.buf] in [buffer], the only
    memory the program points it to. *)
Record iocb := mkIocb {
  aio_fildes : Z;
  aio_lio_opcode : Z;
  aio_reqprio : Z;
  buf : Z;
  nbytes : Z;
  offset : Z
}.

Definition iocb_zero : iocb := mkIocb 0 0 0 0 0 0.
#[global] Instance iocb_inhabited : Inhabited iocb := populate iocb_zero.

(** [io_read_setup] and [io_write_setup]: [memset] then the fields. *)
Definition io_read_setup (fd offset0 buf0 size : Z) : iocb :=
  mkIocb fd IO_CMD_PREAD 0 buf0 size offset0.
Definition io_write_setup (fd offset0 buf0 size : Z) : iocb :=
  mkIocb fd IO_CMD_PWRITE 0 buf0 size offset0.

(** The variables of [main], the requests the kernel holds ([inflight]:
    submitted, not yet returned by [io_getevents]), the aligned buffer,
    the destination file and the output. *)
Record aio_state := mkAio {
  iocbs : list iocb;
  submit_list : list (option nat);   (* None: NULL *)
  src_off : Z;
  num_io_reqs : Z;
  num_to_submit : Z;
  inflight : list nat;
  buffer : list Z;
  dst : list Z;
  out : list string
}.

Definition set_iocbs s x := mkAio x (submit_list s) (src_off s) (num_io_reqs s) (num_to_submit s) (inflight s) (buffer s) (dst s) (out s).
Definition set_submit_list s x := mkAio (iocbs s) x (src_off s) (num_io_reqs s) (num_to_submit s) (inflight s) (buffer s) (dst s) (out s).
Definition set_src_off s x := mkAio (iocbs s) (submit_list s) x (num_io_reqs s) (num_to_submit s) (inflight s) (buffer s) (dst s) (out s).
Definition set_num_io_reqs s x := mkAio (iocbs s) (submit_list s) (src_off s) x (num_to_submit s) (inflight s) (buffer s) (dst s) (out s).
Definition set_num_to_submit s x := mkAio (iocbs s) (submit_list s) (src_off s) (num_io_reqs s) x (inflight s) (buffer s) (dst s) (out s).
Definition set_inflight s x := mkAio (iocbs s) (submit_list s) (src_off s) (num_io_reqs s) (num_to_submit s) x (buffer s) (dst s) (out s).
Definition set_buffer s x := mkAio (iocbs s) (submit_list s) (src_off s) (num_io_reqs s) (num_to_submit s) (inflight s) x (dst s) (out s).
Definition set_dst s x := mkAio (iocbs s) (submit_list s) (src_off s) (num_io_reqs s) (num_to_submit s) (inflight s) (buffer s) x (out s).
Definition set_out s x := mkAio (iocbs s) (submit_list s) (src_off s) (num_io_reqs s) (num_to_submit s) (inflight s) (buffer s) (dst s) x.

Definition AM := ST aio_state.

Definition aio_printf (msg : string) : AM unit :=
  st_modify (fun s => set_out s (out s ++ [msg])).

(** What the kernel returns to one loop iteration: whether [io_submit]
    succeeds (it takes all the requests or fails: the context holds
    [QUEUE_SIZE] requests, as many as there are control blocks) and
    [io_getevents]'s result: -1, or the control blocks it reports. *)
Record aio_tick := mkAioTick {
  at_submit : bool;
  at_events : option (list nat)
}.

(** Storing bytes into memory at an index. *)
Definition mem_store (mem : list Z) (a : nat) (data : list Z) : list Z :=
  take a mem ++ data ++ drop (a + length data) mem.

(** The requests queued by [io_submit]: the first [num_to_submit]
    entries of [submit_list]. *)
Definition pending (s : aio_state) : list nat :=
  omap id (take (Z.to_nat (num_to_submit s)) (submit_list s)).

(** [io_getevents(ctx, 1, QUEUE_SIZE, ...)] returns between 1 and
    [QUEUE_SIZE] distinct requests the kernel holds, and blocks while it
    holds none; blocking forever is a batch with no event. *)
Definition reported (held req : list nat) : list nat :=
  match take QUEUE_SIZE (remove_dups (filter (fun j => j ∈ held) req)) with
  | [] => take 1 held
  | l => l
  end.

Section Copy.
Variables (src_fd dst_fd : Z) (src : list Z) (src_size : Z).

(** [src_size = src_size + READ_BLOCK_SIZE - (src_size % READ_BLOCK_SIZE)]
    in [uint32_t] arithmetic. *)
Definition rounded_size : Z :=
  (src_size + READ_BLOCK_SIZE - src_size mod READ_BLOCK_SIZE) mod 2 ^ 32.

(** The kernel carries out request [j] and produces its [res]: a read of
    the source (a regular file: [nbytes] bytes or up to its end) into
    the buffer, or a complete write of the buffer to the destination. *)
Definition kernel_complete (s : aio_state) (j : nat) : aio_state * Z :=
  let cb := iocbs s !!! j in
  let s := set_inflight s (filter (fun k => k ≠ j) (inflight s)) in
  if aio_lio_opcode cb =? IO_CMD_PREAD then
    let data := take (Z.to_nat (nbytes cb)) (drop (Z.to_nat (offset cb)) src) in
    (set_buffer s (mem_store (buffer s) (Z.to_nat (buf cb)) data), Z.of_nat (length data))
  else
    let data := take (Z.to_nat (nbytes cb)) (drop (Z.to_nat (buf cb)) (buffer s)) in
    (set_dst s (pwrite_file (dst s) data (Z.to_nat (offset cb))), Z.of_nat (length data)).

Fixpoint kernel_events (s : aio_state) (evs : list nat) : aio_state * list (nat * Z) :=
  match evs with
  | [] => (s, [])
  | j :: evs' =>
      let '(s1, r) := kernel_complete s j in
      let '(s2, rs) := kernel_events s1 evs' in
      (s2, (j, r) :: rs)
  end.

(** [submit_list[num_to_submit] = iocb; num_to_submit++;] *)
Definition queue (j : nat) : AM unit :=
  st_modify (fun s =>
    set_num_to_submit (set_submit_list s (<[Z.to_nat (num_to_submit s) := Some j]> (submit_list s)))
      (num_to_submit s + 1)).

(** The body of [for (int ev = 0; ev < num_events; ++ev)]. *)
Definition handle_event (ev : nat * Z) : AM unit :=
  let '(j, io_ret) := ev in
  let! s := st_get in
  let cb := iocbs s !!! j in
  if aio_lio_opcode cb =? IO_CMD_PREAD then
    let bytes_read := io_ret in
    if negb (bytes_read =? 0) then
      st_modify (fun s => set_iocbs s (<[j := io_write_setup dst_fd (offset cb) (buf cb) bytes_read]> (iocbs s))) ;;
      queue j
    else
      aio_printf "ERROR: reach unavailible state" ;;
      st_exit EXIT_FAILURE
  else if aio_lio_opcode cb =? IO_CMD_PWRITE then
    let bytes_written := io_ret in
    if negb (bytes_written =? 0) && (src_off s <? rounded_size) then
      st_modify (fun s => set_iocbs s (<[j := io_read_setup src_fd (src_off s) (buf cb) READ_BLOCK_SIZE]> (iocbs s))) ;;
      queue j ;;
      st_modify (fun s => set_src_off s (src_off s + READ_BLOCK_SIZE))
    else
      st_modify (fun s => set_num_io_reqs s (size_t (num_io_reqs s - 1)))
  else mret tt.

Fixpoint handle_events (evs : list (nat * Z)) : AM unit :=
  match evs with
  | [] => mret tt
  | ev :: evs' => handle_event ev ;; handle_events evs'
  end.

(** One iteration of [while (num_io_reqs != 0U)]. *)
Definition iteration (t : aio_tick) : AM unit :=
  if negb (at_submit t) then st_exit EXIT_FAILURE
  else
    st_modify (fun s => set_inflight s (inflight s ++ pending s)) ;;
    match at_events t with
    | None =>
        aio_printf "Unable to get finished I/O events" ;;
        st_exit EXIT_FAILURE
    | Some req =>
        let! s := st_get in
        let '(s', evs) := kernel_events s (reported (inflight s) req) in
        st_put (set_num_to_submit s' 0) ;;
        handle_events evs
    end.

(** [true]: the loop ended; [false]: still running when the kernel's
    answers run out. *)
Fixpoint copy_loop (ts : list aio_tick) : AM bool :=
  let! s := st_get in
  if num_io_reqs s =? 0 then mret true
  else match ts with
       | [] => mret false
       | t :: ts' => iteration t ;; copy_loop ts'
       end.

(** The loop that starts the first reads. *)
Fixpoint initial_reads (aio_i : nat) (fuel : nat) : AM unit :=
  match fuel with
  | O => mret tt
  | S fuel' =>
      let! s := st_get in
      if src_off s <? rounded_size then
        st_put (set_num_io_reqs
                  (set_src_off
                     (set_submit_list
                        (set_iocbs s (<[aio_i := io_read_setup src_fd (src_off s)
                                                  (Z.of_nat aio_i * READ_BLOCK_SIZE) READ_BLOCK_SIZE]> (iocbs s)))
                        (<[aio_i := Some aio_i]> (submit_list s)))
                     (src_off s + READ_BLOCK_SIZE))
                  (num_io_reqs s + 1)) ;;
        initial_reads (S aio_i) fuel'
      else mret tt
  end.

Definition aio_init (dst0 buffer0 : list Z) : aio_state :=
  mkAio (replicate QUEUE_SIZE iocb_zero) (replicate QUEUE_SIZE None) 0 0 0 [] buffer0 dst0 [].

(** [main] from the rounding of [src_size] to the end of the loop;
    [buffer0] is what [aligned_alloc] returned. *)
Definition copy (dst0 buffer0 : list Z) (ts : list aio_tick) : exec aio_state bool :=
  (initial_reads 0 QUEUE_SIZE ;;
   st_modify (fun s => set_num_to_submit s (num_io_reqs s)) ;;
   copy_loop ts) (aio_init dst0 buffer0).

End Copy.

(** ** Invariant of the copy loop *)

Section Inv.
Variables (src : list Z) (src_size : Z).

(** The block of the source at offset [o] that a read returns. *)
Definition blk (o : Z) : list Z := take 4096 (drop (Z.to_nat o) src).

Definition block_done (s : aio_state) (o : Z) : Prop :=
  forall i : nat, (Z.to_nat o <= i < Z.to_nat o + 4096)%nat -> (i < length src)%nat ->
    dst s !! i = src !! i.

Definition off_ok (s : aio_state) (o : Z) : Prop :=
  0 <= o /\ o mod 4096 = 0 /\ o < src_off s.

Definition slot_ok (s : aio_state) (j : nat) : Prop :=
  let cb := iocbs s !!! j in
  buf cb = 4096 * Z.of_nat j /\ off_ok s (offset cb) /\
  ((aio_lio_opcode cb = IO_CMD_PREAD /\ nbytes cb = 4096) \/
   (aio_lio_opcode cb = IO_CMD_PWRITE /\
    nbytes cb = Z.of_nat (length (blk (offset cb))) /\ 0 < nbytes cb /\
    take (Z.to_nat (nbytes cb)) (drop (4096 * j) (buffer s)) = blk (offset cb))).

Definition ev_ok (s : aio_state) (ev : nat * Z) : Prop :=
  let '(j, r) := ev in
  let cb := iocbs s !!! j in
  buf cb = 4096 * Z.of_nat j /\ off_ok s (offset cb) /\
  ((aio_lio_opcode cb = IO_CMD_PREAD /\ r = Z.of_nat (length (blk (offset cb))) /\
    take (length (blk (offset cb))) (drop (4096 * j) (buffer s)) = blk (offset cb)) \/
   (aio_lio_opcode cb = IO_CMD_PWRITE /\ r = nbytes cb /\ 0 < r /\
    block_done s (offset cb))).

Definition active (s : aio_state) (evs : list (nat * Z)) : list nat :=
  inflight s ++ pending s ++ map fst evs.

Definition Inv (s : aio_state) (evs : list (nat * Z)) : Prop :=
  length (iocbs s) = 16%nat /\ length (submit_list s) = 16%nat /\
  length (buffer s) = Z.to_nat 65536 /\
  0 <= num_to_submit s /\ length (pending s) = Z.to_nat (num_to_submit s) /\
  (Z.to_nat (num_to_submit s) <= 16)%nat /\
  NoDup (active s evs) /\ Forall (fun j => j < 16)%nat (active s evs) /\
  num_io_reqs s = Z.of_nat (length (active s evs)) /\
  0 <= src_off s /\ src_off s mod 4096 = 0 /\ src_off s <= (rounded_size src_size) /\
  (src_off s < (rounded_size src_size) -> num_io_reqs s = 16) /\
  Forall (slot_ok s) (inflight s ++ pending s) /\ Forall (ev_ok s) evs /\
  (forall o, 0 <= o < src_off s -> o mod 4096 = 0 ->
     block_done s o \/ exists j, j ∈ active s evs /\ offset (iocbs s !!! j) = o) /\
  (Z.of_nat (length src) = (rounded_size src_size) - 4096 -> src_off s = (rounded_size src_size) ->
     exists j, j ∈ active s evs /\ aio_lio_opcode (iocbs s !!! j) = IO_CMD_PREAD /\
       offset (iocbs s !!! j) = (rounded_size src_size) - 4096).

Definition Safe (dst0 : list Z) (s : aio_state) : Prop :=
  length (dst s) = length dst0 /\
  forall i, dst s !! i = dst0 !! i \/ dst s !! i = src !! i.

End Inv.

End LinuxAio.

(* ------------------------------------------------------------------ *)
(** ** The POSIX AIO file copy (posix-aio-cp) *)

Module PosixAio.

Definition READ_BLOCK_SIZE : Z := 4096.
Definition QUEUE_SIZE : nat := 16.

(** [LIO_READ] and [LIO_WRITE] of glibc's <aio.h>. *)
Definition LIO_READ : Z := 0.
Definition LIO_WRITE : Z := 1.

(** [struct aiocb]; [aio_buf] is the index in [buffer] it points to. *)
Record aiocb := mkAiocb {
  aio_fildes : Z;
  aio_lio_opcode : Z;
  aio_buf : Z;
  aio_nbytes : Z;
  aio_offset : Z
}.

Definition aiocb_zero : aiocb := mkAiocb 0 0 0 0 0.
#[global] Instance aiocb_inhabited : Inhabited aiocb := populate aiocb_zero.

(** The variables of [main]: [wait_list[i]] is either NULL ([false]) or
    [&aiocbs[i]] ([true]); [calls] counts the [aio_read]/[aio_write]
    calls made so far. *)
Record paio_state := mkPaio {
  aiocbs : list aiocb;
  wait_list : list bool;
  src_off : Z;
  num_io_reqs : Z;
  calls : nat;
  buffer : list Z;
  dst : list Z;
  out : list string
}.

Definition set_aiocbs s x := mkPaio x (wait_list s) (src_off s) (num_io_reqs s) (calls s) (buffer s) (dst s) (out s).
Definition set_wait_list s x := mkPaio (aiocbs s) x (src_off s) (num_io_reqs s) (calls s) (buffer s) (dst s) (out s).
Definition set_src_off s x := mkPaio (aiocbs s) (wait_list s) x (num_io_reqs s) (calls s) (buffer s) (dst s) (out s).
Definition set_num_io_reqs s x := mkPaio (aiocbs s) (wait_list s) (src_off s) x (calls s) (buffer s) (dst s) (out s).
Definition set_calls s x := mkPaio (aiocbs s) (wait_list s) (src_off s) (num_io_reqs s) x (buffer s) (dst s) (out s).
Definition set_buffer s x := mkPaio (aiocbs s) (wait_list s) (src_off s) (num_io_reqs s) (calls s) x (dst s) (out s).
Definition set_dst s x := mkPaio (aiocbs s) (wait_list s) (src_off s) (num_io_reqs s) (calls s) (buffer s) x (out s).
Definition set_out s x := mkPaio (aiocbs s) (wait_list s) (src_off s) (num_io_reqs s) (calls s) (buffer s) (dst s) x.

Definition PM := ST paio_state.

Definition paio_printf (msg : string) : PM unit :=
  st_modify (fun s => set_out s (out s ++ [msg])).

(** What the C library returns to one loop iteration: whether
    [aio_suspend] succeeds, and the slots whose [aio_error] is no longer
    [EINPROGRESS] when the scan reaches them (a request on a regular file
    completes with its full result). *)
Record paio_tick := mkPaioTick {
  pt_suspend : bool;
  pt_done : list nat
}.

Section Copy.
Variables (src_fd dst_fd : Z) (src : list Z) (src_size : Z).
(** [enqueue_ok k]: whether the [k]-th call of [aio_read] or [aio_write]
    succeeds (it fails only when glibc cannot queue the request). *)
Variable enqueue_ok : nat -> bool.

(** [src_size = src_size + READ_BLOCK_SIZE - (src_size % READ_BLOCK_SIZE)]
    in [uint32_t] arithmetic. *)
Definition rounded_size : Z :=
  (src_size + READ_BLOCK_SIZE - src_size mod READ_BLOCK_SIZE) mod 2 ^ 32.

(** [aio_read] and [aio_write]: glibc's [__aio_enqueue_request] stores the
    operation in [aio_lio_opcode]; on failure the caller's [perror] and
    [exit(EXIT_FAILURE)]. *)
Definition aio_request (i : nat) (op : Z) : PM unit :=
  let! s := st_get in
  if enqueue_ok (calls s) then
    st_put (set_calls
              (set_aiocbs s (<[i := let cb := aiocbs s !!! i in
                                     mkAiocb (aio_fildes cb) op (aio_buf cb) (aio_nbytes cb) (aio_offset cb)]>
                              (aiocbs s)))
              (S (calls s)))
  else st_exit EXIT_FAILURE.

(** [aio_read_setup] and [aio_write_setup] on [&aiocbs[i]]: [memset],
    the fields, then the request. *)
Definition aio_read_setup (i : nat) (fd offset buf size : Z) : PM unit :=
  st_modify (fun s => set_aiocbs s (<[i := mkAiocb fd 0 buf size offset]> (aiocbs s))) ;;
  aio_request i LIO_READ.

Definition aio_write_setup (i : nat) (fd offset buf size : Z) : PM unit :=
  st_modify (fun s => set_aiocbs s (<[i := mkAiocb fd 0 buf size offset]> (aiocbs s))) ;;
  aio_request i LIO_WRITE.

(** The request of slot [i] carried out, with its [aio_return] value: a
    read of the source (up to its end) into the buffer, or a complete
    write of the buffer to the destination. *)
Definition complete (s : paio_state) (i : nat) : paio_state * Z :=
  let cb := aiocbs s !!! i in
  if aio_lio_opcode cb =? LIO_READ then
    let data := take (Z.to_nat (aio_nbytes cb)) (drop (Z.to_nat (aio_offset cb)) src) in
    (set_buffer s (LinuxAio.mem_store (buffer s) (Z.to_nat (aio_buf cb)) data), Z.of_nat (length data))
  else
    let data := take (Z.to_nat (aio_nbytes cb)) (drop (Z.to_nat (aio_buf cb)) (buffer s)) in
    (set_dst s (pwrite_file (dst s) data (Z.to_nat (aio_offset cb))), Z.of_nat (length data)).

(** The body of [for (size_t aio_i = 0U; aio_i < QUEUE_SIZE; ++aio_i)]. *)
Definition scan_slot (done : list nat) (aio_i : nat) : PM unit :=
  let! s := st_get in
  if negb (wait_list s !!! aio_i) then mret tt
  else if negb (bool_decide (aio_i ∈ done)) then mret tt
  else
    let '(s1, ret) := complete s aio_i in
    st_put s1 ;;
    let cb := aiocbs s1 !!! aio_i in
    if aio_lio_opcode cb =? LIO_READ then
      let bytes_read := ret in
      if negb (bytes_read =? 0) then
        aio_write_setup aio_i dst_fd (aio_offset cb) (Z.of_nat aio_i * READ_BLOCK_SIZE) bytes_read
      else
        paio_printf "ERROR: reach unavailible state" ;;
        st_exit EXIT_FAILURE
    else if aio_lio_opcode cb =? LIO_WRITE then
      let bytes_written := ret in
      if negb (bytes_written =? 0) && (src_off s1 <? rounded_size) then
        aio_read_setup aio_i src_fd (src_off s1) (Z.of_nat aio_i * READ_BLOCK_SIZE) READ_BLOCK_SIZE ;;
        st_modify (fun s => set_src_off s (src_off s + READ_BLOCK_SIZE))
      else
        st_modify (fun s => set_num_io_reqs (set_wait_list s (<[aio_i := false]> (wait_list s)))
                                            (size_t (num_io_reqs s - 1)))
    else mret tt.

Fixpoint scan_slots (done : list nat) (l : list nat) : PM unit :=
  match l with
  | [] => mret tt
  | i :: l' => scan_slot done i ;; scan_slots done l'
  end.

(** One iteration of [while (num_io_reqs != 0U)]. *)
Definition iteration (t : paio_tick) : PM unit :=
  if negb (pt_suspend t) then
    paio_printf "Unable to suspend-wait for AIOs" ;;
    st_exit EXIT_FAILURE
  else scan_slots (pt_done t) (seq 0 QUEUE_SIZE).

(** [true]: the loop ended; [false]: still running when the ticks run out. *)
Fixpoint copy_loop (ts : list paio_tick) : PM bool :=
  let! s := st_get in
  if num_io_reqs s =? 0 then mret true
  else match ts with
       | [] => mret false
       | t :: ts' => iteration t ;; copy_loop ts'
       end.

(** The loop that starts the first reads. *)
Fixpoint initial_reads (aio_i : nat) (fuel : nat) : PM unit :=
  match fuel with
  | O => mret tt
  | S fuel' =>
      let! s := st_get in
      if src_off s <? rounded_size then
        aio_read_setup aio_i src_fd (src_off s) (Z.of_nat aio_i * READ_BLOCK_SIZE) READ_BLOCK_SIZE ;;
        st_modify (fun s => set_num_io_reqs
                              (set_src_off (set_wait_list s (<[aio_i := true]> (wait_list s)))
                                 (src_off s + READ_BLOCK_SIZE))
                              (num_io_reqs s + 1)) ;;
        initial_reads (S aio_i) fuel'
      else mret tt
  end.

(** [calloc] of the control blocks, the NULL [wait_list]. *)
Definition paio_init (dst0 buffer0 : list Z) : paio_state :=
  mkPaio (replicate QUEUE_SIZE aiocb_zero) (replicate QUEUE_SIZE false) 0 0 0 buffer0 dst0 [].

(** [main] from the rounding of [src_size] to the end of the loop. *)
Definition copy (dst0 buffer0 : list Z) (ts : list paio_tick) : exec paio_state bool :=
  (initial_reads 0 QUEUE_SIZE ;; copy_loop ts) (paio_init dst0 buffer0).

End Copy.

(** ** Invariant of the copy loop *)

Section PInv.
Variables (src : list Z) (src_size : Z).

(** The destination holds the source's bytes of the block at [o]. *)
Definition pblock_done (d : list Z) (o : Z) : Prop :=
  forall i : nat, (Z.to_nat o <= i < Z.to_nat o + 4096)%nat -> (i < length src)%nat ->
    d !! i = src !! i.

(** The request of an active slot: a read of a block, or the write of a
    block the buffer holds. *)
Definition pslot_ok (s : paio_state) (i : nat) : Prop :=
  let cb := aiocbs s !!! i in
  aio_buf cb = 4096 * Z.of_nat i /\
  0 <= aio_offset cb /\ aio_offset cb mod 4096 = 0 /\ aio_offset cb < src_off s /\
  ((aio_lio_opcode cb = LIO_READ /\ aio_nbytes cb = 4096) \/
   (aio_lio_opcode cb = LIO_WRITE /\
    aio_nbytes cb = Z.of_nat (length (LinuxAio.blk src (aio_offset cb))) /\ 0 < aio_nbytes cb /\
    take (Z.to_nat (aio_nbytes cb)) (drop (4096 * i) (buffer s)) = LinuxAio.blk src (aio_offset cb))).

Definition PInv (s : paio_state) : Prop :=
  length (aiocbs s) = 16%nat /\ length (wait_list s) = 16%nat /\
  length (buffer s) = Z.to_nat 65536 /\
  num_io_reqs s = Z.of_nat (length (List.filter id (wait_list s))) /\
  0 <= src_off s /\ src_off s mod 4096 = 0 /\ src_off s <= rounded_size src_size /\
  (src_off s < rounded_size src_size -> num_io_reqs s = 16) /\
  (forall i, wait_list s !! i = Some true -> pslot_ok s i) /\
  (forall o, 0 <= o < src_off s -> o mod 4096 = 0 ->
     pblock_done (dst s) o \/ exists i, wait_list s !! i = Some true /\ aio_offset (aiocbs s !!! i) = o) /\
  (Z.of_nat (length src) = rounded_size src_size - 4096 -> src_off s = rounded_size src_size ->
     exists i, wait_list s !! i = Some true /\ aio_lio_opcode (aiocbs s !!! i) = LIO_READ /\
       aio_offset (aiocbs s !!! i) = rounded_size src_size - 4096).

Definition PSafe (dst0 : list Z) (s : paio_state) : Prop :=
  length (dst s) = length dst0 /\
  forall i, dst s !! i = dst0 !! i \/ dst s !! i = src !! i.

End PInv.

End PosixAio.

(* ------------------------------------------------------------------ *)
(** ** Facts about the byte images *)

Example send_size_full :
  server_send_file_size (mkServer (repeat 7 2500) 3) (mkConn 5 42 SEND_FILE_SIZE)
    (mkWrite 8 0)
  = (true, mkConn 5 0 SEND_DATA_BLOCK, [0; 0; 0; 0; 0; 0; 9; 196]).
Proof. vm_compute. reflexivity. Qed.



Lemma le_store_length w x : length (le_store w x) = w.
Proof. revert x; induction w as [|w IH]; intros x; simpl; auto. Qed.

Lemma le_store_bytes w x : Forall is_byte (le_store w x).
Proof.
  revert x; induction w as [|w IH]; intros x; simpl; constructor; auto.
  unfold is_byte. pose proof (Z.mod_pos_bound x 256). lia.
Qed.

Lemma le_load_store w x :
  0 <= x -> le_load (le_store w x) = x mod 256 ^ Z.of_nat w.
Proof.
  revert x; induction w as [|w IH]; intros x Hx; simpl.
  - rewrite Z.mod_1_r. reflexivity.
  - rewrite IH by (apply Z.div_pos; lia).
    rewrite Nat2Z.inj_succ, Z.pow_succ_r by lia.
    rewrite Z.rem_mul_r by lia. lia.
Qed.

Lemma le_load_nonneg bs : Forall is_byte bs -> 0 <= le_load bs.
Proof.
  induction 1 as [|b bs Hb _ IH]; simpl; [lia|]. unfold is_byte in Hb. lia.
Qed.

Lemma le_store_load bs :
  Forall is_byte bs -> le_store (length bs) (le_load bs) = bs.
Proof.
  induction 1 as [|b bs Hb Hbs IH]; simpl; auto.
  unfold is_byte in Hb. pose proof (le_load_nonneg bs Hbs) as Hl.
  replace (b + 256 * le_load bs) with (b + le_load bs * 256) by ring.
  f_equal.
  - rewrite Z_mod_plus_full. apply Z.mod_small. lia.
  - rewrite Z_div_plus_full by lia.
    rewrite Z.div_small by lia. simpl. exact IH.
Qed.

(** The big-endian wire image of the file size that the server writes:
    the memory image of [htobe64(size)] is the size, most significant byte
    first. *)
Lemma htobe64_image x :
  le_store 8 (htobe64 x) = rev (le_store 8 x).
Proof.
  unfold htobe64.
  assert (Hb : Forall is_byte (rev (le_store 8 x))).
  { apply Forall_rev. apply le_store_bytes. }
  pose proof (le_store_load _ Hb) as E.
  rewrite length_rev, le_store_length in E. exact E.
Qed.

(** The byte swap is an involution on 64-bit values. *)
Lemma htobe64_htobe64 x :
  0 <= x < 2 ^ 64 -> htobe64 (htobe64 x) = x.
Proof.
  intros Hx. unfold htobe64 at 1. rewrite htobe64_image, rev_involutive.
  rewrite le_load_store by lia. apply Z.mod_small. simpl. lia.
Qed.

(** Case analysis on every [if] of a goal, keeping the equations. *)
Ltac case_ifs :=
  repeat match goal with
  | |- context [if ?c then _ else _] =>
      let E := fresh "E" in destruct c eqn:E
  end.

Ltac bool_facts :=
  repeat match goal with
  | H : (_ =? _) = true |- _ => apply Z.eqb_eq in H
  | H : (_ =? _) = false |- _ => apply Z.eqb_neq in H
  | H : (_ <? _) = true |- _ => apply Z.ltb_lt in H
  | H : (_ <? _) = false |- _ => apply Z.ltb_ge in H
  | H : (_ || _)%bool = true |- _ => apply orb_true_iff in H
  | H : (_ || _)%bool = false |- _ => apply orb_false_iff in H
  | H : (_ && _)%bool = true |- _ => apply andb_true_iff in H
  | H : (_ && _)%bool = false |- _ => apply andb_false_iff in H
  | H : negb _ = true |- _ => apply negb_true_iff in H
  | H : negb _ = false |- _ => apply negb_false_iff in H
  | H : _ /\ _ |- _ => destruct H
  end.

Example client_roundtrip_2500 :
  let srv := mkServer (map (fun i => Z.of_nat i mod 251) (seq 0 2500)) 3 in
  client_main (wire_bytes (conn_run srv (mkConn 4 0 SEND_FILE_SIZE) (full_events 10)))
    (fun k => 700) ample_fs
  = ClientExit 0 (src_file srv).
Proof. vm_compute. reflexivity. Qed.

(* ------------------------------------------------------------------ *)
(** ** Facts about one protocol step *)

Lemma size_t_small z : 0 <= z < 2 ^ 64 -> size_t z = z.
Proof. intros H. unfold size_t. apply Z.mod_small. exact H. Qed.

Lemma size_t_minus_one : size_t (-1) = 2 ^ 64 - 1.
Proof. reflexivity. Qed.

Lemma pread_block_length (file : list Z) off :
  0 <= off ->
  Z.of_nat (length (take (Z.to_nat TRANSFER_BLOCK_SIZE) (drop (Z.to_nat off) file)))
  = Z.min TRANSFER_BLOCK_SIZE (Z.max 0 (Z.of_nat (length file) - off)).
Proof.
  intros Hoff. rewrite length_take, length_drop. unfold TRANSFER_BLOCK_SIZE. lia.
Qed.

(** A [SEND_DATA_BLOCK] step from an offset within the file keeps the
    descriptor, and either succeeds and strictly advances the offset
    within the file, or fails or completes with the offset within the
    file and the connection finished. *)
Lemma send_file_block_bounds srv c rd o b c' sent :
  0 <= src_file_offset c <= src_file_size srv ->
  src_file_size srv < 2 ^ 64 ->
  server_send_file_block srv c rd o = (b, c', sent) ->
  client_sock_fd c' = client_sock_fd c /\
  ((b = true /\ state c' = state c /\
    src_file_offset c < src_file_offset c' <= src_file_size srv) \/
   (b = false /\ state c' = TRANSFER_FINISHED /\
    0 <= src_file_offset c' <= src_file_size srv)).
Proof.
  intros Hoff Hsz Hstep. unfold server_send_file_block, pread_sys in Hstep.
  destruct rd.
  - cbn in Hstep. inversion Hstep; subst. simpl. auto.
  - pose proof (pread_block_length (src_file srv) (src_file_offset c) ltac:(lia)) as Hl.
    unfold src_file_size in *.
    set (blk := take (Z.to_nat TRANSFER_BLOCK_SIZE) (drop (Z.to_nat (src_file_offset c)) (src_file srv))) in *.
    rewrite (size_t_small (Z.of_nat (length blk))) in Hstep
      by (unfold TRANSFER_BLOCK_SIZE in Hl; lia).
    rewrite size_t_minus_one in Hstep.
    unfold write_sys in Hstep.
    revert Hstep; case_ifs; intros Hstep; bool_facts;
      inversion Hstep; subst; clear Hstep; simpl; split; try reflexivity;
      try (right; repeat split; lia);
      unfold TRANSFER_BLOCK_SIZE in *.
    all: rewrite ?size_t_minus_one in *; try lia.
    all: rewrite (size_t_small (Z.min (wr_ret o) _)) in * by lia.
    all: rewrite size_t_small in * by lia.
    all: left; match goal with H : _ \/ _ |- _ => destruct H end;
      bool_facts; repeat split; lia.
Qed.

(** The three outcomes of [server_send_file_size], by what [write]
    returned and by [errno]. *)
Lemma send_file_size_cases srv c o b c' sent :
  server_send_file_size srv c o = (b, c', sent) ->
  (8 <= wr_ret o /\ b = true /\ c' = mkConn (client_sock_fd c) 0 SEND_DATA_BLOCK) \/
  (wr_ret o < 8 /\ wr_errno o = EAGAIN /\ b = true /\ c' = c) \/
  (wr_ret o < 8 /\ wr_errno o <> EAGAIN /\ b = false /\
   c' = set_state c TRANSFER_FINISHED).
Proof.
  unfold server_send_file_size, write_sys.
  rewrite le_store_length. simpl (Z.of_nat 8).
  case_ifs; intros Hstep; bool_facts; inversion Hstep; subst; clear Hstep.
  all: rewrite ?size_t_minus_one in *.
  all: try (rewrite size_t_small in * by lia).
  all: lia || (right; left; repeat split; lia) || (right; right; repeat split; lia)
       || (left; repeat split; lia).
Qed.


Lemma take_length_take {A} n (l : list A) : take (length (take n l)) l = take n l.
Proof.
  revert n; induction l as [|x l IH]; intros [|n]; simpl; auto. f_equal. apply IH.
Qed.

(** A [SEND_DATA_BLOCK] step whose [pread] succeeds and whose [write]
    accepts the whole block: the block read at the offset goes on the wire
    and the offset advances by its length; the step succeeds unless the
    offset reaches the file size, where the connection is finished. *)
Lemma send_file_block_ok srv c o b c' sent :
  0 <= src_file_offset c <= src_file_size srv ->
  src_file_size srv < 2 ^ 64 ->
  block_len srv c <= wr_ret o ->
  server_send_file_block srv c false o = (b, c', sent) ->
  sent = take (Z.to_nat (block_len srv c)) (drop (Z.to_nat (src_file_offset c)) (src_file srv)) /\
  client_sock_fd c' = client_sock_fd c /\
  src_file_offset c' = src_file_offset c + block_len srv c /\
  ((src_file_offset c + block_len srv c = src_file_size srv /\
    b = false /\ state c' = TRANSFER_FINISHED) \/
   (src_file_offset c + block_len srv c < src_file_size srv /\
    b = true /\ state c' = state c)).
Proof.
  intros Hoff Hsz Hw Hstep. unfold server_send_file_block, pread_sys in Hstep.
  pose proof (pread_block_length (src_file srv) (src_file_offset c) ltac:(lia)) as Hl.
  unfold block_len, src_file_size in *.
  set (blk := take (Z.to_nat TRANSFER_BLOCK_SIZE) (drop (Z.to_nat (src_file_offset c)) (src_file srv))) in *.
  unfold TRANSFER_BLOCK_SIZE in *.
  rewrite (size_t_small (Z.of_nat (length blk))) in Hstep by lia.
  rewrite size_t_minus_one in Hstep.
  unfold write_sys in Hstep.
  rewrite (proj2 (Z.ltb_ge _ _)) in Hstep by lia.
  replace (Z.min (wr_ret o) (Z.of_nat (length blk))) with (Z.of_nat (length blk)) in Hstep by lia.
  rewrite (size_t_small (Z.of_nat (length blk))) in Hstep by lia.
  rewrite (size_t_small (src_file_offset c + _)) in Hstep by lia.
  rewrite Z.eqb_refl in Hstep.
  revert Hstep; case_ifs; intros Hstep; bool_facts;
    inversion Hstep; subst; clear Hstep; simpl; try lia.
  all: rewrite <- Hl, Nat2Z.id, firstn_all; subst blk; rewrite take_length_take.
  all: repeat split; try lia; first [left; repeat split; lia | right; repeat split; lia].
Qed.

(** A [SEND_DATA_BLOCK] step whose [pread] fails or whose [write] accepts
    less than the block finishes the connection, offset unchanged, and
    fails. *)
Lemma send_file_block_fail srv c rd o b c' sent :
  0 <= src_file_offset c <= src_file_size srv ->
  src_file_size srv < 2 ^ 64 ->
  rd = true \/ wr_ret o < block_len srv c ->
  server_send_file_block srv c rd o = (b, c', sent) ->
  b = false /\ c' = set_state c TRANSFER_FINISHED.
Proof.
  intros Hoff Hsz Hf Hstep. destruct rd.
  { unfold server_send_file_block, pread_sys in Hstep. cbn in Hstep.
    inversion Hstep; auto. }
  destruct Hf as [Hf|Hf]; [discriminate|].
  unfold server_send_file_block, pread_sys in Hstep.
  pose proof (pread_block_length (src_file srv) (src_file_offset c) ltac:(lia)) as Hl.
  unfold block_len, src_file_size in *.
  set (blk := take (Z.to_nat TRANSFER_BLOCK_SIZE) (drop (Z.to_nat (src_file_offset c)) (src_file srv))) in *.
  unfold TRANSFER_BLOCK_SIZE in *.
  rewrite (size_t_small (Z.of_nat (length blk))) in Hstep by lia.
  rewrite size_t_minus_one in Hstep.
  unfold write_sys in Hstep.
  revert Hstep; case_ifs; intros Hstep; bool_facts;
    inversion Hstep; subst; clear Hstep; auto.
  all: rewrite ?size_t_minus_one in *; try lia.
  all: rewrite (size_t_small (Z.min (wr_ret o) _)) in * by lia; lia.
Qed.

(* ------------------------------------------------------------------ *)
(** ** Facts about the run of one connection *)

Lemma data_offsets_nil srv : data_offsets srv [] = [].
Proof. reflexivity. Qed.

Lemma data_offsets_cons srv r tr :
  data_offsets srv (r :: tr) =
  (if TRANSFER_STATE_eqb (state (st_before r)) SEND_DATA_BLOCK && negb (step_failed srv r)
   then [src_file_offset (st_after r)] else []) ++ data_offsets srv tr.
Proof.
  unfold data_offsets. rewrite filter_cons.
  destruct (_ && _) eqn:E; destruct (decide _) as [Hd|Hd]; simpl; try reflexivity;
    cbn in Hd; tauto.
Qed.

Lemma block_len_pos srv c :
  src_file_offset c < src_file_size srv -> 0 < block_len srv c.
Proof. unfold block_len, TRANSFER_BLOCK_SIZE. lia. Qed.

Lemma block_len_bounds srv c : 0 <= block_len srv c <= TRANSFER_BLOCK_SIZE.
Proof. unfold block_len, TRANSFER_BLOCK_SIZE. lia. Qed.

(** The offsets a run reports after its data steps are strictly
    increasing, within the file, and past the offset it starts from. *)
Lemma run_offsets srv c evs :
  src_file_size srv < 2 ^ 64 -> conn_inv srv c ->
  StronglySorted Z.lt (data_offsets srv (conn_run srv c evs)) /\
  Forall (fun x => 0 <= x <= src_file_size srv /\
                   (state c = SEND_DATA_BLOCK -> src_file_offset c < src_file_size srv ->
                    src_file_offset c < x))
    (data_offsets srv (conn_run srv c evs)).
Proof.
  intros Hsz. revert c; induction evs as [|ev evs IH]; intros c Hinv.
  { cbn [conn_run]. rewrite data_offsets_nil. split; constructor. }
  destruct ev as [|rd o].
  { cbn [conn_run]. rewrite data_offsets_cons, data_offsets_nil.
    unfold step_failed; cbn [st_before st_event].
    destruct Hinv as [Hs|[Hs _]]; rewrite Hs; simpl; split; constructor. }
  cbn [conn_run]. unfold advance.
  destruct Hinv as [Hs|[Hs Hoff]]; rewrite Hs.
  - destruct (server_send_file_size srv c o) as [[b c'] sent] eqn:E.
    rewrite data_offsets_cons. cbn [st_before]. rewrite Hs. simpl (TRANSFER_STATE_eqb _ _).
    simpl (false && _). rewrite app_nil_l.
    apply send_file_size_cases in E.
    destruct E as [(_ & -> & ->)|[(_ & _ & -> & ->)|(_ & _ & -> & ->)]].
    + destruct (IH (mkConn (client_sock_fd c) 0 SEND_DATA_BLOCK)) as [H1 H2].
      { right. simpl. unfold src_file_size. split; [reflexivity | lia]. }
      split; [exact H1|]. apply (Forall_impl _ _ _ H2). simpl.
      intros x [Hx _]. split; [exact Hx|]. rewrite ?Hs; discriminate.
    + destruct (IH c) as [H1 H2]; [left; exact Hs|]. split; [exact H1|].
      apply (Forall_impl _ _ _ H2). simpl. intros x [Hx _].
      split; [exact Hx|]. rewrite ?Hs; discriminate.
    + rewrite data_offsets_nil. split; constructor.
  - destruct (server_send_file_block srv c rd o) as [[b c'] sent] eqn:E.
    rewrite data_offsets_cons. unfold step_failed. cbn [st_before st_event st_after].
    rewrite Hs. simpl (TRANSFER_STATE_eqb _ _).
    destruct (rd || (wr_ret o <? block_len srv c)) eqn:F.
    + apply orb_true_iff in F. destruct F as [F|F]; [|apply Z.ltb_lt in F];
        destruct (send_file_block_fail srv c rd o b c' sent Hoff Hsz ltac:(auto) E) as [-> _];
        simpl; rewrite data_offsets_nil; split; constructor.
    + apply orb_false_iff in F. destruct F as [-> F]. apply Z.ltb_ge in F.
      destruct (send_file_block_ok srv c o b c' sent Hoff Hsz F E)
        as (_ & _ & Hoff' & [(Hend & -> & _)|(Hlt & -> & Hst')]).
      * simpl. rewrite data_offsets_nil. split.
        { repeat constructor. }
        { repeat constructor; lia. }
      * simpl. destruct (IH c') as [H1 H2].
        { right. rewrite Hst', Hs. split; [reflexivity|].
          pose proof (block_len_bounds srv c). lia. }
        rewrite Hst', Hs in H2. rewrite Hoff' in H2.
        split.
        { constructor; [exact H1|]. apply (Forall_impl _ _ _ H2).
          simpl. intros x [_ Hx]. rewrite Hoff'. apply Hx; [reflexivity|lia]. }
        { constructor.
          - rewrite Hoff'. pose proof (block_len_bounds srv c).
            pose proof (block_len_pos srv c ltac:(lia)). split; [lia|]. intros _ _. lia.
          - apply (Forall_impl _ _ _ H2). simpl.
            intros x [Hx1 Hx2]. split; [exact Hx1|]. intros _ Hlt'.
            pose proof (block_len_pos srv c Hlt').
            specialize (Hx2 eq_refl Hlt). lia. }
Qed.

Lemma last_cons_some {A} (x r : A) l :
  last (x :: l) = Some r -> (l = [] /\ x = r) \/ last l = Some r.
Proof. destruct l; simpl; [intros H; injection H; auto | auto]. Qed.

(** When the last advance of a run leaves the connection finished and
    did not fail (no hang-up, no failing [pread], no short [write]), the
    offset it leaves is the file size. *)
Lemma run_last_offset srv c evs r :
  src_file_size srv < 2 ^ 64 -> conn_inv srv c ->
  last (conn_run srv c evs) = Some r ->
  state (st_after r) = TRANSFER_FINISHED ->
  step_failed srv r = false ->
  src_file_offset (st_after r) = src_file_size srv.
Proof.
  intros Hsz. revert c; induction evs as [|ev evs IH]; intros c Hinv Hlast Hfin Hok.
  { discriminate. }
  destruct ev as [|rd o].
  { cbn [conn_run] in Hlast. simpl in Hlast. injection Hlast as <-. discriminate. }
  cbn [conn_run] in Hlast. unfold advance in Hlast.
  destruct Hinv as [Hs|[Hs Hoff]]; rewrite Hs in Hlast.
  - destruct (server_send_file_size srv c o) as [[b c'] sent] eqn:E.
    pose proof (send_file_size_cases _ _ _ _ _ _ E) as Hc.
    apply last_cons_some in Hlast. destruct Hlast as [[_ <-]|Hlast].
    + unfold step_failed in Hok. simpl in Hok, Hfin. rewrite Hs in Hok.
      apply Z.ltb_ge in Hok.
      destruct Hc as [(_ & _ & ->)|[(? & _)|(? & _)]]; [discriminate|lia|lia].
    + destruct b; [|discriminate].
      apply (IH c'); auto.
      destruct Hc as [(_ & _ & ->)|[(_ & _ & _ & ->)|(_ & _ & ? & _)]]; try discriminate.
      { right. simpl. unfold src_file_size. split; [reflexivity|lia]. }
      { left. exact Hs. }
  - destruct (server_send_file_block srv c rd o) as [[b c'] sent] eqn:E.
    apply last_cons_some in Hlast. destruct Hlast as [[_ <-]|Hlast].
    + unfold step_failed in Hok. simpl in Hok, Hfin |- *. rewrite Hs in Hok.
      apply orb_false_iff in Hok. destruct Hok as [-> Hw]. apply Z.ltb_ge in Hw.
      destruct (send_file_block_ok srv c o b c' sent Hoff Hsz Hw E)
        as (_ & _ & Hoff' & [(Hend & _)|(_ & _ & Hst)]); [lia|congruence].
    + destruct b; [|discriminate].
      apply (IH c'); auto.
      destruct (send_file_block_bounds srv c rd o true c' sent Hoff Hsz E)
        as [_ [(_ & Hst & Hb)|(? & _)]]; [|discriminate].
      right. split; [congruence|lia].
Qed.

(* ------------------------------------------------------------------ *)
(** ** The wire image of a complete transfer *)

Lemma data_blocks_cons r tr :
  data_blocks (r :: tr) =
  (if TRANSFER_STATE_eqb (state (st_before r)) SEND_DATA_BLOCK then [st_sent r] else [])
  ++ data_blocks tr.
Proof.
  unfold data_blocks. rewrite filter_cons.
  destruct (TRANSFER_STATE_eqb _ _) eqn:E; destruct (decide _) as [Hd|Hd]; simpl;
    try reflexivity; cbn in Hd; tauto.
Qed.

Lemma data_blocks_all tr :
  Forall (fun r => state (st_before r) = SEND_DATA_BLOCK) tr ->
  data_blocks tr = map st_sent tr.
Proof.
  induction 1 as [|r tr Hr _ IH]; [reflexivity|].
  rewrite data_blocks_cons, Hr. simpl. f_equal. exact IH.
Qed.

Lemma full_events_S n : full_events (S n) = EvOut false full_write :: full_events n.
Proof. reflexivity. Qed.

(** The data phase of a transfer in which every [pread] succeeds and
    every [write] accepts the whole block: from an offset within the file
    and with enough writability events, the blocks put on the wire are
    the rest of the file, all full except the last. *)
Lemma data_phase_full srv c n :
  src_file_size srv < 2 ^ 64 ->
  state c = SEND_DATA_BLOCK ->
  0 <= src_file_offset c <= src_file_size srv ->
  1 + (src_file_size srv - src_file_offset c) / TRANSFER_BLOCK_SIZE <= Z.of_nat n ->
  Forall (fun r => state (st_before r) = SEND_DATA_BLOCK) (conn_run srv c (full_events n)) /\
  concat (map st_sent (conn_run srv c (full_events n)))
    = drop (Z.to_nat (src_file_offset c)) (src_file srv) /\
  exists full lastb,
    map st_sent (conn_run srv c (full_events n)) = full ++ [lastb] /\
    Forall (fun b => length b = Z.to_nat TRANSFER_BLOCK_SIZE) full /\
    (length lastb <= Z.to_nat TRANSFER_BLOCK_SIZE)%nat.
Proof.
  intros Hsz. revert c; induction n as [|n IH]; intros c Hs Hoff Hn.
  { exfalso. assert (0 <= (src_file_size srv - src_file_offset c) / TRANSFER_BLOCK_SIZE)
      by (apply Z.div_pos; unfold TRANSFER_BLOCK_SIZE; lia). lia. }
  rewrite full_events_S. cbn [conn_run]. unfold advance. rewrite Hs.
  destruct (server_send_file_block srv c false full_write) as [[b c'] sent] eqn:E.
  pose proof (block_len_bounds srv c) as Hbl.
  destruct (send_file_block_ok srv c full_write b c' sent Hoff Hsz ltac:(simpl; lia) E)
    as (Hsent & _ & Hoff' & [(Hend & -> & _)|(Hlt & -> & Hst')]).
  - simpl. split; [constructor; [exact Hs | constructor]|]. split.
    + rewrite app_nil_r, Hsent. apply take_ge.
      rewrite length_drop. unfold src_file_size in Hend. lia.
    + exists [], sent. split; [reflexivity|]. split; [constructor|].
      rewrite Hsent, length_take. lia.
  - assert (Hfull : block_len srv c = TRANSFER_BLOCK_SIZE)
      by (unfold block_len, TRANSFER_BLOCK_SIZE in *; lia).
    rewrite Hfull in Hoff', Hlt, Hsent.
    assert (Hdiv : (src_file_size srv - src_file_offset c') / TRANSFER_BLOCK_SIZE
                   = (src_file_size srv - src_file_offset c) / TRANSFER_BLOCK_SIZE - 1).
    { rewrite Hoff'. unfold TRANSFER_BLOCK_SIZE.
      replace (src_file_size srv - (src_file_offset c + 1024))
        with ((src_file_size srv - src_file_offset c) + (-1) * 1024) by ring.
      rewrite Z_div_plus_full by lia. lia. }
    destruct (IH c') as (Hall & Hcat & full & lastb & Hbl' & Hf & Hl).
    { rewrite Hst'. exact Hs. }
    { rewrite Hoff'. unfold TRANSFER_BLOCK_SIZE in *. lia. }
    { rewrite Hdiv. lia. }
    simpl. split; [constructor; [exact Hs | exact Hall]|]. split.
    + rewrite Hcat, Hsent, Hoff'. unfold TRANSFER_BLOCK_SIZE.
      rewrite Z2Nat.inj_add by lia. rewrite <- drop_drop. apply take_drop.
    + exists (sent :: full), lastb. rewrite Hbl'. split; [reflexivity|].
      split; [|exact Hl]. constructor; [|exact Hf].
      rewrite Hsent, length_take, length_drop. unfold src_file_size, TRANSFER_BLOCK_SIZE in *. lia.
Qed.

(** The first advance of a transfer with a complete [write]: the eight
    bytes of the size, most significant first. *)
Lemma send_file_size_full srv c :
  src_file_size srv < 2 ^ 64 ->
  server_send_file_size srv c full_write
  = (true, mkConn (client_sock_fd c) 0 SEND_DATA_BLOCK, rev (le_store 8 (src_file_size srv))).
Proof.
  intros Hsz. unfold src_file_size in Hsz.
  unfold server_send_file_size, write_sys, full_write, TRANSFER_BLOCK_SIZE.
  rewrite (size_t_small (src_file_size srv)) by (unfold src_file_size; lia).
  rewrite le_store_length.
  change (1024 <? 0) with false. change (Z.min 1024 (Z.of_nat 8)) with 8.
  cbv iota beta. change (negb (size_t 8 =? 8)) with false. cbv iota.
  rewrite firstn_all2 by (rewrite le_store_length; simpl; lia).
  rewrite htobe64_image. reflexivity.
Qed.

(* ------------------------------------------------------------------ *)
(** ** The client on a complete stream *)

Lemma take_min_length {A} n (l : list A) : take n l = take (Nat.min n (length l)) l.
Proof.
  revert n; induction l as [|x l IH]; intros [|n]; simpl; auto. f_equal. apply IH.
Qed.

(** One [client_recv_file_block] in the middle of the file: whatever
    [recv] returns, a nonempty prefix of the rest of the file lands at the
    current offset of the preallocated destination. *)
Lemma client_block_step (file dst : list Z) (off : nat) cap :
  (off < length file)%nat ->
  Z.of_nat (length file) < 2 ^ 64 ->
  dst = take off file ++ replicate (length file - off) 0 ->
  exists m, (0 < m)%nat /\ (off + m <= length file)%nat /\
    client_recv_file_block (mkClient dst (Z.of_nat (length file)) (Z.of_nat off))
      (drop off file) cap
    = (true, mkClient (take (off + m) file ++ replicate (length file - (off + m)) 0)
               (Z.of_nat (length file)) (Z.of_nat (off + m)),
       drop (off + m) file).
Proof.
  intros Hoff Hsz Hdst. unfold client_recv_file_block.
  set (n := match drop off file with [] => 0 | _ => Z.max 1 (Z.min cap TRANSFER_BLOCK_SIZE) end).
  assert (Hn : n = Z.max 1 (Z.min cap TRANSFER_BLOCK_SIZE)).
  { subst n. destruct (drop off file) eqn:Ed; [|reflexivity].
    apply (f_equal length) in Ed. rewrite length_drop in Ed. simpl in Ed. lia. }
  clearbody n. subst n.
  set (k := Z.to_nat (Z.max 1 (Z.min cap TRANSFER_BLOCK_SIZE))).
  assert (Hk : (1 <= k)%nat) by (subst k; lia).
  exists (Nat.min k (length file - off)).
  split; [lia|]. split; [lia|].
  set (m := Nat.min k (length file - off)).
  assert (Hlen : length (take k (drop off file)) = m)
    by (rewrite length_take, length_drop; reflexivity).
  rewrite Hlen. rewrite (size_t_small (Z.of_nat m)) by lia.
  rewrite (proj2 (Z.eqb_neq _ _)) by lia. simpl (false && _). cbv iota.
  cbn [dst_file dst_file_size dst_file_offset].
  rewrite size_t_small by lia.
  assert (Hblk : take k (drop off file) = take m (drop off file)).
  { rewrite take_min_length, length_drop. reflexivity. }
  assert (Hrest : drop k (drop off file) = drop (off + m) file).
  { rewrite drop_drop. destruct (Nat.le_gt_cases k (length file - off)).
    - f_equal. lia.
    - rewrite !drop_ge by lia. reflexivity. }
  rewrite Hrest, Hblk. f_equal. f_equal. f_equal; try lia.
  unfold pwrite_file. rewrite Nat2Z.id, Hdst.
  rewrite length_app, length_take, length_replicate.
  replace (off - (Nat.min off (length file) + (length file - off)))%nat with 0%nat by lia.
  rewrite take_app_length' by (rewrite length_take; lia).
  rewrite drop_app_ge by (rewrite length_take; lia).
  rewrite length_take, drop_replicate. simpl.
  rewrite app_assoc, take_take_drop, ?length_take, ?length_drop. f_equal. f_equal. lia.
Qed.

(** The receive loop of the client on the rest of the file, with the
    destination preallocated and filled up to the offset. *)
Lemma client_loop_ok (file : list Z) caps fuel k (off : nat) dst :
  Z.of_nat (length file) < 2 ^ 64 ->
  (off <= length file)%nat ->
  (length file - off <= fuel)%nat ->
  dst = take off file ++ replicate (length file - off) 0 ->
  client_recv_loop fuel caps k (mkClient dst (Z.of_nat (length file)) (Z.of_nat off))
    (drop off file)
  = Some (mkClient file (Z.of_nat (length file)) (Z.of_nat (length file))).
Proof.
  intros Hsz. revert k off dst; induction fuel as [|fuel IH]; intros k off dst Hoff Hfuel Hdst.
  - assert (off = length file) by lia. subst off dst.
    simpl. rewrite Z.eqb_refl, take_ge, Nat.sub_diag, app_nil_r by lia. reflexivity.
  - destruct (Nat.eq_dec off (length file)) as [->|Hne].
    + simpl. rewrite Z.eqb_refl. subst dst.
      rewrite take_ge, Nat.sub_diag, app_nil_r by lia. reflexivity.
    + cbn [client_recv_loop]. cbn [dst_file_offset dst_file_size].
      rewrite (proj2 (Z.eqb_neq _ _)) by lia.
      destruct (client_block_step file dst off (caps k) ltac:(lia) Hsz Hdst)
        as (m & Hm & Hm' & ->).
      apply IH; [lia|lia|reflexivity].
Qed.

(** A [size_t] length that [fallocate] accepts is positive. *)
Lemma fallocate_pos fs len :
  fallocate fs len = true -> 0 < len.
Proof.
  unfold fallocate, off_t_of_size_t. intros Hf.
  apply andb_true_iff in Hf as [Hf _]. apply Z.ltb_lt in Hf.
  destruct (len <? 2 ^ 63); lia.
Qed.

(** The client's [main] on the stream a complete transfer puts on the
    wire: the big-endian size, then the file. *)
Lemma client_main_ok (file : list Z) caps fs :
  Z.of_nat (length file) < 2 ^ 64 ->
  client_main (rev (le_store 8 (Z.of_nat (length file))) ++ file) caps fs
  = if dst_file_opens fs (Z.of_nat (length file)) then ClientExit EXIT_SUCCESS file
    else ClientExit EXIT_FAILURE [].
Proof.
  intros Hsz. unfold client_main, client_recv_file_size.
  assert (H8 : length (rev (le_store 8 (Z.of_nat (length file)))) = 8%nat)
    by (rewrite length_rev, le_store_length; reflexivity).
  rewrite take_app_length' by (symmetry; exact H8).
  rewrite drop_app_length' by (symmetry; exact H8).
  rewrite H8. change (size_t (Z.of_nat 8) =? 8) with true. cbv iota beta.
  change (le_load (rev (le_store 8 (Z.of_nat (length file)))))
    with (htobe64 (Z.of_nat (length file))).
  rewrite htobe64_htobe64 by lia.
  unfold client_open_dst_file, dst_file_opens. cbn [dst_file_size dst_file_offset dst_file negb].
  destruct (fs_open_ok fs); [|reflexivity]. cbn [negb andb].
  destruct (fallocate fs (Z.of_nat (length file))) eqn:Ef; [|reflexivity]. cbn [negb].
  pose proof (fallocate_pos fs _ Ef) as Hpos.
  pose proof (client_loop_ok file caps (S (length file)) 0 0%nat
                (replicate (Z.to_nat (Z.of_nat (length file))) 0) Hsz
                ltac:(lia) ltac:(lia)
                ltac:(rewrite Nat2Z.id; simpl; rewrite Nat.sub_0_r; reflexivity)) as Hl.
  rewrite Nat2Z.id in Hl. change (drop 0 file) with file in Hl.
  change (Z.of_nat 0) with 0 in Hl. rewrite Nat2Z.id, Hl.
  unfold client_close_dst_file. simpl. rewrite Nat2Z.id, take_ge, Nat.sub_diag, app_nil_r by lia.
  reflexivity.
Qed.

(* ------------------------------------------------------------------ *)
(** ** The two event loops *)

Lemma bind_Done {S A B} (m : ST S A) (k : A -> ST S B) s b s2 :
  st_bind m k s = Done b s2 -> exists a s1, m s = Done a s1 /\ k a s1 = Done b s2.
Proof. unfold st_bind. destruct (m s); [eauto | discriminate]. Qed.

Lemma seq_Done {A B} (m : M A) (k : M B) s b s2 :
  (m ;; k) s = Done b s2 -> exists a s1, m s = Done a s1 /\ k s1 = Done b s2.
Proof. exact (bind_Done m (fun _ => k) s b s2). Qed.

Lemma ret_Done {A} (a b : A) s s' : (mret a : M A) s = Done b s' -> a = b /\ s = s'.
Proof. intros H. injection H. auto. Qed.

Lemma exit_Done {A} c (b : A) s s' : (st_exit c : M A) s = Done b s' -> False.
Proof. discriminate. Qed.

Ltac run_inv H :=
  repeat match type of H with
  | st_bind _ _ _ = Done _ _ =>
      let a := fresh "a" in let s := fresh "s" in let H1 := fresh "Hr" in
      apply bind_Done in H; destruct H as (a & s & H1 & H); cbv beta in H
  | (_ ;; _) _ = Done _ _ =>
      let a := fresh "a" in let s := fresh "s" in let H1 := fresh "Hr" in
      apply seq_Done in H; destruct H as (a & s & H1 & H)
  end.


Ltac simp_st H := cbv [st_get st_put st_modify st_exit mret ST_ret st_bind mbind ST_bind printf
  sigint_arrives program_in_shutdown get_conn put_conn alter_conn increment_connected
  increment_active decrement_active server_close_conn_socket] in H.

Lemma alter_as_insert {A} (f : A -> A) (l : list A) i x :
  l !! i = Some x -> alter f i l = <[i := f x]> l.
Proof.
  revert i. induction l as [|y l IH]; intros [|i] Hi; simpl in *; try discriminate.
  - injection Hi as ->. reflexivity.
  - f_equal. apply IH; auto.
Qed.

Lemma count_live_insert l i c c' :
  l !! i = Some c ->
  Z.of_nat (count_live (<[i := c']> l)) =
  Z.of_nat (count_live l) - (if is_live c then 1 else 0) + (if is_live c' then 1 else 0).
Proof.
  revert i. induction l as [|y l IH]; intros [|i] Hi; simpl in *; try discriminate.
  - injection Hi as ->. destruct (is_live c), (is_live c'); lia.
  - rewrite !Nat2Z.inj_add, (IH i Hi). lia.
Qed.

Lemma count_live_le l k :
  (forall i c, l !! i = Some c -> is_live c = true -> i < k)%nat ->
  (count_live l <= k)%nat.
Proof.
  revert k. induction l as [|c l IH]; intros k Hk; simpl; [lia|].
  destruct (is_live c) eqn:E.
  - assert (0 < k)%nat by (apply (Hk 0%nat c); auto).
    assert (count_live l <= k - 1)%nat; [|lia].
    apply IH. intros i c' Hi Hl. specialize (Hk (S i) c' Hi Hl). lia.
  - apply IH. intros i c' Hi Hl. specialize (Hk (S i) c' Hi Hl). lia.
Qed.

Lemma count_live_replicate n : count_live (replicate n empty_conn) = O.
Proof. induction n; simpl; auto. Qed.

Lemma registered_false fd l :
  EpollServer.registered fd l = false -> fd ∉ map reg_fd l.
Proof.
  unfold EpollServer.registered. induction l as [|r l IH]; simpl; intros H.
  - apply not_elem_of_nil.
  - apply orb_false_iff in H as [H1 H2]. apply Z.eqb_neq in H1.
    rewrite elem_of_cons. intros [->|Hin]; [lia|]. exact (IH H2 Hin).
Qed.

Lemma registered_true fd l :
  EpollServer.registered fd l = true -> exists r, r ∈ l /\ reg_fd r = fd.
Proof.
  unfold EpollServer.registered. intros H. apply existsb_exists in H as (r & Hin & Hr).
  apply Z.eqb_eq in Hr. exists r. split; auto. now apply list_elem_of_In.
Qed.

Lemma advance_live srv c rd o :
  is_live c = true -> exists b c' sent, advance srv c rd o = Some (b, c', sent).
Proof.
  unfold is_live, advance. destruct (state c); try discriminate; intros _; eauto.
  - destruct (server_send_file_size srv c o) as [[b c'] sent]; eauto.
  - destruct (server_send_file_block srv c rd o) as [[b c'] sent]; eauto.
Qed.

Lemma advance_result srv c rd o b c' sent :
  is_live c = true -> advance srv c rd o = Some (b, c', sent) ->
  client_sock_fd c' = client_sock_fd c /\ is_live c' = b /\
  (b = false -> state c' = TRANSFER_FINISHED).
Proof.
  unfold is_live, advance. intros Hl Hadv.
  destruct (state c) eqn:Hst; try discriminate; injection Hadv as Hadv.
  - apply send_file_size_cases in Hadv.
    destruct Hadv as [(_ & -> & ->)|[(_ & _ & -> & ->)|(_ & _ & -> & ->)]];
      simpl; rewrite ?Hst; repeat split; auto; discriminate.
  - unfold server_send_file_block in Hadv.
    destruct (pread_sys _ _ _ _) as [rret blk].
    destruct (write_sys _ _) as [[wret e] s'].
    revert Hadv; case_ifs; intros Hadv; inversion Hadv; subst; clear Hadv;
      simpl; rewrite ?Hst; repeat split; auto; discriminate.
Qed.

Lemma slot_free N s :
  slots_ok N s -> num_connected_clients s < N ->
  conns s !! Z.to_nat (num_connected_clients s) = Some empty_conn.
Proof.
  intros (Hlen & Hc & Hsl & _) Hlt.
  destruct (lookup_lt_is_Some_2 (conns s) (Z.to_nat (num_connected_clients s))) as [c Hc'].
  - rewrite Hlen. lia.
  - rewrite Hc'. f_equal. apply (proj2 (Hsl _ _ Hc')). lia.
Qed.

Lemma active_le_connected N s :
  slots_ok N s -> 0 <= num_active_clients s <= num_connected_clients s.
Proof.
  intros (Hlen & Hc & Hsl & Ha). rewrite Ha. split; [lia|].
  assert (count_live (conns s) <= Z.to_nat (num_connected_clients s))%nat; [|lia].
  apply count_live_le. intros i c Hi Hl.
  destruct (Z_lt_le_dec (Z.of_nat i) (num_connected_clients s)); [lia|].
  rewrite (proj2 (Hsl _ _ Hi) l) in Hl. discriminate.
Qed.

Lemma slots_ok_set N s i c c' act' conn' sig out prev intr pfds :
  slots_ok N s -> conns s !! i = Some c ->
  Z.of_nat i < num_connected_clients s -> state c' <> CONNECTION_EMPTY ->
  act' = num_active_clients s - (if is_live c then 1 else 0) + (if is_live c' then 1 else 0) ->
  conn' = num_connected_clients s ->
  slots_ok N (mkState (<[i := c']> (conns s)) act' conn' sig out prev intr pfds).
Proof.
  intros (Hlen & Hc & Hsl & Ha) Hi Hlt Hne -> ->.
  unfold slots_ok; simpl. rewrite length_insert.
  refine (conj Hlen (conj Hc (conj _ _))).
  - intros j d Hj. destruct (decide (i = j)) as [<-|Hij].
    + rewrite list_lookup_insert_eq in Hj by (eapply lookup_lt_Some; eauto).
      injection Hj as <-. split; auto. lia.
    + rewrite list_lookup_insert_ne in Hj by auto. exact (Hsl _ _ Hj).
  - rewrite (count_live_insert _ _ c c' Hi), Ha. reflexivity.
Qed.

Lemma slots_ok_accept N s c' sig out prev intr pfds :
  slots_ok N s -> num_connected_clients s < N -> state c' <> CONNECTION_EMPTY ->
  slots_ok N (mkState (<[Z.to_nat (num_connected_clients s) := c']> (conns s))
     (num_active_clients s + (if is_live c' then 1 else 0))
     (num_connected_clients s + 1) sig out prev intr pfds).
Proof.
  intros Hs Hlt Hne. pose proof (slot_free N s Hs Hlt) as Hk.
  destruct Hs as (Hlen & Hc & Hsl & Ha).
  unfold slots_ok; simpl. rewrite length_insert.
  split; [exact Hlen|split; [lia|split]].
  - intros j d Hj. destruct (decide (Z.to_nat (num_connected_clients s) = j)) as [<-|Hij].
    + rewrite list_lookup_insert_eq in Hj by (eapply lookup_lt_Some; eauto).
      injection Hj as <-. split; auto. rewrite Z2Nat.id by lia. lia.
    + rewrite list_lookup_insert_ne in Hj by auto.
      assert (Z.of_nat j <> num_connected_clients s) by (intros Heq; apply Hij; rewrite <- Heq, Nat2Z.id; reflexivity).
      split; intros; [apply (proj1 (Hsl _ _ Hj))|apply (proj2 (Hsl _ _ Hj))]; lia.
  - rewrite (count_live_insert _ _ _ c' Hk), Ha. simpl. lia.
Qed.

Lemma alter_alter_insert {A} (f g : A -> A) (l : list A) i x :
  l !! i = Some x -> alter f i (alter g i l) = <[i := f (g x)]> l.
Proof.
  revert i. induction l as [|y l IH]; intros [|i] Hi; simpl in *; try discriminate.
  - injection Hi as ->. reflexivity.
  - f_equal. apply IH; auto.
Qed.

Lemma NoDup_map_filter {A B} (f : A -> B) (P : A -> bool) (l : list A) :
  NoDup (map f l) -> NoDup (map f (filter P l)).
Proof.
  induction l as [|x l IH]; simpl; intros Hnd; [constructor|].
  apply NoDup_cons in Hnd as [Hx Hnd]. rewrite filter_cons.
  destruct (decide (P x)); simpl; auto.
  constructor; auto. intros Hin. apply Hx.
  apply list_elem_of_fmap in Hin as (y & -> & Hy). apply list_elem_of_fmap.
  exists y. split; auto. apply list_elem_of_filter in Hy. tauto.
Qed.

Lemma NoDup_map_inj {A B} (f : A -> B) (l : list A) x y :
  NoDup (map f l) -> x ∈ l -> y ∈ l -> f x = f y -> x = y.
Proof.
  induction l as [|z l IH]; simpl; intros Hnd Hx Hy Hf.
  - apply not_elem_of_nil in Hx. contradiction.
  - apply NoDup_cons in Hnd as [Hz Hnd]. apply elem_of_cons in Hx, Hy.
    destruct Hx as [->|Hx], Hy as [->|Hy]; auto.
    + exfalso. apply Hz. rewrite Hf. apply list_elem_of_fmap. eauto.
    + exfalso. apply Hz. rewrite <- Hf. apply list_elem_of_fmap. eauto.
Qed.

Lemma epoll_slot_reg_inj i j c d :
  epoll_slot_reg i c = epoll_slot_reg j d -> i = j.
Proof. unfold epoll_slot_reg. intros H. injection H. lia. Qed.

Lemma epoll_interest_add srv s k c0 c' a n sig out pfds :
  epoll_interest_ok srv s -> conns s !! k = Some c0 -> is_live c0 = false ->
  is_live c' = true -> client_sock_fd c' ∉ map reg_fd (interest s) ->
  epoll_interest_ok srv (mkState (<[k := c']> (conns s)) a n sig out
     (accept_new_connections_prev s) (interest s ++ [epoll_slot_reg k c']) pfds).
Proof.
  intros [Hnd Hiff] Hk Hl0 Hl' Hfd. unfold epoll_interest_ok; simpl. split.
  - rewrite map_app. apply NoDup_app. split; [exact Hnd|split].
    + intros x Hx Hx'. simpl in Hx'. apply list_elem_of_singleton in Hx'. subst x. tauto.
    + simpl. apply NoDup_singleton.
  - intros r. rewrite elem_of_app, list_elem_of_singleton, Hiff. split.
    + intros [[Hl|(i & c & Hi & Hc & ->)]| ->]; [tauto| |].
      * right. exists i, c. destruct (decide (k = i)) as [<-|Hki].
        -- congruence.
        -- rewrite list_lookup_insert_ne by auto. auto.
      * right. exists k, c'. rewrite list_lookup_insert_eq by (eapply lookup_lt_Some; eauto). auto.
    + intros [Hl|(i & c & Hi & Hc & ->)]; [tauto|].
      destruct (decide (k = i)) as [<-|Hki].
      * rewrite list_lookup_insert_eq in Hi by (eapply lookup_lt_Some; eauto).
        injection Hi as <-. right. reflexivity.
      * rewrite list_lookup_insert_ne in Hi by auto. left. right. eauto.
Qed.

Lemma epoll_interest_remove srv s i c c' a n sig out pfds :
  epoll_interest_ok srv s -> conns s !! i = Some c -> is_live c = true -> is_live c' = false ->
  epoll_interest_ok srv (mkState (<[i := c']> (conns s)) a n sig out
     (accept_new_connections_prev s)
     (filter (fun r => negb (reg_fd r =? client_sock_fd c)) (interest s)) pfds).
Proof.
  intros [Hnd Hiff] Hi Hl Hl'. unfold epoll_interest_ok; simpl. split.
  - apply NoDup_map_filter. exact Hnd.
  - assert (Hin : epoll_slot_reg i c ∈ interest s) by (apply Hiff; right; eauto).
    intros r. rewrite list_elem_of_filter. split.
    + intros [Hfd Hr]. apply Hiff in Hr as [Hr|(j & d & Hj & Hd & ->)]; [tauto|].
      right. exists j, d. destruct (decide (i = j)) as [<-|Hij].
      * rewrite Hi in Hj. injection Hj as <-. unfold epoll_slot_reg in Hfd. simpl in Hfd.
        rewrite Z.eqb_refl in Hfd. simpl in Hfd. contradiction.
      * rewrite list_lookup_insert_ne by auto. auto.
    + intros [[-> Hp]|(j & d & Hj & Hd & ->)].
      * assert (Hr : epoll_listen_reg srv ∈ interest s) by (apply Hiff; tauto).
        split; auto. apply Is_true_eq_left, negb_true_iff, Z.eqb_neq. intros He.
        pose proof (NoDup_map_inj _ _ _ _ Hnd Hr Hin He) as Heq.
        unfold epoll_listen_reg, epoll_slot_reg in Heq. injection Heq. lia.
      * destruct (decide (i = j)) as [<-|Hij].
        -- rewrite list_lookup_insert_eq in Hj by (eapply lookup_lt_Some; eauto).
           injection Hj as <-. congruence.
        -- rewrite list_lookup_insert_ne in Hj by auto.
           assert (Hr : epoll_slot_reg j d ∈ interest s) by (apply Hiff; right; eauto).
           split; auto. apply Is_true_eq_left, negb_true_iff, Z.eqb_neq. intros He.
           pose proof (NoDup_map_inj _ _ _ _ Hnd Hr Hin He) as Heq.
           apply epoll_slot_reg_inj in Heq. congruence.
Qed.

Lemma epoll_interest_set_live srv s i c c' a n sig out pfds :
  epoll_interest_ok srv s -> conns s !! i = Some c -> is_live c = true -> is_live c' = true ->
  client_sock_fd c' = client_sock_fd c ->
  epoll_interest_ok srv (mkState (<[i := c']> (conns s)) a n sig out
     (accept_new_connections_prev s) (interest s) pfds).
Proof.
  intros [Hnd Hiff] Hi Hl Hl' Hfd. unfold epoll_interest_ok; simpl. split; [exact Hnd|].
  intros r. rewrite Hiff. split.
  - intros [Hr|(j & d & Hj & Hd & ->)]; [tauto|right].
    destruct (decide (i = j)) as [<-|Hij].
    + exists i, c'. rewrite list_lookup_insert_eq by (eapply lookup_lt_Some; eauto).
      rewrite Hi in Hj. injection Hj as <-. unfold epoll_slot_reg. rewrite Hfd. auto.
    + exists j, d. rewrite list_lookup_insert_ne by auto. auto.
  - intros [Hr|(j & d & Hj & Hd & ->)]; [tauto|right].
    destruct (decide (i = j)) as [<-|Hij].
    + exists i, c. rewrite list_lookup_insert_eq in Hj by (eapply lookup_lt_Some; eauto).
      injection Hj as <-. unfold epoll_slot_reg. rewrite Hfd. auto.
    + exists j, d. rewrite list_lookup_insert_ne in Hj by auto. auto.
Qed.

Lemma epoll_interest_unlisten srv s a n sig out pfds :
  epoll_interest_ok srv s -> accept_new_connections_prev s = true ->
  epoll_interest_ok srv (mkState (conns s) a n sig out false
     (filter (fun r => negb (reg_fd r =? listen_sock_fd srv)) (interest s)) pfds).
Proof.
  intros [Hnd Hiff] Hp. unfold epoll_interest_ok; simpl. split.
  - apply NoDup_map_filter. exact Hnd.
  - assert (Hin : epoll_listen_reg srv ∈ interest s) by (apply Hiff; tauto).
    intros r. rewrite list_elem_of_filter. split.
    + intros [Hfd Hr]. apply Hiff in Hr as [[-> _]|Hr]; [|tauto].
      unfold epoll_listen_reg in Hfd. simpl in Hfd. rewrite Z.eqb_refl in Hfd. simpl in Hfd. contradiction.
    + intros [[_ Hf]|(j & d & Hj & Hd & ->)]; [discriminate|].
      assert (Hr : epoll_slot_reg j d ∈ interest s) by (apply Hiff; right; eauto).
      split; auto. apply Is_true_eq_left, negb_true_iff, Z.eqb_neq. intros He.
      pose proof (NoDup_map_inj _ _ _ _ Hnd Hr Hin He) as Heq.
      unfold epoll_listen_reg, epoll_slot_reg in Heq. injection Heq. lia.
Qed.

Lemma epoll_accept_ok N srv t s u s' :
  epoll_inv N srv s -> num_connected_clients s < N -> N < 2 ^ 64 ->
  EpollServer.accept_event t s = Done u s' ->
  epoll_inv N srv s' /\
  num_connected_clients s' = num_connected_clients s + 1 /\
  (forall j, j <> Z.to_nat (num_connected_clients s) -> conns s' !! j = conns s !! j) /\
  received_sigint s' = received_sigint s /\
  accept_new_connections_prev s' = accept_new_connections_prev s /\
  (quiet s -> quiet s').
Proof.
  intros Hinv Hlt HN H.
  pose proof (slot_free N s (proj1 Hinv) Hlt) as Hk.
  pose proof (active_le_connected N s (proj1 Hinv)) as Hact.
  destruct Hinv as (Hsl & Hint & Hadm).
  unfold EpollServer.accept_event, server_accept_connection_request,
    EpollServer.epoll_conn_wait_on_socket, EpollServer.epoll_ctl_add in H.
  simp_st H.
  destruct (t_accept t) as [fd|]; simpl in H.
  - destruct (t_sockopt t); simpl in H; [|discriminate].
    rewrite !list_lookup_alter_eq, Hk in H. simpl in H.
    destruct ((Z.of_N fd <? 0) || EpollServer.registered (Z.of_N fd) (interest s)
              || negb (t_ctl t (1 + num_connected_clients s))) eqn:E; simpl in H;
      [discriminate|].
    injection H as <- <-. bool_facts.
    rewrite (alter_alter_insert _ _ _ _ _ Hk). simpl.
    rewrite !size_t_small by lia.
    set (k := Z.to_nat (num_connected_clients s)).
    set (c' := {| client_sock_fd := Z.of_N fd; src_file_offset := 0; state := SEND_FILE_SIZE |}).
    assert (Hreg : {| reg_fd := Z.of_N fd; reg_tag := 1 + num_connected_clients s;
                      reg_events := Z.lor EpollServer.EPOLLOUT EpollServer.EPOLLHUP |}
                   = epoll_slot_reg k c')
      by (unfold epoll_slot_reg, k; simpl; rewrite Z2Nat.id by lia; reflexivity).
    rewrite Hreg. split; [split; [|split]|].
    + pose proof (slots_ok_accept N s c' (received_sigint s)
        ((stdout s ++ ["Wait for client to connect"]) ++ ["Client connected"])
        (accept_new_connections_prev s) (interest s ++ [epoll_slot_reg k c']) (pollfds s)
        Hsl Hlt ltac:(discriminate)) as Hs. exact Hs.
    + apply (epoll_interest_add srv s k empty_conn c'); auto.
      match goal with H : EpollServer.registered _ _ = false |- _ =>
        exact (registered_false _ _ H) end.
    + unfold admission. simpl. intros Ha. apply Hadm. unfold admission in *.
      apply andb_true_iff in Ha as [Ha1 Ha2]. apply andb_true_iff. split; auto.
      apply negb_true_iff, Z.eqb_neq. lia.
    + split; [reflexivity|]. split.
      * intros j Hj. apply list_lookup_insert_ne. auto.
      * split; [reflexivity|]. split; [reflexivity|].
        unfold quiet; simpl. rewrite !elem_of_app, !list_elem_of_singleton.
        intros Hq [[Hq'|Hq']|Hq']; [tauto|discriminate|discriminate].
  - (* a failed accept: the slot keeps descriptor -1, which epoll_ctl refuses *)
    destruct (received_sigint s || t_sig_accept t); simpl in H; [|discriminate].
    rewrite !list_lookup_alter_eq, Hk in H. simpl in H. discriminate.
Qed.

Lemma alter_insert_eq {A} (f : A -> A) (l : list A) i x :
  (i < length l)%nat -> alter f i (<[i := x]> l) = <[i := f x]> l.
Proof.
  revert i. induction l as [|y l IH]; intros [|i] Hi; simpl in *; try lia.
  - reflexivity.
  - f_equal. apply IH. lia.
Qed.

Lemma epoll_conn_cases N srv t i c ev s u s' :
  slots_ok N s -> epoll_interest_ok srv s -> N < 2 ^ 64 ->
  conns s !! i = Some c -> is_live c = true ->
  EpollServer.conn_event_step srv t (1 + Z.of_nat i) ev s = Done u s' ->
  s' = s \/
  (exists c', is_live c' = true /\ client_sock_fd c' = client_sock_fd c /\
     s' = set_conns s (<[i := c']> (conns s))) \/
  (exists c', state c' = TRANSFER_FINISHED /\
     s' = mkState (<[i := c']> (conns s)) (num_active_clients s - 1)
            (num_connected_clients s) (received_sigint s) (stdout s)
            (accept_new_connections_prev s)
            (filter (fun r => negb (reg_fd r =? client_sock_fd c)) (interest s))
            (pollfds s)).
Proof.
  intros Hsl Hint HN Hi Hl H.
  pose proof (active_le_connected N s Hsl) as Hact.
  assert (Hil : (i < length (conns s))%nat) by (eapply lookup_lt_Some; eauto).
  assert (Hact1 : 1 <= num_active_clients s).
  { destruct Hsl as (_ & _ & _ & Ha). rewrite Ha.
    pose proof (count_live_insert (conns s) i c empty_conn Hi) as Hc.
    rewrite Hl in Hc. simpl in Hc. lia. }
  assert (Hsz : size_t (1 + Z.of_nat i - 1) = Z.of_nat i).
  { replace (1 + Z.of_nat i - 1) with (Z.of_nat i) by lia.
    apply size_t_small. destruct Hsl as (Hlen & _). lia. }
  assert (Hreg : EpollServer.registered (client_sock_fd c) (interest s) = true).
  { unfold EpollServer.registered. apply existsb_exists. exists (epoll_slot_reg i c).
    split; [apply list_elem_of_In, (proj2 Hint); right; eauto|]. apply Z.eqb_refl. }
  unfold EpollServer.conn_event_step, EpollServer.epoll_conn_stop_waiting_on_socket,
    EpollServer.epoll_ctl_del in H.
  rewrite Hsz in H. simp_st H. rewrite Nat2Z.id, Hi in H. simpl in H.
  assert (Ha1 : size_t (num_active_clients s - 1) = num_active_clients s - 1)
    by (apply size_t_small; destruct Hsl as (Hlen & Hc & _); lia).
  destruct (Z.land ev EpollServer.EPOLLHUP =? 0); simpl in H.
  - destruct (Z.land ev EpollServer.EPOLLOUT =? 0); simpl in H.
    + injection H as _ <-. left. reflexivity.
    + destruct (t_io t (Z.of_nat i)) as [rd o].
      destruct (advance_live srv c rd o Hl) as (b & c' & sent & Hadv).
      destruct (advance_result srv c rd o b c' sent Hl Hadv) as (Hfd' & Hl' & Hfin).
      rewrite Hadv in H. destruct b; simpl in H.
      * injection H as _ <-. right; left. exists c'. auto.
      * rewrite Hfd' in H. simpl in H.
        destruct ((client_sock_fd c <? 0) || negb (EpollServer.registered (client_sock_fd c) (interest s))
                  || negb (t_ctl t (1 + Z.of_nat i))); simpl in H; [discriminate|].
        destruct (t_close t (Z.of_nat i)); simpl in H; [|discriminate].
        injection H as _ <-. right; right. exists (set_state c' TRANSFER_FINISHED).
        split; [reflexivity|]. rewrite Ha1, alter_insert_eq by auto. reflexivity.
  - destruct ((client_sock_fd c <? 0) || negb (EpollServer.registered (client_sock_fd c) (interest s))
              || negb (t_ctl t (1 + Z.of_nat i))); simpl in H; [discriminate|].
    destruct (t_close t (Z.of_nat i)); simpl in H; [|discriminate].
    injection H as _ <-. right; right. exists (set_state c TRANSFER_FINISHED).
    split; [reflexivity|]. rewrite Ha1, (alter_as_insert _ _ _ _ Hi). reflexivity.
Qed.

Lemma live_lt_connected N s i c :
  slots_ok N s -> conns s !! i = Some c -> is_live c = true ->
  Z.of_nat i < num_connected_clients s.
Proof.
  intros (_ & _ & Hsl & _) Hi Hl.
  destruct (Z_lt_le_dec (Z.of_nat i) (num_connected_clients s)); auto.
  rewrite (proj2 (Hsl _ _ Hi) l) in Hl. discriminate.
Qed.

Lemma live_not_empty c : is_live c = true -> state c <> CONNECTION_EMPTY.
Proof. unfold is_live. destruct (state c); congruence. Qed.

Lemma finished_not_live c : state c = TRANSFER_FINISHED -> is_live c = false.
Proof. unfold is_live. intros ->. reflexivity. Qed.

Lemma epoll_conn_ok N srv t i c ev s u s' :
  epoll_inv N srv s -> N < 2 ^ 64 -> conns s !! i = Some c -> is_live c = true ->
  EpollServer.conn_event_step srv t (1 + Z.of_nat i) ev s = Done u s' ->
  epoll_inv N srv s' /\ num_connected_clients s' = num_connected_clients s /\
  (forall j, j <> i -> conns s' !! j = conns s !! j) /\
  received_sigint s' = received_sigint s /\
  accept_new_connections_prev s' = accept_new_connections_prev s /\
  stdout s' = stdout s.
Proof.
  intros (Hsl & Hint & Hadm) HN Hi Hl H.
  pose proof (live_lt_connected N s i c Hsl Hi Hl) as Hlt.
  destruct (epoll_conn_cases N srv t i c ev s u s' Hsl Hint HN Hi Hl H)
    as [->|[(c' & Hl' & Hfd & ->)|(c' & Hst & ->)]].
  - split; [split; [|split]; auto|]. repeat split; auto.
  - unfold set_conns. split; [split; [|split]|].
    + apply (slots_ok_set N s i c c'); auto using live_not_empty.
      rewrite Hl, Hl'. lia.
    + apply (epoll_interest_set_live srv s i c c'); auto.
    + exact Hadm.
    + simpl. repeat split; auto. intros j Hj. apply list_lookup_insert_ne. auto.
  - split; [split; [|split]|].
    + apply (slots_ok_set N s i c c'); auto.
      * rewrite Hst. discriminate.
      * rewrite Hl, finished_not_live by auto. lia.
    + apply (epoll_interest_remove srv s i c c'); auto using finished_not_live.
    + exact Hadm.
    + simpl. repeat split; auto. intros j Hj. apply list_lookup_insert_ne. auto.
Qed.

Lemma epoll_process_ok N srv t evs s u s' :
  epoll_inv N srv s -> N < 2 ^ 64 -> epoll_batch_ok N s evs ->
  EpollServer.process_events srv t evs s = Done u s' ->
  epoll_inv N srv s' /\
  num_connected_clients s <= num_connected_clients s' /\
  (0 ∉ map fst evs -> num_connected_clients s' = num_connected_clients s) /\
  received_sigint s' = received_sigint s /\
  accept_new_connections_prev s' = accept_new_connections_prev s /\
  (quiet s -> quiet s').
Proof.
  revert s. induction evs as [|[tag ev] evs IH]; intros s Hinv HN [Hnd Hb] H; simpl in H.
  - injection H as _ <-. split; [exact Hinv|]. repeat split; auto; lia.
  - apply seq_Done in H as (a & s1 & H1 & H2).
    simpl in Hnd. apply NoDup_cons in Hnd as [Htag Hnd].
    destruct (Hb tag ev ltac:(left)) as [[-> Hlt]|(i & c & -> & Hi & Hl)].
    + simpl in H1.
      destruct (epoll_accept_ok N srv t s a s1 Hinv Hlt HN H1)
        as (Hinv1 & Hc1 & Hsame & Hsig1 & Hp1 & Hq1).
      assert (Hb1 : epoll_batch_ok N s1 evs).
      { split; auto. intros tag' ev' Hin.
        destruct (Hb tag' ev' ltac:(right; exact Hin)) as [[-> _]|(j & d & -> & Hj & Hd)].
        - exfalso. apply Htag. apply list_elem_of_fmap. exists (0, ev'). auto.
        - right. exists j, d. split; auto. rewrite Hsame; auto.
          intros ->. rewrite (slot_free N s (proj1 Hinv) Hlt) in Hj.
          injection Hj as <-. discriminate. }
      destruct (IH s1 Hinv1 HN Hb1 H2) as (Hinv2 & Hc2 & _ & Hsig2 & Hp2 & Hq2).
      split; [exact Hinv2|]. repeat split; auto; try congruence; try lia.
      intros Hn. exfalso. apply Hn. left.
    + assert (Hne : (1 + Z.of_nat i =? 0) = false) by (apply Z.eqb_neq; lia).
      rewrite Hne in H1.
      destruct (epoll_conn_ok N srv t i c ev s a s1 Hinv HN Hi Hl H1)
        as (Hinv1 & Hc1 & Hsame & Hsig1 & Hp1 & Hout1).
      assert (Hb1 : epoll_batch_ok N s1 evs).
      { split; auto. intros tag' ev' Hin.
        destruct (Hb tag' ev' ltac:(right; exact Hin)) as [[-> Hlt']|(j & d & -> & Hj & Hd)].
        - left. split; auto. lia.
        - right. exists j, d. split; auto. rewrite Hsame; auto.
          intros Hji. subst j. apply Htag. apply list_elem_of_fmap. exists (1 + Z.of_nat i, ev'). auto. }
      destruct (IH s1 Hinv1 HN Hb1 H2) as (Hinv2 & Hc2 & Hc2' & Hsig2 & Hp2 & Hq2).
      split; [exact Hinv2|]. repeat split; auto; try congruence; try lia.
      * intros Hn. rewrite Hc2', Hc1; auto. intros Hn'. apply Hn. right. exact Hn'.
      * intros Hq. apply Hq2. unfold quiet in *. rewrite Hout1. exact Hq.
Qed.

Lemma epoll_ready_spec l seen raw :
  NoDup (map fst (EpollServer.epoll_ready l seen raw)) /\
  forall tag ev, (tag, ev) ∈ EpollServer.epoll_ready l seen raw ->
    (exists r, r ∈ l /\ reg_tag r = tag) /\ tag ∉ seen.
Proof.
  revert seen. induction raw as [|[tag ev] raw IH]; intros seen; simpl.
  - split; [constructor|]. intros tag ev Hin. apply not_elem_of_nil in Hin. contradiction.
  - destruct (list_find (fun r => reg_tag r = tag) l) as [[n r]|] eqn:Hf; [|apply IH].
    apply list_find_Some in Hf as (Hr & Htag & _).
    destruct ((_ =? 0) || existsb (Z.eqb tag) seen) eqn:E; [apply IH|].
    apply orb_false_iff in E as [_ E].
    destruct (IH (tag :: seen)) as [Hnd Hin]. simpl. split.
    + constructor; auto. intros Hm. apply list_elem_of_fmap in Hm as ([tag' ev'] & Heq & Hm).
      simpl in Heq. subst tag'. apply (proj2 (Hin _ _ Hm)). left.
    + intros tag' ev' Hm. apply elem_of_cons in Hm as [Hm|Hm].
      * injection Hm as Ht Hv. subst tag' ev'. split.
        -- exists r. split; auto. apply list_elem_of_lookup. eauto.
        -- intros Hs. apply list_elem_of_In in Hs.
           assert (existsb (Z.eqb tag) seen = true) by (apply existsb_exists; exists tag; split; auto; apply Z.eqb_refl).
           congruence.
      * destruct (Hin _ _ Hm) as [Hr' Hs]. split; auto. intros Hs'. apply Hs. right. exact Hs'.
Qed.

Lemma epoll_batch_from_ready N srv s n raw :
  epoll_interest_ok srv s ->
  (accept_new_connections_prev s = true -> num_connected_clients s < N) ->
  epoll_batch_ok N s (take n (EpollServer.epoll_ready (interest s) [] raw)) /\
  (accept_new_connections_prev s = false ->
   0 ∉ map fst (take n (EpollServer.epoll_ready (interest s) [] raw))).
Proof.
  intros [_ Hiff] Hp. destruct (epoll_ready_spec (interest s) [] raw) as [Hnd Hin].
  assert (Htags : forall tag ev, (tag, ev) ∈ take n (EpollServer.epoll_ready (interest s) [] raw) ->
    (tag = 0 /\ accept_new_connections_prev s = true) \/
    (exists i c, tag = 1 + Z.of_nat i /\ conns s !! i = Some c /\ is_live c = true)).
  { intros tag ev Hm. apply (fun H => elem_of_sublist _ _ _ H (sublist_take _ _)) in Hm.
    destruct (Hin _ _ Hm) as [(r & Hr & <-) _]. apply Hiff in Hr as [[-> Hpv]|(i & c & Hi & Hl & ->)].
    - left. auto.
    - right. exists i, c. auto. }
  split; [split|].
  - rewrite <- firstn_map. eapply sublist_NoDup; [exact Hnd|]. apply sublist_take.
  - intros tag ev Hm. destruct (Htags tag ev Hm) as [[-> Hpv]|Hc]; auto.
  - intros Hpf Hm. apply list_elem_of_fmap in Hm as ([tag ev] & Heq & Hm). simpl in Heq. subst tag.
    destruct (Htags 0 ev Hm) as [[_ Hpv]|(i & c & Heq & _)]; [congruence|lia].
Qed.

Lemma slots_ok_frame N s s' :
  slots_ok N s -> conns s' = conns s -> num_active_clients s' = num_active_clients s ->
  num_connected_clients s' = num_connected_clients s -> slots_ok N s'.
Proof. unfold slots_ok. intros H -> -> ->. exact H. Qed.

Lemma epoll_interest_frame srv s s' :
  epoll_interest_ok srv s -> conns s' = conns s -> interest s' = interest s ->
  accept_new_connections_prev s' = accept_new_connections_prev s -> epoll_interest_ok srv s'.
Proof. unfold epoll_interest_ok. intros H -> -> ->. exact H. Qed.

Lemma admission_sigint N s b :
  admission N (set_sigint s (received_sigint s || b)) = true -> admission N s = true.
Proof.
  unfold admission; simpl. destruct (received_sigint s), b; simpl; rewrite ?andb_false_r; auto;
    discriminate.
Qed.

Lemma epoll_top_ok N srv t s top s' :
  epoll_inv N srv s -> EpollServer.loop_top N srv t s = Done top s' ->
  let s1 := set_sigint s (received_sigint s || t_sig t) in
  (top = None /\ s' = s1 /\ num_active_clients s1 = 0 /\ admission N s1 = false) \/
  (top = Some (admission N s1) /\ ~ (num_active_clients s1 = 0 /\ admission N s1 = false) /\
   epoll_inv N srv s' /\ accept_new_connections_prev s' = admission N s1 /\
   conns s' = conns s /\ num_connected_clients s' = num_connected_clients s /\
   num_active_clients s' = num_active_clients s /\
   received_sigint s' = received_sigint s1 /\ stdout s' = stdout s).
Proof.
  intros (Hsl & Hint & Hadm) H s1.
  pose proof (admission_sigint N s (t_sig t)) as Hadm1. fold s1 in Hadm1.
  unfold EpollServer.loop_top, EpollServer.epoll_server_stop_waiting_for_client,
    EpollServer.epoll_ctl_del in H.
  simp_st H. fold s1 in H.
  destruct ((num_active_clients s1 =? 0) && negb (admission N s1)) eqn:Eb; simpl in H.
  - injection H as <- <-. left. bool_facts. repeat split; auto.
  - right. assert (Hnb : ~ (num_active_clients s1 = 0 /\ admission N s1 = false)).
    { intros [Ha Hb]. rewrite Ha, Hb in Eb. simpl in Eb. discriminate. }
    destruct (accept_new_connections_prev s && negb (admission N s1)) eqn:Ep; simpl in H.
    + destruct ((listen_sock_fd srv <? 0)
                || negb (EpollServer.registered (listen_sock_fd srv) (interest s))
                || negb (t_ctl t 0)); simpl in H; [discriminate|].
      injection H as <- <-. apply andb_true_iff in Ep as [Ep1 Ep2].
      apply negb_true_iff in Ep2. rewrite Ep2.
      split; [reflexivity|]. split; [rewrite Ep2 in Hnb; exact Hnb|]. split; [split; [|split]|].
      * apply (slots_ok_frame N s); auto.
      * apply (epoll_interest_unlisten srv s); auto.
      * intros Ha. exfalso. unfold admission in Ha, Ep2. simpl in Ha, Ep2. congruence.
      * repeat split; auto.
    + injection H as <- <-. split; [reflexivity|]. split; [exact Hnb|].
      assert (Hp : accept_new_connections_prev s1 = admission N s1).
      { destruct (admission N s1) eqn:Ea.
        - apply Hadm, Hadm1. reflexivity.
        - rewrite andb_true_r in Ep. exact Ep. }
      split; [split; [|split]|].
      * apply (slots_ok_frame N s); auto.
      * apply (epoll_interest_frame srv s); auto.
      * intros Ha. rewrite Hp. exact Ha.
      * repeat split; auto.
Qed.

Lemma epoll_inv_sigint N srv s b :
  epoll_inv N srv s -> epoll_inv N srv (set_sigint s (received_sigint s || b)).
Proof.
  intros (Hsl & Hint & Hadm). split; [|split].
  - apply (slots_ok_frame N s); auto.
  - apply (epoll_interest_frame srv s); auto.
  - intros Ha. apply Hadm, (admission_sigint N s b), Ha.
Qed.

Lemma epoll_iteration_ok N srv t s r s' :
  epoll_inv N srv s -> N < 2 ^ 64 -> EpollServer.iteration N srv t s = Done r s' ->
  epoll_inv N srv s' /\ monotone s s' /\ (quiet s -> quiet s') /\
  (admission N (set_sigint s (received_sigint s || t_sig t)) = false ->
   num_connected_clients s' = num_connected_clients s).
Proof.
  intros Hinv HN H. unfold EpollServer.iteration in H.
  apply bind_Done in H as (top & s2 & Htop & H).
  destruct (epoll_top_ok N srv t s top s2 Hinv Htop)
    as [(-> & -> & _ & _)|(-> & _ & Hinv2 & Hp2 & Hc2 & Hn2 & Ha2 & Hsig2 & Hout2)].
  - injection H as _ <-. split; [apply epoll_inv_sigint; auto|].
    unfold monotone, quiet. simpl. repeat split; auto; try lia.
    intros Hs. rewrite Hs. reflexivity.
  - destruct (t_epoll t) as [raw|]; [|discriminate].
    apply bind_Done in H as (s3 & s4 & Hget & H). injection Hget as <- <-.
    apply seq_Done in H as (u & s5 & Hp & H). injection H as _ <-.
    assert (Hlt : accept_new_connections_prev s2 = true -> num_connected_clients s2 < N).
    { intros Hp'. rewrite Hp2 in Hp'. unfold admission in Hp'. simpl in Hp'.
      destruct Hinv2 as ((_ & Hc & _) & _).
      apply andb_true_iff in Hp' as [Hp' _]. apply negb_true_iff, Z.eqb_neq in Hp'. lia. }
    destruct (epoll_batch_from_ready N srv s2 (Z.to_nat (N + 1)) raw (proj1 (proj2 Hinv2)) Hlt)
      as [Hb Hno].
    destruct (epoll_process_ok N srv t _ s2 u s5 Hinv2 HN Hb Hp)
      as (Hinv5 & Hc5 & Hc5' & Hsig5 & Hp5 & Hq5).
    split; [exact Hinv5|]. unfold monotone. split; [split|split].
    + lia.
    + intros Hs. rewrite Hsig5, Hsig2. simpl. rewrite Hs. reflexivity.
    + intros Hq. apply Hq5. unfold quiet. rewrite Hout2. exact Hq.
    + intros Ha. rewrite Hc5', Hn2; auto. apply Hno. rewrite Hp2. exact Ha.
Qed.

Lemma slots_ok_init N pfds : 0 <= N -> slots_ok N (init_state N pfds).
Proof.
  intros HN. unfold slots_ok, init_state; simpl.
  split; [apply length_replicate|]. split; [lia|]. split.
  - intros i c Hi. apply lookup_replicate in Hi as [-> _]. split; [lia|reflexivity].
  - exact (f_equal Z.of_nat (eq_sym (count_live_replicate (Z.to_nat N)))).
Qed.

Lemma epoll_setup_ok N su srv s :
  0 <= N -> EpollServer.setup su (EpollServer.init N) = Done srv s ->
  epoll_inv N srv s /\ quiet s /\ s = set_interest (EpollServer.init N) [epoll_listen_reg srv].
Proof.
  intros HN H. unfold EpollServer.setup, EpollServer.epoll_server_wait_for_client,
    EpollServer.epoll_ctl_add in H.
  destruct (su_mux_create su); simpl in H; [|discriminate].
  destruct (su_alloc su); simpl in H; [|discriminate].
  destruct (su_src_file su) as [file|]; simpl in H; [|discriminate].
  destruct (su_sigaction su); simpl in H; [|discriminate].
  destruct (su_socket su) as [lfd|]; simpl in H; [|discriminate].
  destruct (su_listen_setup su); simpl in H; [|discriminate].
  simp_st H. simpl in H.
  replace (Z.of_N lfd <? 0) with false in H by (symmetry; apply Z.ltb_ge; lia).
  destruct (su_ctl su); simpl in H; [|discriminate].
  injection H as <- <-.
  assert (Hs : slots_ok N (EpollServer.init N)) by (apply slots_ok_init; auto).
  split; [|split; [unfold quiet; simpl; apply not_elem_of_nil|reflexivity]].
  split; [|split].
  - exact Hs.
  - unfold epoll_interest_ok; simpl. split; [apply NoDup_singleton|].
    intros r. rewrite list_elem_of_singleton. split.
    + intros ->. left. auto.
    + intros [[-> _]|(i & c & Hi & Hl & _)]; [reflexivity|].
      apply lookup_replicate in Hi as [-> _]. discriminate.
  - reflexivity.
Qed.

Lemma epoll_event_loop_ok N srv ts s b s' :
  epoll_inv N srv s -> N < 2 ^ 64 -> EpollServer.event_loop N srv ts s = Done b s' ->
  epoll_inv N srv s' /\ monotone s s' /\ (quiet s -> quiet s') /\
  (admission N s = false -> num_connected_clients s' = num_connected_clients s).
Proof.
  revert s. induction ts as [|t ts IH]; intros s Hinv HN H; simpl in H.
  - injection H as _ <-. split; [exact Hinv|]. unfold monotone. repeat split; auto; lia.
  - apply bind_Done in H as (r & s1 & Hit & H).
    destruct (epoll_iteration_ok N srv t s r s1 Hinv HN Hit) as (Hinv1 & [Hc1 Hs1] & Hq1 & Ha1).
    assert (Hadm1 : admission N s = false -> admission N s1 = false /\
                    num_connected_clients s1 = num_connected_clients s).
    { intros Ha. assert (Hc : num_connected_clients s1 = num_connected_clients s).
      { apply Ha1. destruct (admission N (set_sigint s (received_sigint s || t_sig t))) eqn:E; auto.
        rewrite (admission_sigint N s (t_sig t) E) in Ha. discriminate. }
      split; auto. unfold admission in *. rewrite Hc.
      destruct (num_connected_clients s =? N); auto. simpl in *.
      rewrite negb_false_iff in Ha. rewrite (Hs1 Ha). reflexivity. }
    destruct r.
    + injection H as _ <-. split; [exact Hinv1|]. split; [split; auto|]. split; auto.
      intros Ha. apply (proj2 (Hadm1 Ha)).
    + destruct (IH s1 Hinv1 HN H) as (Hinv2 & [Hc2 Hs2] & Hq2 & Ha2).
      split; [exact Hinv2|]. unfold monotone. repeat split; auto; try lia.
      intros Ha. destruct (Hadm1 Ha) as [Ha' Hc']. rewrite Ha2; auto.
Qed.

Lemma poll_arm_range N s j n u s' :
  slots_ok N s -> Z.of_nat (j + n) <= num_connected_clients s ->
  length (pollfds s) = Z.to_nat (N + 1) ->
  PollServer.for_range (Z.of_nat j) n PollServer.arm_conn s = Done u s' ->
  exists P, s' = set_pollfds s P /\ length P = length (pollfds s) /\
    (forall i c, (j <= i < j + n)%nat -> conns s !! i = Some c ->
       P !! S i = Some (poll_slot_entry c)) /\
    (forall m, ~ (j < m <= j + n)%nat -> P !! m = pollfds s !! m).
Proof.
  revert j s. induction n as [|n IH]; intros j s Hsl Hjn Hlen H; simpl in H.
  - injection H as _ <-. exists (pollfds s). split; [destruct s; reflexivity|].
    split; [reflexivity|]. split; [intros; lia|auto].
  - apply seq_Done in H as (a & s1 & H1 & H2).
    assert (Hj : (j < length (conns s))%nat) by (destruct Hsl as (Hl & Hc & _); lia).
    destruct (lookup_lt_is_Some_2 _ _ Hj) as [c Hc].
    assert (Hne : state c <> CONNECTION_EMPTY) by (apply (proj1 (proj1 (proj2 (proj2 Hsl)) _ _ Hc)); lia).
    unfold PollServer.arm_conn, PollServer.poll_conn_wait_on_socket,
      PollServer.poll_conn_do_not_wait_on_socket, PollServer.set_pollfd in H1.
    simp_st H1. rewrite Nat2Z.id, Hc in H1. simpl in H1.
    assert (Hs1 : s1 = set_pollfds s (<[S j := poll_slot_entry c]> (pollfds s))).
    { unfold poll_slot_entry, is_live.
      replace (Z.to_nat (1 + Z.of_nat j)) with (S j) in H1 by lia.
      destruct (state c); try congruence; injection H1 as _ <-; reflexivity. }
    subst s1. replace (Z.of_nat j + 1) with (Z.of_nat (S j)) in H2 by lia.
    destruct (IH (S j) (set_pollfds s (<[S j := poll_slot_entry c]> (pollfds s))) Hsl ltac:(simpl; lia)
                 ltac:(unfold set_pollfds; cbn [pollfds]; rewrite length_insert; exact Hlen) H2)
      as (P & -> & HPl & HPs & HPo).
    exists P. split; [reflexivity|]. unfold set_pollfds in HPl; cbn [pollfds] in HPl.
    rewrite length_insert in HPl.
    split; [exact HPl|]. split.
    + intros i d Hi Hd. destruct (decide (i = j)) as [->|Hij].
      * rewrite HPo by lia. unfold set_pollfds; cbn [pollfds]. rewrite Hc in Hd. injection Hd as <-.
        apply list_lookup_insert_eq. rewrite Hlen. destruct Hsl as (Hl & Hcn & _). lia.
      * apply HPs; auto. lia.
    + intros m Hm. rewrite HPo by lia. unfold set_pollfds; cbn [pollfds].
      apply list_lookup_insert_ne. lia.
Qed.

Lemma poll_top_ok N srv t s top s' :
  poll_inv N s -> PollServer.loop_top N srv t s = Done top s' ->
  let s1 := set_sigint s (received_sigint s || t_sig t) in
  (top = None /\ s' = s1 /\ num_active_clients s1 = 0 /\ admission N s1 = false) \/
  (top = Some (1 + num_connected_clients s) /\
   ~ (num_active_clients s1 = 0 /\ admission N s1 = false) /\
   exists P, s' = set_pollfds s1 P /\ length P = length (pollfds s) /\
     P !! 0%nat = Some (poll_listen_entry srv (admission N s1)) /\
     (forall i c, Z.of_nat i < num_connected_clients s -> conns s !! i = Some c ->
        P !! S i = Some (poll_slot_entry c)) /\
     (forall m, num_connected_clients s < Z.of_nat m -> P !! m = pollfds s !! m)).
Proof.
  intros (Hsl & Hlen & Hz) H s1. unfold PollServer.loop_top in H.
  apply seq_Done in H as (a & s2 & H1 & H). injection H1 as _ <-.
  apply bind_Done in H as (x & s3 & H1 & H). injection H1 as <- <-. fold s1 in H.
  destruct ((num_active_clients s1 =? 0) && negb (admission N s1)) eqn:Eb.
  - injection H as <- <-. left. bool_facts. auto.
  - right. assert (Hnb : ~ (num_active_clients s1 = 0 /\ admission N s1 = false)).
    { intros [Ha Hb]. rewrite Ha, Hb in Eb. simpl in Eb. discriminate. }
    apply seq_Done in H as (b & s4 & H1 & H).
    assert (Hs4 : s4 = set_pollfds s1 (<[0%nat := poll_listen_entry srv (admission N s1)]> (pollfds s))).
    { unfold PollServer.poll_server_wait_for_client, PollServer.poll_server_do_not_wait_for_client,
        PollServer.set_pollfd, poll_listen_entry in *.
      destruct (admission N s1); simp_st H1; injection H1 as _ <-; reflexivity. }
    subst s4. apply seq_Done in H as (c & s5 & H2 & H). injection H as <- <-.
    change 0 with (Z.of_nat 0) in H2.
    destruct (poll_arm_range N
                (set_pollfds s1 (<[0%nat := poll_listen_entry srv (admission N s1)]> (pollfds s)))
                0 (Z.to_nat (num_connected_clients s1)) c s5 Hsl
                ltac:(simpl; destruct Hsl as (_ & Hc & _); lia)
                ltac:(unfold set_pollfds; cbn [pollfds]; rewrite length_insert; exact Hlen) H2)
      as (P & -> & HPl & HPs & HPo).
    split; [reflexivity|]. split; [exact Hnb|].
    exists P. unfold set_pollfds in HPl, HPo |- *. cbn [pollfds] in HPl, HPo |- *.
    rewrite length_insert in HPl. split; [reflexivity|]. split; [exact HPl|]. split; [|split].
    + rewrite HPo by lia. apply list_lookup_insert_eq. rewrite Hlen. destruct Hsl as (_ & Hc & _). lia.
    + intros i d Hi Hd. apply HPs; auto. simpl in *. lia.
    + intros m Hm. destruct Hsl as (_ & Hc & _).
      change (num_connected_clients s1) with (num_connected_clients s) in HPo.
      rewrite HPo by lia. apply list_lookup_insert_ne. lia.
Qed.

Lemma poll_accept_ok N t s u s' :
  slots_ok N s -> num_connected_clients s < N -> N < 2 ^ 64 ->
  PollServer.accept_event t s = Done u s' ->
  slots_ok N s' /\ num_connected_clients s' = num_connected_clients s + 1 /\
  (forall j, j <> Z.to_nat (num_connected_clients s) -> conns s' !! j = conns s !! j) /\
  pollfds s' = pollfds s /\
  (received_sigint s = true -> received_sigint s' = true) /\
  (quiet s -> quiet s').
Proof.
  intros Hsl Hlt HN H.
  pose proof (slot_free N s Hsl Hlt) as Hk.
  pose proof (active_le_connected N s Hsl) as Hact.
  unfold PollServer.accept_event, server_accept_connection_request in H.
  simp_st H.
  destruct (t_accept t) as [fd|]; simpl in H.
  - destruct (t_sockopt t); simpl in H; [|discriminate].
    injection H as _ <-.
    rewrite (alter_alter_insert _ _ _ _ _ Hk). simpl.
    rewrite !size_t_small by lia.
    split.
    + exact (slots_ok_accept N s (mkConn (Z.of_N fd) 0 SEND_FILE_SIZE) _ _ _ _ _ Hsl Hlt
               ltac:(discriminate)).
    + split; [reflexivity|]. split; [intros j Hj; apply list_lookup_insert_ne; auto|].
      split; [reflexivity|]. split; [auto|].
      unfold quiet; simpl. rewrite !elem_of_app, !list_elem_of_singleton.
      intros Hq [[Hq'|Hq']|Hq']; [tauto|discriminate|discriminate].
  - destruct (received_sigint s || t_sig_accept t) eqn:Esig; simpl in H; [|discriminate].
    injection H as _ <-.
    rewrite (alter_alter_insert _ _ _ _ _ Hk). simpl.
    rewrite !size_t_small by lia.
    split.
    + exact (slots_ok_accept N s (mkConn (-1) 0 SEND_FILE_SIZE) _ _ _ _ _ Hsl Hlt
               ltac:(discriminate)).
    + split; [reflexivity|]. split; [intros j Hj; apply list_lookup_insert_ne; auto|].
      split; [reflexivity|]. split; [auto|].
      unfold quiet; simpl. rewrite !elem_of_app, !list_elem_of_singleton.
      intros Hq [Hq'|Hq']; [tauto|discriminate].
Qed.

Lemma live_active N s i c :
  slots_ok N s -> conns s !! i = Some c -> is_live c = true -> N < 2 ^ 64 ->
  size_t (num_active_clients s - 1) = num_active_clients s - 1.
Proof.
  intros Hsl Hi Hl HN. pose proof (active_le_connected N s Hsl) as Hact.
  assert (1 <= num_active_clients s).
  { destruct Hsl as (_ & _ & _ & Ha). rewrite Ha.
    pose proof (count_live_insert (conns s) i c empty_conn Hi) as Hc.
    rewrite Hl in Hc. simpl in Hc. lia. }
  apply size_t_small. destruct Hsl as (_ & Hc & _). lia.
Qed.

Lemma poll_conn_cases N srv t i s u s' :
  slots_ok N s -> N < 2 ^ 64 ->
  (forall p, pollfds s !! S i = Some p ->
     Z.land (pfd_revents p) PollServer.POLLHUP <> 0 \/
     Z.land (pfd_revents p) PollServer.POLLOUT <> 0 ->
     exists c, conns s !! i = Some c /\ is_live c = true) ->
  PollServer.conn_poll_step srv t (Z.of_nat i) s = Done u s' ->
  s' = s \/
  (exists c c', conns s !! i = Some c /\ is_live c = true /\ is_live c' = true /\
     client_sock_fd c' = client_sock_fd c /\ s' = set_conns s (<[i := c']> (conns s))) \/
  (exists c c', conns s !! i = Some c /\ is_live c = true /\ state c' = TRANSFER_FINISHED /\
     s' = set_active (set_conns s (<[i := c']> (conns s))) (num_active_clients s - 1)).
Proof.
  intros Hsl HN Hready H.
  unfold PollServer.conn_poll_step, PollServer.get_pollfd in H. simp_st H.
  replace (Z.to_nat (1 + Z.of_nat i)) with (S i) in H by lia.
  destruct (pollfds s !! S i) as [p|] eqn:Hp; simpl in H; [|injection H as _ <-; left; reflexivity].
  destruct (Z.land (pfd_revents p) PollServer.POLLHUP =? 0) eqn:E1; simpl in H.
  - destruct (Z.land (pfd_revents p) PollServer.POLLOUT =? 0) eqn:E2; simpl in H.
    + injection H as _ <-. left. reflexivity.
    + destruct (Hready p eq_refl) as (c & Hi & Hl).
      { right. apply Z.eqb_neq. exact E2. }
      rewrite Nat2Z.id, Hi in H. simpl in H.
      destruct (t_io t (Z.of_nat i)) as [rd o].
      destruct (advance_live srv c rd o Hl) as (b & c' & sent & Hadv).
      destruct (advance_result srv c rd o b c' sent Hl Hadv) as (Hfd' & Hl' & Hfin).
      rewrite Hadv in H. destruct b; simpl in H.
      * injection H as _ <-. right; left. exists c, c'. auto.
      * destruct (t_close t (Z.of_nat i)); simpl in H; [|discriminate].
        injection H as _ <-. right; right. exists c, c'. repeat split; auto.
        rewrite (live_active N s i c Hsl Hi Hl HN). reflexivity.
  - destruct (Hready p eq_refl) as (c & Hi & Hl).
    { left. apply Z.eqb_neq. exact E1. }
    destruct (t_close t (Z.of_nat i)); simpl in H; [|discriminate].
    injection H as _ <-. right; right. exists c, (set_state c TRANSFER_FINISHED).
    repeat split; auto. rewrite Nat2Z.id, (alter_as_insert _ _ _ _ Hi).
    rewrite (live_active N s i c Hsl Hi Hl HN). reflexivity.
Qed.

Lemma poll_conn_ok N srv t i s u s' :
  slots_ok N s -> N < 2 ^ 64 ->
  (forall p, pollfds s !! S i = Some p ->
     Z.land (pfd_revents p) PollServer.POLLHUP <> 0 \/
     Z.land (pfd_revents p) PollServer.POLLOUT <> 0 ->
     exists c, conns s !! i = Some c /\ is_live c = true) ->
  PollServer.conn_poll_step srv t (Z.of_nat i) s = Done u s' ->
  slots_ok N s' /\ num_connected_clients s' = num_connected_clients s /\
  (forall j, j <> i -> conns s' !! j = conns s !! j) /\
  pollfds s' = pollfds s /\ received_sigint s' = received_sigint s /\ stdout s' = stdout s.
Proof.
  intros Hsl HN Hready H.
  destruct (poll_conn_cases N srv t i s u s' Hsl HN Hready H)
    as [->|[(c & c' & Hi & Hl & Hl' & Hfd & ->)|(c & c' & Hi & Hl & Hst & ->)]].
  - split; [exact Hsl|]. repeat split; auto.
  - pose proof (live_lt_connected N s i c Hsl Hi Hl).
    split; [|repeat split; auto; intros j Hj; apply list_lookup_insert_ne; auto].
    apply (slots_ok_set N s i c c'); auto using live_not_empty. rewrite Hl, Hl'. lia.
  - pose proof (live_lt_connected N s i c Hsl Hi Hl).
    split; [|repeat split; auto; intros j Hj; apply list_lookup_insert_ne; auto].
    apply (slots_ok_set N s i c c'); auto.
    + rewrite Hst. discriminate.
    + rewrite Hl, finished_not_live by auto. lia.
Qed.

Lemma poll_process_range N srv t n j s u s' :
  slots_ok N s -> N < 2 ^ 64 ->
  (forall i, (j <= i < j + n)%nat -> forall p, pollfds s !! S i = Some p ->
     Z.land (pfd_revents p) PollServer.POLLHUP <> 0 \/
     Z.land (pfd_revents p) PollServer.POLLOUT <> 0 ->
     exists c, conns s !! i = Some c /\ is_live c = true) ->
  PollServer.for_range (Z.of_nat j) n (PollServer.conn_poll_step srv t) s = Done u s' ->
  slots_ok N s' /\ num_connected_clients s' = num_connected_clients s /\
  pollfds s' = pollfds s /\ received_sigint s' = received_sigint s /\ stdout s' = stdout s.
Proof.
  revert j s. induction n as [|n IH]; intros j s Hsl HN Hready H; simpl in H.
  - injection H as _ <-. split; [exact Hsl|]. repeat split; auto.
  - apply seq_Done in H as (a & s1 & H1 & H2).
    destruct (poll_conn_ok N srv t j s a s1 Hsl HN (Hready j ltac:(lia)) H1)
      as (Hsl1 & Hc1 & Hsame & Hp1 & Hsig1 & Hout1).
    replace (Z.of_nat j + 1) with (Z.of_nat (S j)) in H2 by lia.
    destruct (IH (S j) s1 Hsl1 HN) as (Hsl2 & Hc2 & Hp2 & Hsig2 & Hout2); [|exact H2|].
    + intros i Hi p Hp Hb. rewrite Hp1 in Hp. rewrite Hsame by lia.
      apply (Hready i ltac:(lia) p Hp Hb).
    + split; [exact Hsl2|]. repeat split; congruence.
Qed.

Lemma poll_revents_disabled nfds rv i :
  pfd_revents (PollServer.poll_revents nfds rv i (mkPollfd (-1) 0 0)) = 0.
Proof. unfold PollServer.poll_revents. destruct (Z.of_nat i <? nfds); reflexivity. Qed.

Lemma poll_revents_untouched nfds rv i p :
  nfds <= Z.of_nat i -> PollServer.poll_revents nfds rv i p = p.
Proof.
  intros H. unfold PollServer.poll_revents.
  replace (Z.of_nat i <? nfds) with false by (symmetry; apply Z.ltb_ge; lia). reflexivity.
Qed.

Lemma poll_inv_sigint N s b : poll_inv N s -> poll_inv N (set_sigint s (received_sigint s || b)).
Proof.
  intros (Hsl & Hlen & Hz). split; [|split]; auto.
Qed.

Lemma poll_iteration_ok N srv t s r s' :
  poll_inv N s -> N < 2 ^ 64 -> PollServer.iteration N srv t s = Done r s' ->
  poll_inv N s' /\ monotone s s' /\ (quiet s -> quiet s') /\
  (admission N (set_sigint s (received_sigint s || t_sig t)) = false ->
   num_connected_clients s' = num_connected_clients s).
Proof.
  intros Hinv HN H. unfold PollServer.iteration in H.
  apply bind_Done in H as (top & s2 & Htop & H).
  destruct (poll_top_ok N srv t s top s2 Hinv Htop)
    as [(-> & -> & _ & _)|(-> & _ & P & -> & HPl & HP0 & HPs & HPo)].
  - injection H as _ <-. split; [apply poll_inv_sigint; auto|].
    unfold monotone, quiet. simpl. repeat split; auto; try lia.
    intros Hs. rewrite Hs. reflexivity.
  - destruct Hinv as (Hsl & Hlen & Hz).
    pose proof (active_le_connected N s Hsl) as Hact.
    set (s1 := set_sigint s (received_sigint s || t_sig t)) in *.
    set (c := num_connected_clients s) in *.
    destruct (t_poll t) as [rv|]; [|discriminate].
    apply seq_Done in H as (a & s3 & Hpoll & H). injection Hpoll as _ <-.
    set (P' := imap (PollServer.poll_revents (1 + c) rv) P) in *.
    apply bind_Done in H as (p0 & s3 & Hget & H). injection Hget as <- <-.
    apply seq_Done in H as (b & s4 & Hacc & H).
    apply bind_Done in H as (x & s5 & Hget & H). injection Hget as <- <-.
    apply seq_Done in H as (d & s5 & Hrange & H). injection H as _ <-.
    (* what poll reported *)
    assert (HP'o : forall m, c < Z.of_nat m -> P' !! m = pollfds s !! m).
    { intros m Hm. unfold P'. rewrite list_lookup_imap, HPo by lia.
      destruct (pollfds s !! m); simpl; auto. rewrite poll_revents_untouched by lia. reflexivity. }
    (* the state the second loop starts from *)
    assert (Hs4 : slots_ok N s4 /\ pollfds s4 = P' /\
                  num_connected_clients s4 <= N /\ c <= num_connected_clients s4 /\
                  (admission N s1 = false -> num_connected_clients s4 = c) /\
                  (forall i, Z.of_nat i < c -> conns s4 !! i = conns s !! i) /\
                  (received_sigint s1 = true -> received_sigint s4 = true) /\
                  (quiet s -> quiet s4)).
    { unfold PollServer.get_pollfd in Hacc. simp_st Hacc.
      change (Z.to_nat 0) with 0%nat in Hacc.
      rewrite (list_lookup_imap _ P 0%nat : P' !! 0%nat = _), HP0 in Hacc. simpl in Hacc.
      destruct (Z.land (pfd_revents (PollServer.poll_revents (1 + c) rv 0 (poll_listen_entry srv (admission N s1))))
                  PollServer.POLLIN =? 0) eqn:Ein; simpl in Hacc.
      - injection Hacc as _ <-. simpl.
        split; [apply (slots_ok_frame N s); auto|]. split; [reflexivity|].
        destruct Hsl as (_ & Hc & _). repeat split; auto; lia.
      - assert (Hadm : admission N s1 = true).
        { destruct (admission N s1); auto. unfold poll_listen_entry in Ein.
          rewrite poll_revents_disabled in Ein. discriminate. }
        assert (Hlt : num_connected_clients (set_pollfds (set_pollfds s1 P) P') < N).
        { simpl. unfold admission in Hadm. simpl in Hadm. destruct Hsl as (_ & Hc & _).
          apply andb_true_iff in Hadm as [Hadm _]. apply negb_true_iff, Z.eqb_neq in Hadm.
          fold c in Hadm. lia. }
        destruct (poll_accept_ok N t (set_pollfds (set_pollfds s1 P) P') b s4 ltac:(apply (slots_ok_frame N s); auto) Hlt HN Hacc)
          as (Hsl4 & Hc4 & Hsame & Hp4 & Hsig4 & Hq4).
        simpl in Hc4, Hsame, Hp4, Hsig4, Hq4, Hlt. fold c in Hc4, Hsame, Hlt.
        split; [exact Hsl4|]. split; [exact Hp4|].
        split; [lia|]. split; [lia|]. split; [congruence|]. split.
        + intros i Hi. apply Hsame. lia.
        + split; auto. }
    destruct Hs4 as (Hsl4 & Hp4 & HcN & Hc4 & Hno & Hsame & Hsig4 & Hq4).
    change 0 with (Z.of_nat 0) in Hrange.
    destruct (poll_process_range N srv t (Z.to_nat (num_connected_clients s4)) 0 s4 d s5 Hsl4 HN) as (Hsl5 & Hc5 & Hp5 & Hsig5 & Hout5);
      [|exact Hrange|].
    + intros i Hi p Hp Hbits. rewrite Hp4 in Hp.
      destruct (Z_lt_le_dec (Z.of_nat i) c) as [Hic|Hic].
      * destruct (lookup_lt_is_Some_2 (conns s) i) as [ci Hci].
        { destruct Hsl as (Hl & _). lia. }
        exists ci. rewrite Hsame by lia. split; auto.
        unfold P' in Hp. rewrite list_lookup_imap, (HPs i ci Hic Hci) in Hp. simpl in Hp.
        injection Hp as <-. unfold poll_slot_entry in Hbits.
        destruct (is_live ci); auto. rewrite poll_revents_disabled in Hbits.
        destruct Hbits as [Hb|Hb]; exfalso; apply Hb; reflexivity.
      * rewrite HP'o in Hp by lia. rewrite Hz in Hp by lia. injection Hp as <-.
        destruct Hbits as [Hb|Hb]; exfalso; apply Hb; reflexivity.
    + split; [split; [exact Hsl5|split]|].
      * rewrite Hp5, Hp4. unfold P'. rewrite length_imap, HPl. exact Hlen.
      * intros j Hj. rewrite Hp5, Hp4, HP'o by lia. apply Hz. lia.
      * unfold monotone. split; [split|split].
        -- lia.
        -- intros Hs. rewrite Hsig5. apply Hsig4. unfold s1. simpl. rewrite Hs. reflexivity.
        -- intros Hq. unfold quiet. rewrite Hout5. apply Hq4. exact Hq.
        -- intros Ha. rewrite Hc5. apply Hno. exact Ha.
Qed.

Lemma poll_setup_ok N su srv s :
  0 <= N -> PollServer.setup su (PollServer.init N) = Done srv s ->
  poll_inv N s /\ quiet s /\ s = PollServer.init N.
Proof.
  intros HN H. unfold PollServer.setup in H.
  destruct (su_alloc su); simpl in H; [|discriminate].
  destruct (su_src_file su) as [file|]; simpl in H; [|discriminate].
  destruct (su_sigaction su); simpl in H; [|discriminate].
  destruct (su_socket su) as [lfd|]; simpl in H; [|discriminate].
  destruct (su_listen_setup su); simpl in H; [|discriminate].
  injection H as _ <-.
  split; [|split; [unfold quiet; simpl; apply not_elem_of_nil|reflexivity]].
  split; [apply slots_ok_init; auto|]. simpl. split.
  - apply length_replicate.
  - intros j Hj. apply lookup_replicate_2. lia.
Qed.

Lemma poll_event_loop_ok N srv ts s b s' :
  poll_inv N s -> N < 2 ^ 64 -> PollServer.event_loop N srv ts s = Done b s' ->
  poll_inv N s' /\ monotone s s' /\ (quiet s -> quiet s') /\
  (admission N s = false -> num_connected_clients s' = num_connected_clients s).
Proof.
  revert s. induction ts as [|t ts IH]; intros s Hinv HN H; simpl in H.
  - injection H as _ <-. split; [exact Hinv|]. unfold monotone. repeat split; auto; lia.
  - apply bind_Done in H as (r & s1 & Hit & H).
    destruct (poll_iteration_ok N srv t s r s1 Hinv HN Hit) as (Hinv1 & [Hc1 Hs1] & Hq1 & Ha1).
    assert (Hadm1 : admission N s = false -> admission N s1 = false /\
                    num_connected_clients s1 = num_connected_clients s).
    { intros Ha. assert (Hc : num_connected_clients s1 = num_connected_clients s).
      { apply Ha1. destruct (admission N (set_sigint s (received_sigint s || t_sig t))) eqn:E; auto.
        rewrite (admission_sigint N s (t_sig t) E) in Ha. discriminate. }
      split; auto. unfold admission in *. rewrite Hc.
      destruct (num_connected_clients s =? N); auto. simpl in *.
      rewrite negb_false_iff in Ha. rewrite (Hs1 Ha). reflexivity. }
    destruct r.
    + injection H as _ <-. split; [exact Hinv1|]. split; [split; auto|]. split; auto.
      intros Ha. apply (proj2 (Hadm1 Ha)).
    + destruct (IH s1 Hinv1 HN H) as (Hinv2 & [Hc2 Hs2] & Hq2 & Ha2).
      split; [exact Hinv2|]. unfold monotone. repeat split; auto; try lia.
      intros Ha. destruct (Hadm1 Ha) as [Ha' Hc']. rewrite Ha2; auto.
Qed.

Lemma epoll_run_ok N su ts srv b s :
  0 <= N -> N < 2 ^ 64 ->
  EpollServer.run_loop N su ts (EpollServer.init N) = Done (srv, b) s ->
  epoll_inv N srv s /\ quiet s.
Proof.
  intros HN0 HN H. unfold EpollServer.run_loop in H.
  apply bind_Done in H as (srv0 & s1 & Hsu & H).
  apply bind_Done in H as (b0 & s2 & Hel & H).
  cbv [mret ST_ret] in H. injection H as <- <- <-.
  destruct (epoll_setup_ok N su srv0 s1 HN0 Hsu) as (Hinv & Hq & _).
  destruct (epoll_event_loop_ok N srv0 ts s1 b0 s2 Hinv HN Hel) as (Hinv2 & _ & Hq2 & _).
  auto.
Qed.

Lemma poll_run_ok N su ts srv b s :
  0 <= N -> N < 2 ^ 64 ->
  PollServer.run_loop N su ts (PollServer.init N) = Done (srv, b) s ->
  poll_inv N s /\ quiet s.
Proof.
  intros HN0 HN H. unfold PollServer.run_loop in H.
  apply bind_Done in H as (srv0 & s1 & Hsu & H).
  apply bind_Done in H as (b0 & s2 & Hel & H).
  cbv [mret ST_ret] in H. injection H as <- <- <-.
  destruct (poll_setup_ok N su srv0 s1 HN0 Hsu) as (Hinv & Hq & _).
  destruct (poll_event_loop_ok N srv0 ts s1 b0 s2 Hinv HN Hel) as (Hinv2 & _ & Hq2 & _).
  auto.
Qed.

Lemma epoll_event_loop_app N srv ts ts' s :
  EpollServer.event_loop N srv (ts ++ ts') s =
  st_bind (EpollServer.event_loop N srv ts)
    (fun b => if b then mret true else EpollServer.event_loop N srv ts') s.
Proof.
  revert s. induction ts as [|t ts IH]; intros s; [reflexivity|].
  simpl. unfold st_bind. destruct (EpollServer.iteration N srv t s) as [r s1|c s1]; [|reflexivity].
  destruct r; [reflexivity|]. specialize (IH s1). unfold st_bind in IH. exact IH.
Qed.

Lemma poll_event_loop_app N srv ts ts' s :
  PollServer.event_loop N srv (ts ++ ts') s =
  st_bind (PollServer.event_loop N srv ts)
    (fun b => if b then mret true else PollServer.event_loop N srv ts') s.
Proof.
  revert s. induction ts as [|t ts IH]; intros s; [reflexivity|].
  simpl. unfold st_bind. destruct (PollServer.iteration N srv t s) as [r s1|c s1]; [|reflexivity].
  destruct r; [reflexivity|]. specialize (IH s1). unfold st_bind in IH. exact IH.
Qed.

Lemma epoll_top_break N srv t s top s' :
  EpollServer.loop_top N srv t s = Done top s' ->
  let s1 := set_sigint s (received_sigint s || t_sig t) in
  (top = None <-> num_active_clients s1 = 0 /\ admission N s1 = false).
Proof.
  intros H s1. unfold EpollServer.loop_top in H.
  apply seq_Done in H as (a & s2 & H1 & H). injection H1 as _ <-.
  apply bind_Done in H as (x & s3 & H1 & H). injection H1 as <- <-. fold s1 in H.
  destruct ((num_active_clients s1 =? 0) && negb (admission N s1)) eqn:Eb.
  - injection H as <- _. apply andb_true_iff in Eb as [E1 E2].
    apply Z.eqb_eq in E1. apply negb_true_iff in E2. tauto.
  - apply seq_Done in H as (u & s4 & _ & H). injection H as <- _.
    split; [discriminate|]. intros [E1 E2].
    rewrite E1, E2 in Eb. discriminate.
Qed.

Lemma poll_top_break N srv t s top s' :
  PollServer.loop_top N srv t s = Done top s' ->
  let s1 := set_sigint s (received_sigint s || t_sig t) in
  (top = None <-> num_active_clients s1 = 0 /\ admission N s1 = false).
Proof.
  intros H s1. unfold PollServer.loop_top in H.
  apply seq_Done in H as (a & s2 & H1 & H). injection H1 as _ <-.
  apply bind_Done in H as (x & s3 & H1 & H). injection H1 as <- <-. fold s1 in H.
  destruct ((num_active_clients s1 =? 0) && negb (admission N s1)) eqn:Eb.
  - injection H as <- _. apply andb_true_iff in Eb as [E1 E2].
    apply Z.eqb_eq in E1. apply negb_true_iff in E2. tauto.
  - apply seq_Done in H as (u & s4 & _ & H). apply seq_Done in H as (u' & s5 & _ & H).
    injection H as <- _.
    split; [discriminate|]. intros [E1 E2].
    rewrite E1, E2 in Eb. discriminate.
Qed.

Lemma epoll_iteration_break N srv t s r s' :
  EpollServer.iteration N srv t s = Done r s' ->
  (r = LoopBreak <->
   num_active_clients (set_sigint s (received_sigint s || t_sig t)) = 0 /\
   admission N (set_sigint s (received_sigint s || t_sig t)) = false).
Proof.
  intros H. unfold EpollServer.iteration in H.
  apply bind_Done in H as (top & s1 & Htop & H).
  pose proof (epoll_top_break N srv t s top s1 Htop) as Hb. simpl in Hb.
  rewrite <- Hb. destruct top as [a|].
  - destruct (t_epoll t) as [raw|]; [|discriminate].
    apply bind_Done in H as (s2 & s3 & _ & H). apply seq_Done in H as (u & s4 & _ & H).
    injection H as <- _. split; discriminate.
  - injection H as <- _. tauto.
Qed.

Lemma poll_iteration_break N srv t s r s' :
  PollServer.iteration N srv t s = Done r s' ->
  (r = LoopBreak <->
   num_active_clients (set_sigint s (received_sigint s || t_sig t)) = 0 /\
   admission N (set_sigint s (received_sigint s || t_sig t)) = false).
Proof.
  intros H. unfold PollServer.iteration in H.
  apply bind_Done in H as (top & s1 & Htop & H).
  pose proof (poll_top_break N srv t s top s1 Htop) as Hb. simpl in Hb.
  rewrite <- Hb. destruct top as [a|].
  - destruct (t_poll t) as [rv|]; [|discriminate].
    run_inv H. injection H as <- _. split; discriminate.
  - injection H as <- _. tauto.
Qed.

Lemma epoll_conn_fail N srv t i c ev s :
  slots_ok N s -> epoll_interest_ok srv s -> N < 2 ^ 64 ->
  conns s !! i = Some c -> is_live c = true -> 0 <= client_sock_fd c ->
  t_ctl t (1 + Z.of_nat i) = true -> t_close t (Z.of_nat i) = true ->
  (Z.land ev EpollServer.EPOLLHUP <> 0 \/
   (Z.land ev EpollServer.EPOLLHUP = 0 /\ Z.land ev EpollServer.EPOLLOUT <> 0 /\
    exists c' sent, advance srv c (fst (t_io t (Z.of_nat i))) (snd (t_io t (Z.of_nat i)))
                    = Some (false, c', sent))) ->
  exists c', state c' = TRANSFER_FINISHED /\
    EpollServer.conn_event_step srv t (1 + Z.of_nat i) ev s =
    Done tt (mkState (<[i := c']> (conns s)) (num_active_clients s - 1)
            (num_connected_clients s) (received_sigint s) (stdout s)
            (accept_new_connections_prev s)
            (filter (fun r => negb (reg_fd r =? client_sock_fd c)) (interest s))
            (pollfds s)).
Proof.
  intros Hsl Hint HN Hi Hl Hfd Hctl Hcl Hfail.
  assert (Hil : (i < length (conns s))%nat) by (eapply lookup_lt_Some; eauto).
  assert (Hsz : size_t (1 + Z.of_nat i - 1) = Z.of_nat i).
  { replace (1 + Z.of_nat i - 1) with (Z.of_nat i) by lia.
    apply size_t_small. destruct Hsl as (Hlen & _). lia. }
  assert (Hreg : EpollServer.registered (client_sock_fd c) (interest s) = true).
  { unfold EpollServer.registered. apply existsb_exists. exists (epoll_slot_reg i c).
    split; [apply list_elem_of_In, (proj2 Hint); right; eauto|]. apply Z.eqb_refl. }
  assert (Hcond : (client_sock_fd c <? 0) || negb (EpollServer.registered (client_sock_fd c) (interest s))
                  || negb (t_ctl t (1 + Z.of_nat i)) = false).
  { rewrite Hreg, Hctl. replace (client_sock_fd c <? 0) with false by (symmetry; apply Z.ltb_ge; lia).
    reflexivity. }
  pose proof (live_active N s i c Hsl Hi Hl HN) as Ha1.
  unfold EpollServer.conn_event_step, EpollServer.epoll_conn_stop_waiting_on_socket,
    EpollServer.epoll_ctl_del.
  rewrite Hsz.
  cbv [st_get st_put st_modify st_exit mret ST_ret st_bind mbind ST_bind printf
    sigint_arrives program_in_shutdown get_conn put_conn alter_conn increment_connected
    increment_active decrement_active server_close_conn_socket].
  rewrite Nat2Z.id, Hi. simpl.
  destruct Hfail as [Hhup|(Hhup & Hout & c' & sent & Hadv)].
  - replace (Z.land ev EpollServer.EPOLLHUP =? 0) with false by (symmetry; apply Z.eqb_neq; exact Hhup).
    simpl. rewrite Hcond, Hcl. simpl. exists (set_state c TRANSFER_FINISHED).
    split; [reflexivity|]. rewrite Ha1, (alter_as_insert _ _ _ _ Hi). reflexivity.
  - rewrite Hhup. simpl.
    replace (Z.land ev EpollServer.EPOLLOUT =? 0) with false by (symmetry; apply Z.eqb_neq; exact Hout).
    simpl. destruct (t_io t (Z.of_nat i)) as [rd o]. simpl in Hadv.
    destruct (advance_result srv c rd o false c' sent Hl Hadv) as (Hfd' & _ & Hfin).
    rewrite Hadv. simpl. rewrite Hfd'. simpl. rewrite Hcond, Hcl. simpl.
    exists (set_state c' TRANSFER_FINISHED). split; [reflexivity|].
    rewrite Ha1, alter_insert_eq by auto. reflexivity.
Qed.

Lemma poll_conn_fail N srv t i c p s :
  slots_ok N s -> N < 2 ^ 64 ->
  conns s !! i = Some c -> is_live c = true -> pollfds s !! S i = Some p ->
  t_close t (Z.of_nat i) = true ->
  (Z.land (pfd_revents p) PollServer.POLLHUP <> 0 \/
   (Z.land (pfd_revents p) PollServer.POLLHUP = 0 /\ Z.land (pfd_revents p) PollServer.POLLOUT <> 0 /\
    exists c' sent, advance srv c (fst (t_io t (Z.of_nat i))) (snd (t_io t (Z.of_nat i)))
                    = Some (false, c', sent))) ->
  exists c', state c' = TRANSFER_FINISHED /\
    PollServer.conn_poll_step srv t (Z.of_nat i) s =
    Done tt (set_active (set_conns s (<[i := c']> (conns s))) (num_active_clients s - 1)).
Proof.
  intros Hsl HN Hi Hl Hp Hcl Hfail.
  pose proof (live_active N s i c Hsl Hi Hl HN) as Ha1.
  unfold PollServer.conn_poll_step, PollServer.get_pollfd.
  cbv [st_get st_put st_modify st_exit mret ST_ret st_bind mbind ST_bind printf
    sigint_arrives program_in_shutdown get_conn put_conn alter_conn increment_connected
    increment_active decrement_active server_close_conn_socket].
  replace (Z.to_nat (1 + Z.of_nat i)) with (S i) by lia. rewrite Hp. simpl.
  destruct Hfail as [Hhup|(Hhup & Hout & c' & sent & Hadv)].
  - replace (Z.land (pfd_revents p) PollServer.POLLHUP =? 0) with false
      by (symmetry; apply Z.eqb_neq; exact Hhup).
    simpl. rewrite Hcl. simpl. exists (set_state c TRANSFER_FINISHED).
    split; [reflexivity|]. rewrite Nat2Z.id, Ha1, (alter_as_insert _ _ _ _ Hi). reflexivity.
  - rewrite Hhup. simpl.
    replace (Z.land (pfd_revents p) PollServer.POLLOUT =? 0) with false
      by (symmetry; apply Z.eqb_neq; exact Hout).
    simpl. rewrite Nat2Z.id, Hi. simpl. destruct (t_io t (Z.of_nat i)) as [rd o]. simpl in Hadv.
    destruct (advance_result srv c rd o false c' sent Hl Hadv) as (_ & _ & Hfin).
    rewrite Hadv. simpl. rewrite Hcl. simpl.
    exists c'. split; [auto|]. rewrite Ha1. reflexivity.
Qed.

Lemma admission_stays N s s' :
  admission N s = false -> num_connected_clients s' = num_connected_clients s ->
  (received_sigint s = true -> received_sigint s' = true) -> admission N s' = false.
Proof.
  unfold admission. intros Ha Hc Hs. rewrite Hc.
  destruct (num_connected_clients s =? N); [reflexivity|]. simpl in *.
  rewrite negb_false_iff in Ha. rewrite (Hs Ha). reflexivity.
Qed.

Lemma slots_ok_set_pollfds N s P : slots_ok N s -> slots_ok N (set_pollfds s P).
Proof. intros H. exact H. Qed.

(** The failing [epoll_ctl] and [close] calls of the loops: each one
    ends the process with [EXIT_FAILURE]. *)

Lemma epoll_accept_ctl_fail t s :
  t_ctl t (1 + num_connected_clients s) = false ->
  exists s', EpollServer.accept_event t s = Exited EXIT_FAILURE s'.
Proof.
  intros Hctl.
  unfold EpollServer.accept_event, server_accept_connection_request,
    EpollServer.epoll_conn_wait_on_socket, EpollServer.epoll_ctl_add.
  cbv [st_get st_put st_modify st_exit mret ST_ret st_bind mbind ST_bind printf
    sigint_arrives program_in_shutdown get_conn put_conn alter_conn increment_connected
    increment_active decrement_active].
  destruct (t_accept t) as [fd|].
  - destruct (t_sockopt t); simpl; [|eexists; reflexivity].
    rewrite Hctl, orb_true_r. simpl. eexists; reflexivity.
  - simpl. destruct (received_sigint s || t_sig_accept t); simpl; [|eexists; reflexivity].
    rewrite Hctl, orb_true_r. simpl. eexists; reflexivity.
Qed.

Lemma epoll_conn_release_fail srv t s i c ev :
  Z.of_nat i < 2 ^ 64 -> conns s !! i = Some c ->
  t_ctl t (1 + Z.of_nat i) = false \/ t_close t (Z.of_nat i) = false ->
  (Z.land ev EpollServer.EPOLLHUP <> 0 \/
   (Z.land ev EpollServer.EPOLLHUP = 0 /\ Z.land ev EpollServer.EPOLLOUT <> 0 /\
    exists c' sent, advance srv c (fst (t_io t (Z.of_nat i))) (snd (t_io t (Z.of_nat i)))
                    = Some (false, c', sent))) ->
  exists s', EpollServer.conn_event_step srv t (1 + Z.of_nat i) ev s = Exited EXIT_FAILURE s'.
Proof.
  intros Hi Hc Hrel Hfail.
  assert (Hsz : size_t (1 + Z.of_nat i - 1) = Z.of_nat i).
  { replace (1 + Z.of_nat i - 1) with (Z.of_nat i) by lia. apply size_t_small. lia. }
  unfold EpollServer.conn_event_step, EpollServer.epoll_conn_stop_waiting_on_socket,
    EpollServer.epoll_ctl_del.
  rewrite Hsz.
  cbv [st_get st_put st_modify st_exit mret ST_ret st_bind mbind ST_bind printf
    sigint_arrives program_in_shutdown get_conn put_conn alter_conn increment_connected
    increment_active decrement_active server_close_conn_socket].
  rewrite Nat2Z.id, Hc. simpl.
  destruct Hfail as [Hhup|(Hhup & Hout & c' & sent & Hadv)].
  - replace (Z.land ev EpollServer.EPOLLHUP =? 0) with false
      by (symmetry; apply Z.eqb_neq; exact Hhup).
    simpl. destruct Hrel as [Hctl|Hcl].
    + rewrite Hctl, orb_true_r. simpl. eexists; reflexivity.
    + destruct (_ || _ || _); simpl; [eexists; reflexivity|].
      rewrite Hcl. eexists; reflexivity.
  - rewrite Hhup. simpl.
    replace (Z.land ev EpollServer.EPOLLOUT =? 0) with false
      by (symmetry; apply Z.eqb_neq; exact Hout).
    simpl. destruct (t_io t (Z.of_nat i)) as [rd o]. simpl in Hadv. rewrite Hadv. simpl.
    destruct Hrel as [Hctl|Hcl].
    + rewrite Hctl, orb_true_r. simpl. eexists; reflexivity.
    + destruct (_ || _ || _); simpl; [eexists; reflexivity|].
      rewrite Hcl. eexists; reflexivity.
Qed.

Lemma epoll_listener_ctl_fail N srv t s :
  accept_new_connections_prev s = true ->
  admission N (set_sigint s (received_sigint s || t_sig t)) = false ->
  num_active_clients s <> 0 -> t_ctl t 0 = false ->
  exists s', EpollServer.loop_top N srv t s = Exited EXIT_FAILURE s'.
Proof.
  intros Hp Ha Hn Hctl.
  unfold EpollServer.loop_top, EpollServer.epoll_server_stop_waiting_for_client,
    EpollServer.epoll_ctl_del.
  cbv [st_get st_put st_modify st_exit mret ST_ret st_bind mbind ST_bind sigint_arrives].
  cbn [num_active_clients accept_new_connections_prev set_sigint].
  rewrite Ha. replace (num_active_clients s =? 0) with false
    by (symmetry; apply Z.eqb_neq; exact Hn).
  rewrite Hp. simpl. rewrite Hctl, orb_true_r. simpl. eexists; reflexivity.
Qed.

Lemma poll_conn_close_fail srv t s i c p :
  conns s !! i = Some c -> pollfds s !! S i = Some p ->
  t_close t (Z.of_nat i) = false ->
  (Z.land (pfd_revents p) PollServer.POLLHUP <> 0 \/
   (Z.land (pfd_revents p) PollServer.POLLHUP = 0 /\ Z.land (pfd_revents p) PollServer.POLLOUT <> 0 /\
    exists c' sent, advance srv c (fst (t_io t (Z.of_nat i))) (snd (t_io t (Z.of_nat i)))
                    = Some (false, c', sent))) ->
  exists s', PollServer.conn_poll_step srv t (Z.of_nat i) s = Exited EXIT_FAILURE s'.
Proof.
  intros Hi Hp Hcl Hfail.
  unfold PollServer.conn_poll_step, PollServer.get_pollfd.
  cbv [st_get st_put st_modify st_exit mret ST_ret st_bind mbind ST_bind printf
    sigint_arrives program_in_shutdown get_conn put_conn alter_conn increment_connected
    increment_active decrement_active server_close_conn_socket].
  replace (Z.to_nat (1 + Z.of_nat i)) with (S i) by lia. rewrite Hp. simpl.
  destruct Hfail as [Hhup|(Hhup & Hout & c' & sent & Hadv)].
  - replace (Z.land (pfd_revents p) PollServer.POLLHUP =? 0) with false
      by (symmetry; apply Z.eqb_neq; exact Hhup).
    simpl. rewrite Hcl. eexists; reflexivity.
  - rewrite Hhup. simpl.
    replace (Z.land (pfd_revents p) PollServer.POLLOUT =? 0) with false
      by (symmetry; apply Z.eqb_neq; exact Hout).
    simpl. rewrite Nat2Z.id, Hi. simpl. destruct (t_io t (Z.of_nat i)) as [rd o]. simpl in Hadv.
    rewrite Hadv. simpl. rewrite Hcl. eexists; reflexivity.
Qed.

(* ================================================================== *)
(** * The claims *)

(** C4 (corrected), the counterexample.  A short write of the size (3 of
    the 8 bytes accepted) while [errno] does not hold EAGAIN does not
    leave the state unchanged: the connection is finished. *)
Lemma send_file_size_short_write_finishes :
  server_send_file_size (mkServer (repeat 0 2500) 3) (mkConn 5 0 SEND_FILE_SIZE)
    (mkWrite 3 0)
  = (false, mkConn 5 0 TRANSFER_FINISHED, [0; 0; 0]) /\
  mkConn 5 0 TRANSFER_FINISHED <> mkConn 5 0 SEND_FILE_SIZE.
Proof. split; [vm_compute; reflexivity | discriminate]. Qed.

(** C4 (corrected), the amended claim.  One [server_send_file_size] step:
    when [write] returns all 8 bytes the connection moves to
    [SEND_DATA_BLOCK] at offset 0 and the advance succeeds; when it
    returns less (a short write or -1) only [errno] decides: EAGAIN leaves
    the connection unchanged and succeeds, anything else finishes the
    connection and fails. *)
Theorem send_file_size_step :
  forall srv conn o b conn' sent,
    server_send_file_size srv conn o = (b, conn', sent) ->
    (8 <= wr_ret o /\ b = true /\
     conn' = mkConn (client_sock_fd conn) 0 SEND_DATA_BLOCK) \/
    (wr_ret o < 8 /\ wr_errno o = EAGAIN /\ b = true /\ conn' = conn) \/
    (wr_ret o < 8 /\ wr_errno o <> EAGAIN /\ b = false /\
     conn' = set_state conn TRANSFER_FINISHED).
Proof. intros srv conn o b conn' sent H. exact (send_file_size_cases srv conn o b conn' sent H). Qed.

Lemma send_file_size_step_witness :
  let srv := mkServer (repeat 0 2500) 3 in
  let conn := mkConn 5 0 SEND_FILE_SIZE in
  server_send_file_size srv conn (mkWrite 8 0)
    = (true, mkConn 5 0 SEND_DATA_BLOCK, [0; 0; 0; 0; 0; 0; 9; 196]) /\
  ((8 <= 8 /\ true = true /\ mkConn 5 0 SEND_DATA_BLOCK = mkConn 5 0 SEND_DATA_BLOCK) \/
   (8 < 8 /\ 0 = EAGAIN /\ true = true /\ mkConn 5 0 SEND_DATA_BLOCK = conn) \/
   (8 < 8 /\ 0 <> EAGAIN /\ true = false /\
    mkConn 5 0 SEND_DATA_BLOCK = set_state conn TRANSFER_FINISHED)).
Proof.
  simpl. assert (H : server_send_file_size (mkServer (repeat 0 2500) 3)
                       (mkConn 5 0 SEND_FILE_SIZE) (mkWrite 8 0)
                     = (true, mkConn 5 0 SEND_DATA_BLOCK, [0; 0; 0; 0; 0; 0; 9; 196]))
    by (vm_compute; reflexivity).
  split; [exact H|].
  exact (send_file_size_step _ _ _ _ _ _ H).
Defined.

(** C9.  For a connection in [SEND_FILE_SIZE] or [SEND_DATA_BLOCK], the
    advance the loop dispatches returns false exactly when it leaves the
    connection [TRANSFER_FINISHED]; a data step that brings the offset to
    the file size (natural completion) returns false, the result on which
    the loop deregisters and closes failed connections. *)
Theorem advance_false_iff_finished :
  forall srv conn rd o b conn' sent,
    state conn = SEND_FILE_SIZE \/ state conn = SEND_DATA_BLOCK ->
    advance srv conn rd o = Some (b, conn', sent) ->
    (b = false <-> state conn' = TRANSFER_FINISHED) /\
    (state conn = SEND_DATA_BLOCK -> src_file_offset conn' = src_file_size srv ->
     b = false /\ state conn' = TRANSFER_FINISHED).
Proof.
  intros srv conn rd o b conn' sent Hst Hadv. unfold advance in Hadv.
  destruct Hst as [Hst|Hst]; rewrite Hst in Hadv; injection Hadv as Hadv.
  - apply send_file_size_cases in Hadv.
    destruct Hadv as [(_ & -> & ->)|[(_ & _ & -> & ->)|(_ & _ & -> & ->)]];
      simpl; rewrite ?Hst; split; try split; intros; congruence.
  - unfold server_send_file_block in Hadv.
    destruct (pread_sys _ _ _ _) as [rret blk].
    destruct (write_sys _ _) as [[wret e] s'].
    revert Hadv; case_ifs; intros Hadv; inversion Hadv; subst; clear Hadv;
      simpl; rewrite ?Hst; bool_facts;
      split; try split; intros; try congruence; try lia.
Qed.

Lemma advance_false_iff_finished_witness :
  advance (mkServer (repeat 0 2500) 3) (mkConn 5 2048 SEND_DATA_BLOCK) false
    (mkWrite 452 0)
  = Some (false, mkConn 5 2500 TRANSFER_FINISHED, repeat 0 452) /\
  ((false = false <-> TRANSFER_FINISHED = TRANSFER_FINISHED) /\
   (SEND_DATA_BLOCK = SEND_DATA_BLOCK -> 2500 = src_file_size (mkServer (repeat 0 2500) 3) ->
    false = false /\ TRANSFER_FINISHED = TRANSFER_FINISHED)).
Proof.
  assert (H : advance (mkServer (repeat 0 2500) 3) (mkConn 5 2048 SEND_DATA_BLOCK) false
                (mkWrite 452 0)
              = Some (false, mkConn 5 2500 TRANSFER_FINISHED, repeat 0 452))
    by (vm_compute; reflexivity).
  split; [exact H|].
  exact (advance_false_iff_finished _ (mkConn 5 2048 SEND_DATA_BLOCK) _ _ _ _ _
           (or_intror eq_refl) H).
Defined.

(** C2.  A complete transfer of any source file (shorter than 2^64
    bytes), in which every [pread] succeeds and every [write] accepts what
    it is offered, with enough writability events: the server puts on the
    wire the size as 8 big-endian bytes followed, without framing, by the
    data blocks; the blocks concatenate to the file, are all of 1024 bytes
    except the last, which has at most 1024, and their offsets strictly
    increase; and the client, however [recv] splits the stream, ends with
    a destination file identical to the source and exits with status 0
    whenever its [open] and its [fallocate] of the announced size succeed;
    when one of them fails it exits with status 1 (for an empty file
    always: [fallocate] of length 0 fails with EINVAL). *)
Theorem file_roundtrip srv fd off n caps fs :
  src_file_size srv < 2 ^ 64 ->
  2 + src_file_size srv / TRANSFER_BLOCK_SIZE <= Z.of_nat n ->
  let tr := conn_run srv (mkConn fd off SEND_FILE_SIZE) (full_events n) in
  wire_bytes tr = rev (le_store 8 (src_file_size srv)) ++ concat (data_blocks tr) /\
  concat (data_blocks tr) = src_file srv /\
  (exists full lastb, data_blocks tr = full ++ [lastb] /\
     Forall (fun b => length b = Z.to_nat TRANSFER_BLOCK_SIZE) full /\
     (length lastb <= Z.to_nat TRANSFER_BLOCK_SIZE)%nat) /\
  StronglySorted Z.lt (data_offsets srv tr) /\
  client_main (wire_bytes tr) caps fs
  = if dst_file_opens fs (src_file_size srv) then ClientExit EXIT_SUCCESS (src_file srv)
    else ClientExit EXIT_FAILURE [].
Proof.
  intros Hsz Hn tr.
  pose proof (run_offsets srv (mkConn fd off SEND_FILE_SIZE) (full_events n) Hsz
                (or_introl eq_refl)) as [Hsorted _].
  fold tr in Hsorted.
  destruct n as [|n]; [unfold TRANSFER_BLOCK_SIZE in Hn;
    pose proof (Z.div_pos (src_file_size srv) 1024 ltac:(unfold src_file_size; lia) ltac:(lia)); lia|].
  assert (Htr : tr = mkStep (mkConn fd off SEND_FILE_SIZE) (EvOut false full_write) true
                       (mkConn fd 0 SEND_DATA_BLOCK) (rev (le_store 8 (src_file_size srv)))
                     :: conn_run srv (mkConn fd 0 SEND_DATA_BLOCK) (full_events n)).
  { subst tr. rewrite full_events_S. cbn [conn_run]. unfold advance. cbn [state].
    rewrite send_file_size_full by exact Hsz. reflexivity. }
  destruct (data_phase_full srv (mkConn fd 0 SEND_DATA_BLOCK) n Hsz eq_refl
              ltac:(simpl; unfold src_file_size; lia) ltac:(simpl; rewrite Z.sub_0_r; lia))
    as (Hall & Hcat & Hblocks).
  assert (Hdb : data_blocks tr = map st_sent (conn_run srv (mkConn fd 0 SEND_DATA_BLOCK) (full_events n))).
  { rewrite Htr, data_blocks_cons. simpl (TRANSFER_STATE_eqb _ _). rewrite app_nil_l.
    apply data_blocks_all. exact Hall. }
  assert (Hwire : wire_bytes tr = rev (le_store 8 (src_file_size srv)) ++ concat (data_blocks tr)).
  { rewrite Hdb, Htr. reflexivity. }
  assert (Hfile : concat (data_blocks tr) = src_file srv).
  { rewrite Hdb, Hcat. reflexivity. }
  split; [exact Hwire|]. split; [exact Hfile|]. split; [rewrite Hdb; exact Hblocks|].
  split; [exact Hsorted|].
  rewrite Hwire, Hfile. unfold src_file_size in *. apply client_main_ok. exact Hsz.
Qed.

Lemma file_roundtrip_witness :
  client_main (wire_bytes (conn_run (sample_server 0) (mkConn 4 0 SEND_FILE_SIZE) (full_events 2)))
    (fun _ => 700) ample_fs = ClientExit 1 (src_file (sample_server 0)) /\
  client_main (wire_bytes (conn_run (sample_server 500) (mkConn 4 0 SEND_FILE_SIZE) (full_events 2)))
    (fun _ => 700) ample_fs = ClientExit 0 (src_file (sample_server 500)) /\
  client_main (wire_bytes (conn_run (sample_server 1024) (mkConn 4 0 SEND_FILE_SIZE) (full_events 3)))
    (fun _ => 700) ample_fs = ClientExit 0 (src_file (sample_server 1024)) /\
  client_main (wire_bytes (conn_run (sample_server 5000) (mkConn 4 0 SEND_FILE_SIZE) (full_events 6)))
    (fun k => Z.of_nat (k mod 3) * 400) ample_fs = ClientExit 0 (src_file (sample_server 5000)) /\
  client_main (wire_bytes (conn_run (sample_server 500) (mkConn 4 0 SEND_FILE_SIZE) (full_events 2)))
    (fun _ => 700) (mkFileSystem true (fun len => len <? 100)) = ClientExit 1 [].
Proof.
  split; [|split; [|split; [|split]]].
  - rewrite (proj2 (proj2 (proj2 (proj2 (file_roundtrip (sample_server 0) 4 0 2 (fun _ => 700) ample_fs
             ltac:(vm_compute; reflexivity) ltac:(vm_compute; discriminate)))))).
    vm_compute. reflexivity.
  - rewrite (proj2 (proj2 (proj2 (proj2 (file_roundtrip (sample_server 500) 4 0 2 (fun _ => 700) ample_fs
             ltac:(vm_compute; reflexivity) ltac:(vm_compute; discriminate)))))).
    vm_compute. reflexivity.
  - rewrite (proj2 (proj2 (proj2 (proj2 (file_roundtrip (sample_server 1024) 4 0 3 (fun _ => 700) ample_fs
             ltac:(vm_compute; reflexivity) ltac:(vm_compute; discriminate)))))).
    vm_compute. reflexivity.
  - rewrite (proj2 (proj2 (proj2 (proj2 (file_roundtrip (sample_server 5000) 4 0 6
             (fun k => Z.of_nat (k mod 3) * 400) ample_fs
             ltac:(vm_compute; reflexivity) ltac:(vm_compute; discriminate)))))).
    vm_compute. reflexivity.
  - rewrite (proj2 (proj2 (proj2 (proj2 (file_roundtrip (sample_server 500) 4 0 2 (fun _ => 700)
             (mkFileSystem true (fun len => len <? 100))
             ltac:(vm_compute; reflexivity) ltac:(vm_compute; discriminate)))))).
    vm_compute. reflexivity.
Defined.

(** C3.  For a connection that starts by sending the size, whatever
    events it sees: the offsets after its [SEND_DATA_BLOCK] advances that
    did not fail strictly increase and stay within the file size; and if
    its last advance leaves it finished without failing (no hang-up, no
    failing [pread], no short [write]), its final offset is the file
    size. *)
Theorem conn_offsets_monotone srv c evs :
  src_file_size srv < 2 ^ 64 ->
  state c = SEND_FILE_SIZE ->
  StronglySorted Z.lt (data_offsets srv (conn_run srv c evs)) /\
  Forall (fun x => 0 <= x <= src_file_size srv) (data_offsets srv (conn_run srv c evs)) /\
  (forall r, last (conn_run srv c evs) = Some r ->
             state (st_after r) = TRANSFER_FINISHED ->
             step_failed srv r = false ->
             src_file_offset (st_after r) = src_file_size srv).
Proof.
  intros Hsz Hs.
  destruct (run_offsets srv c evs Hsz (or_introl Hs)) as [H1 H2].
  split; [exact H1|]. split.
  - apply (Forall_impl _ _ _ H2). intros x [Hx _]. exact Hx.
  - intros r. apply run_last_offset; [exact Hsz | left; exact Hs].
Qed.

Lemma conn_offsets_monotone_witness :
  let evs := EvOut false (mkWrite (-1) EAGAIN) :: full_events 4 in
  data_offsets (sample_server 2500)
    (conn_run (sample_server 2500) (mkConn 4 0 SEND_FILE_SIZE) evs) = [1024; 2048; 2500] /\
  StronglySorted Z.lt (data_offsets (sample_server 2500)
    (conn_run (sample_server 2500) (mkConn 4 0 SEND_FILE_SIZE) evs)) /\
  Forall (fun x => 0 <= x <= src_file_size (sample_server 2500))
    (data_offsets (sample_server 2500)
       (conn_run (sample_server 2500) (mkConn 4 0 SEND_FILE_SIZE) evs)) /\
  (forall r, last (conn_run (sample_server 2500) (mkConn 4 0 SEND_FILE_SIZE) evs) = Some r ->
             state (st_after r) = TRANSFER_FINISHED ->
             step_failed (sample_server 2500) r = false ->
             src_file_offset (st_after r) = src_file_size (sample_server 2500)).
Proof.
  intros evs. split; [vm_compute; reflexivity|].
  exact (conn_offsets_monotone (sample_server 2500) (mkConn 4 0 SEND_FILE_SIZE) evs
           ltac:(vm_compute; reflexivity) eq_refl).
Defined.

(** C5 (confirmed).  In every state a run of either server reaches
    between two iterations (any sequence of iterations from the start of
    the loop, [max_conns = N] with [0 < N < 2^64] as [main] requires),
    [0 <= num_active_clients <= num_connected_clients <= N].  The
    invariant behind it, [slots_ok] (with [epoll_inv] / [poll_inv]), is
    preserved by every iteration: accept, hang-up and advance. *)
Theorem loop_counts_bounded N su ts srv b s :
  0 < N < 2 ^ 64 ->
  EpollServer.run_loop N su ts (EpollServer.init N) = Done (srv, b) s \/
  PollServer.run_loop N su ts (PollServer.init N) = Done (srv, b) s ->
  0 <= num_active_clients s /\ num_active_clients s <= num_connected_clients s /\
  num_connected_clients s <= N.
Proof.
  intros HN [H|H].
  - destruct (epoll_run_ok N su ts srv b s ltac:(lia) ltac:(lia) H) as ((Hsl & _) & _).
    pose proof (active_le_connected N s Hsl). destruct Hsl as (_ & Hc & _). lia.
  - destruct (poll_run_ok N su ts srv b s ltac:(lia) ltac:(lia) H) as ((Hsl & _) & _).
    pose proof (active_le_connected N s Hsl). destruct Hsl as (_ & Hc & _). lia.
Qed.

Lemma loop_counts_bounded_witness :
  num_active_clients (epoll_sample 2 sample_ticks_2) = 2 /\
  num_connected_clients (epoll_sample 2 sample_ticks_2) = 2 /\
  (0 <= num_active_clients (epoll_sample 2 sample_ticks_2) /\
   num_active_clients (epoll_sample 2 sample_ticks_2) <=
     num_connected_clients (epoll_sample 2 sample_ticks_2) /\
   num_connected_clients (epoll_sample 2 sample_ticks_2) <= 2) /\
  (0 <= num_active_clients (poll_sample 2 sample_ticks_2) /\
   num_active_clients (poll_sample 2 sample_ticks_2) <=
     num_connected_clients (poll_sample 2 sample_ticks_2) /\
   num_connected_clients (poll_sample 2 sample_ticks_2) <= 2).
Proof.
  split; [vm_compute; reflexivity|]. split; [vm_compute; reflexivity|]. split.
  - apply (loop_counts_bounded 2 sample_setup sample_ticks_2 (sample_server 2500) false
             (epoll_sample 2 sample_ticks_2)); [lia|left; vm_compute; reflexivity].
  - apply (loop_counts_bounded 2 sample_setup sample_ticks_2 (sample_server 2500) false
             (poll_sample 2 sample_ticks_2)); [lia|right; vm_compute; reflexivity].
Defined.

(** C6 (confirmed).  An iteration of either loop breaks exactly when,
    after the SIGINT check, [num_active_clients = 0] and
    [accept_new_connections] is false (all [N] clients admitted or
    SIGINT received).  When a run leaves the loop, the final message has
    not been printed yet, and [main] (with the two final [close] calls
    succeeding) prints it once and exits with [EXIT_SUCCESS]. *)
Theorem loop_exit_condition :
  (forall N srv t s r s',
     EpollServer.iteration N srv t s = Done r s' ->
     (r = LoopBreak <->
      num_active_clients (set_sigint s (received_sigint s || t_sig t)) = 0 /\
      admission N (set_sigint s (received_sigint s || t_sig t)) = false)) /\
  (forall N srv t s r s',
     PollServer.iteration N srv t s = Done r s' ->
     (r = LoopBreak <->
      num_active_clients (set_sigint s (received_sigint s || t_sig t)) = 0 /\
      admission N (set_sigint s (received_sigint s || t_sig t)) = false)) /\
  (forall N su ts srv s, 0 < N < 2 ^ 64 ->
     EpollServer.run_loop N su ts (EpollServer.init N) = Done (srv, true) s ->
     quiet s /\
     EpollServer.main N su ts true true (EpollServer.init N) =
       Exited EXIT_SUCCESS (set_stdout s (stdout s ++ ["Transfer finished"%string]))) /\
  (forall N su ts srv s, 0 < N < 2 ^ 64 ->
     PollServer.run_loop N su ts (PollServer.init N) = Done (srv, true) s ->
     quiet s /\
     PollServer.main N su ts true true (PollServer.init N) =
       Exited EXIT_SUCCESS (set_stdout s (stdout s ++ ["Transfer finished"%string]))).
Proof.
  split; [exact epoll_iteration_break|]. split; [exact poll_iteration_break|]. split.
  - intros N su ts srv s HN H.
    destruct (epoll_run_ok N su ts srv true s ltac:(lia) ltac:(lia) H) as (_ & Hq).
    split; [exact Hq|]. unfold EpollServer.run_loop in H. unfold EpollServer.main.
    unfold st_bind in *. destruct (EpollServer.setup su (EpollServer.init N)) as [srv0 s0|];
      [|discriminate].
    destruct (EpollServer.event_loop N srv0 ts s0) as [b s1|]; [|discriminate].
    cbv [mret ST_ret] in H. injection H as _ Hb <-. subst b. reflexivity.
  - intros N su ts srv s HN H.
    destruct (poll_run_ok N su ts srv true s ltac:(lia) ltac:(lia) H) as (_ & Hq).
    split; [exact Hq|]. unfold PollServer.run_loop in H. unfold PollServer.main.
    unfold st_bind in *. destruct (PollServer.setup su (PollServer.init N)) as [srv0 s0|];
      [|discriminate].
    destruct (PollServer.event_loop N srv0 ts s0) as [b s1|]; [|discriminate].
    cbv [mret ST_ret] in H. injection H as _ Hb <-. subst b. reflexivity.
Qed.

Lemma loop_exit_condition_witness :
  let s := epoll_sample 1 (take 5 sample_ticks_1) in
  let s1 := set_sigint s (received_sigint s || t_sig (sample_tick 5 [])) in
  EpollServer.iteration 1 (sample_server 2500) (sample_tick 5 []) s =
    Done LoopBreak (epoll_sample 1 sample_ticks_1) /\
  (LoopBreak = LoopBreak <-> num_active_clients s1 = 0 /\ admission 1 s1 = false) /\
  (quiet (epoll_sample 1 sample_ticks_1) /\
   EpollServer.main 1 sample_setup sample_ticks_1 true true (EpollServer.init 1) =
     Exited EXIT_SUCCESS (set_stdout (epoll_sample 1 sample_ticks_1)
       (stdout (epoll_sample 1 sample_ticks_1) ++ ["Transfer finished"%string]))) /\
  (quiet (poll_sample 1 sample_ticks_1) /\
   PollServer.main 1 sample_setup sample_ticks_1 true true (PollServer.init 1) =
     Exited EXIT_SUCCESS (set_stdout (poll_sample 1 sample_ticks_1)
       (stdout (poll_sample 1 sample_ticks_1) ++ ["Transfer finished"%string]))).
Proof.
  cbv zeta. split; [vm_compute; reflexivity|]. split; [|split].
  - apply (proj1 loop_exit_condition 1 (sample_server 2500) (sample_tick 5 [])
             (epoll_sample 1 (take 5 sample_ticks_1)) LoopBreak (epoll_sample 1 sample_ticks_1)).
    vm_compute. reflexivity.
  - apply (proj1 (proj2 (proj2 loop_exit_condition)) 1 sample_setup sample_ticks_1
             (sample_server 2500) (epoll_sample 1 sample_ticks_1)); [lia|vm_compute; reflexivity].
  - apply (proj2 (proj2 (proj2 loop_exit_condition)) 1 sample_setup sample_ticks_1
             (sample_server 2500) (poll_sample 1 sample_ticks_1)); [lia|vm_compute; reflexivity].
Defined.

(** C7 (confirmed).  At every wait of a run: in the epoll server the
    interest list holds, each descriptor once, the listening socket
    exactly when [accept_new_connections] holds and the socket of each
    slot exactly when it is in [SEND_FILE_SIZE] or [SEND_DATA_BLOCK]; in
    the poll server the [nfds] entries passed to [poll] are the listening
    socket (disabled with fd -1 once admissions stop) and, for each
    accepted slot, its socket armed for POLLOUT|POLLHUP while it is being
    served and disabled (fd -1) otherwise. *)
Theorem armed_iff_progress :
  (forall N su ts srv s t top s', 0 < N < 2 ^ 64 ->
     EpollServer.run_loop N su ts (EpollServer.init N) = Done (srv, false) s ->
     EpollServer.loop_top N srv t s = Done (Some top) s' ->
     top = admission N s' /\ NoDup (map reg_fd (interest s')) /\
     (forall r, r ∈ interest s' <->
        (r = epoll_listen_reg srv /\ admission N s' = true) \/
        (exists i c, conns s' !! i = Some c /\ is_live c = true /\ r = epoll_slot_reg i c))) /\
  (forall N su ts srv s t nfds s', 0 < N < 2 ^ 64 ->
     PollServer.run_loop N su ts (PollServer.init N) = Done (srv, false) s ->
     PollServer.loop_top N srv t s = Done (Some nfds) s' ->
     nfds = 1 + num_connected_clients s' /\
     pollfds s' !! 0%nat = Some (poll_listen_entry srv (admission N s')) /\
     (forall i c, Z.of_nat i < num_connected_clients s' -> conns s' !! i = Some c ->
        pollfds s' !! S i = Some (poll_slot_entry c))).
Proof.
  split.
  - intros N su ts srv s t top s' HN Hrun H.
    destruct (epoll_run_ok N su ts srv false s ltac:(lia) ltac:(lia) Hrun) as (Hinv & _).
    destruct (epoll_top_ok N srv t s (Some top) s' Hinv H)
      as [(Hn & _)|(Ht & _ & (_ & (Hnd & Hint) & _) & Hprev & Hconns & Hc & Ha & Hsig & _)];
      [discriminate|].
    injection Ht as ->.
    assert (Hadm : admission N s' = admission N (set_sigint s (received_sigint s || t_sig t))).
    { unfold admission. rewrite Hc, Hsig. reflexivity. }
    rewrite <- Hadm in Hprev |- *. split; [reflexivity|]. split; [exact Hnd|].
    intros r. rewrite Hint, Hprev. reflexivity.
  - intros N su ts srv s t nfds s' HN Hrun H.
    destruct (poll_run_ok N su ts srv false s ltac:(lia) ltac:(lia) Hrun) as (Hinv & _).
    destruct (poll_top_ok N srv t s (Some nfds) s' Hinv H)
      as [(Hn & _)|(Ht & _ & P & -> & _ & H0 & Hslot & _)]; [discriminate|].
    injection Ht as ->. simpl. split; [reflexivity|]. split; [exact H0|].
    intros i c Hi Hc. apply Hslot; auto.
Qed.

Lemma armed_iff_progress_witness :
  let s := epoll_sample 2 sample_ticks_2 in
  let s' := final_state (EpollServer.loop_top 2 (sample_server 2500) (sample_tick 7 []) s) in
  let p := poll_sample 2 sample_ticks_2 in
  let p' := final_state (PollServer.loop_top 2 (sample_server 2500) (sample_tick 7 []) p) in
  EpollServer.loop_top 2 (sample_server 2500) (sample_tick 7 []) s = Done (Some false) s' /\
  (false = admission 2 s' /\ NoDup (map reg_fd (interest s')) /\
   (forall r, r ∈ interest s' <->
      (r = epoll_listen_reg (sample_server 2500) /\ admission 2 s' = true) \/
      (exists i c, conns s' !! i = Some c /\ is_live c = true /\ r = epoll_slot_reg i c))) /\
  PollServer.loop_top 2 (sample_server 2500) (sample_tick 7 []) p = Done (Some 3) p' /\
  (3 = 1 + num_connected_clients p' /\
   pollfds p' !! 0%nat = Some (poll_listen_entry (sample_server 2500) (admission 2 p')) /\
   (forall i c, Z.of_nat i < num_connected_clients p' -> conns p' !! i = Some c ->
      pollfds p' !! S i = Some (poll_slot_entry c))).
Proof.
  cbv zeta. split; [vm_compute; reflexivity|]. split; [|split; [vm_compute; reflexivity|]].
  - apply (proj1 armed_iff_progress 2 sample_setup sample_ticks_2 (sample_server 2500)
             (epoll_sample 2 sample_ticks_2) (sample_tick 7 []));
      [lia|vm_compute; reflexivity|vm_compute; reflexivity].
  - apply (proj2 armed_iff_progress 2 sample_setup sample_ticks_2 (sample_server 2500)
             (poll_sample 2 sample_ticks_2) (sample_tick 7 []));
      [lia|vm_compute; reflexivity|vm_compute; reflexivity].
Defined.

(** C8 (confirmed).  A hang-up, or a writability event whose advance
    fails (read or write failure, as [advance] reports it), on a slot being
    served, when [epoll_ctl] and [close] succeed: the step completes
    ([Done]), the slot becomes [TRANSFER_FINISHED], no other slot changes,
    the active count drops by one, the admitted count, the SIGINT flag and
    (epoll) the listening-socket registration are unchanged, and the
    socket leaves the epoll interest list (poll: its entry is disabled
    when the next iteration re-arms the array).  The calls made on the way
    are fatal when they fail: on the same events, a failing
    [epoll_ctl(EPOLL_CTL_DEL)] or [close] of the slot's socket makes the
    step exit with [EXIT_FAILURE] (poll: a failing [close]); so do, inside
    the epoll loop, a failing [epoll_ctl(EPOLL_CTL_ADD)] of a newly
    accepted socket and a failing [epoll_ctl(EPOLL_CTL_DEL)] of the
    listening socket when admission closes.  A failure of [socket], of the
    source-file [open]/[fstat], of the listen set-up or (epoll) of
    [epoll_create1] or the listening socket's [epoll_ctl] makes [main]
    exit with [EXIT_FAILURE]. *)
Theorem failures_local_or_fatal :
  (forall N srv t s i c ev,
     epoll_inv N srv s -> N < 2 ^ 64 ->
     conns s !! i = Some c -> is_live c = true -> 0 <= client_sock_fd c ->
     t_ctl t (1 + Z.of_nat i) = true -> t_close t (Z.of_nat i) = true ->
     (Z.land ev EpollServer.EPOLLHUP <> 0 \/
      (Z.land ev EpollServer.EPOLLHUP = 0 /\ Z.land ev EpollServer.EPOLLOUT <> 0 /\
       (exists c' sent, advance srv c (fst (t_io t (Z.of_nat i))) (snd (t_io t (Z.of_nat i)))
                        = Some (false, c', sent)))) ->
     exists s', EpollServer.conn_event_step srv t (1 + Z.of_nat i) ev s = Done tt s' /\
       epoll_inv N srv s' /\
       (exists c', conns s' !! i = Some c' /\ state c' = TRANSFER_FINISHED) /\
       (forall j, j <> i -> conns s' !! j = conns s !! j) /\
       (client_sock_fd c ∉ map reg_fd (interest s')) /\
       num_active_clients s' = num_active_clients s - 1 /\
       num_connected_clients s' = num_connected_clients s /\
       received_sigint s' = received_sigint s /\
       accept_new_connections_prev s' = accept_new_connections_prev s) /\
  (forall N srv t s i c p,
     slots_ok N s -> N < 2 ^ 64 ->
     conns s !! i = Some c -> is_live c = true -> pollfds s !! S i = Some p ->
     t_close t (Z.of_nat i) = true ->
     (Z.land (pfd_revents p) PollServer.POLLHUP <> 0 \/
      (Z.land (pfd_revents p) PollServer.POLLHUP = 0 /\
       Z.land (pfd_revents p) PollServer.POLLOUT <> 0 /\
       (exists c' sent, advance srv c (fst (t_io t (Z.of_nat i))) (snd (t_io t (Z.of_nat i)))
                        = Some (false, c', sent)))) ->
     exists s', PollServer.conn_poll_step srv t (Z.of_nat i) s = Done tt s' /\
       slots_ok N s' /\
       (exists c', conns s' !! i = Some c' /\ state c' = TRANSFER_FINISHED /\
                   poll_slot_entry c' = mkPollfd (-1) 0 0) /\
       (forall j, j <> i -> conns s' !! j = conns s !! j) /\
       num_active_clients s' = num_active_clients s - 1 /\
       num_connected_clients s' = num_connected_clients s /\
       received_sigint s' = received_sigint s /\ pollfds s' = pollfds s) /\
  (forall srv t s i c ev,
     Z.of_nat i < 2 ^ 64 -> conns s !! i = Some c ->
     t_ctl t (1 + Z.of_nat i) = false \/ t_close t (Z.of_nat i) = false ->
     (Z.land ev EpollServer.EPOLLHUP <> 0 \/
      (Z.land ev EpollServer.EPOLLHUP = 0 /\ Z.land ev EpollServer.EPOLLOUT <> 0 /\
       (exists c' sent, advance srv c (fst (t_io t (Z.of_nat i))) (snd (t_io t (Z.of_nat i)))
                        = Some (false, c', sent)))) ->
     exists s', EpollServer.conn_event_step srv t (1 + Z.of_nat i) ev s = Exited EXIT_FAILURE s') /\
  (forall srv t s i c p,
     conns s !! i = Some c -> pollfds s !! S i = Some p ->
     t_close t (Z.of_nat i) = false ->
     (Z.land (pfd_revents p) PollServer.POLLHUP <> 0 \/
      (Z.land (pfd_revents p) PollServer.POLLHUP = 0 /\
       Z.land (pfd_revents p) PollServer.POLLOUT <> 0 /\
       (exists c' sent, advance srv c (fst (t_io t (Z.of_nat i))) (snd (t_io t (Z.of_nat i)))
                        = Some (false, c', sent)))) ->
     exists s', PollServer.conn_poll_step srv t (Z.of_nat i) s = Exited EXIT_FAILURE s') /\
  (forall t s,
     t_ctl t (1 + num_connected_clients s) = false ->
     exists s', EpollServer.accept_event t s = Exited EXIT_FAILURE s') /\
  (forall N srv t s,
     accept_new_connections_prev s = true ->
     admission N (set_sigint s (received_sigint s || t_sig t)) = false ->
     num_active_clients s <> 0 -> t_ctl t 0 = false ->
     exists s', EpollServer.loop_top N srv t s = Exited EXIT_FAILURE s') /\
  (forall N su ts cl1 cl2,
     su_mux_create su = false \/ su_src_file su = None \/ su_socket su = None \/
     su_listen_setup su = false \/ su_ctl su = false ->
     exists s, EpollServer.main N su ts cl1 cl2 (EpollServer.init N) = Exited EXIT_FAILURE s) /\
  (forall N su ts cl1 cl2,
     su_src_file su = None \/ su_socket su = None \/ su_listen_setup su = false ->
     exists s, PollServer.main N su ts cl1 cl2 (PollServer.init N) = Exited EXIT_FAILURE s).
Proof.
  split; [|split; [|split; [|split; [|split; [|split; [|split]]]]]].
  - intros N srv t s i c ev Hinv HN Hi Hl Hfd Hctl Hcl Hfail.
    destruct (epoll_conn_fail N srv t i c ev s (proj1 Hinv) (proj1 (proj2 Hinv)) HN Hi Hl Hfd
                Hctl Hcl Hfail) as (c' & Hst & H).
    eexists. split; [exact H|].
    destruct (epoll_conn_ok N srv t i c ev s tt _ Hinv HN Hi Hl H)
      as (Hinv' & Hc & Hsame & Hsig & Hprev & _).
    assert (Hil : (i < length (conns s))%nat) by (eapply lookup_lt_Some; eauto).
    split; [exact Hinv'|]. split; [|split; [exact Hsame|]].
    { exists c'. split; [|exact Hst]. simpl. apply list_lookup_insert_eq. exact Hil. }
    split; [|simpl; auto].
    simpl. rewrite list_elem_of_fmap. intros (r & Hr & Hin).
    apply list_elem_of_filter in Hin as [Hneg _]. rewrite <- Hr, Z.eqb_refl in Hneg.
    simpl in Hneg. contradiction.
  - intros N srv t s i c p Hsl HN Hi Hl Hp Hcl Hfail.
    destruct (poll_conn_fail N srv t i c p s Hsl HN Hi Hl Hp Hcl Hfail) as (c' & Hst & H).
    eexists. split; [exact H|].
    assert (Hready : forall p', pollfds s !! S i = Some p' ->
              Z.land (pfd_revents p') PollServer.POLLHUP <> 0 \/
              Z.land (pfd_revents p') PollServer.POLLOUT <> 0 ->
              exists c0, conns s !! i = Some c0 /\ is_live c0 = true) by eauto.
    destruct (poll_conn_ok N srv t i s tt _ Hsl HN Hready H)
      as (Hsl' & Hc & Hsame & Hpf & Hsig & _).
    assert (Hil : (i < length (conns s))%nat) by (eapply lookup_lt_Some; eauto).
    split; [exact Hsl'|]. split; [|split; [exact Hsame|]].
    { exists c'. split; [simpl; apply list_lookup_insert_eq; exact Hil|].
      split; [exact Hst|]. unfold poll_slot_entry. rewrite finished_not_live by exact Hst.
      reflexivity. }
    simpl. auto.
  - intros srv t s i c ev Hi Hc Hrel Hfail. exact (epoll_conn_release_fail srv t s i c ev Hi Hc Hrel Hfail).
  - intros srv t s i c p Hc Hp Hcl Hfail. exact (poll_conn_close_fail srv t s i c p Hc Hp Hcl Hfail).
  - intros t s Hctl. exact (epoll_accept_ctl_fail t s Hctl).
  - intros N srv t s Hp Ha Hn Hctl. exact (epoll_listener_ctl_fail N srv t s Hp Ha Hn Hctl).
  - intros N [m a f sg so l ct] ts cl1 cl2 Hf. simpl in Hf.
    unfold EpollServer.main, EpollServer.setup, EpollServer.epoll_server_wait_for_client,
      EpollServer.epoll_ctl_add. simpl.
    destruct m; [|eexists; reflexivity]. destruct a; [|eexists; reflexivity].
    destruct f as [file|]; [|eexists; reflexivity]. destruct sg; [|eexists; reflexivity].
    destruct so as [lfd|]; [|eexists; reflexivity]. destruct l; [|eexists; reflexivity].
    destruct ct; [intuition discriminate|]. simpl. eexists.
    cbv [st_bind st_get mbind ST_bind]. rewrite orb_true_r. reflexivity.
  - intros N [m a f sg so l ct] ts cl1 cl2 Hf. simpl in Hf.
    unfold PollServer.main, PollServer.setup. simpl.
    destruct a; [|eexists; reflexivity].
    destruct f as [file|]; [|eexists; reflexivity]. destruct sg; [|eexists; reflexivity].
    destruct so as [lfd|]; [|eexists; reflexivity]. destruct l; [|eexists; reflexivity].
    intuition discriminate.
Qed.

Lemma failures_local_or_fatal_witness :
  (exists s', EpollServer.conn_event_step (sample_server 2500) (sample_tick 7 []) (1 + Z.of_nat 0)
                EpollServer.EPOLLHUP (epoll_sample 2 sample_ticks_2) = Done tt s' /\
     (exists c', conns s' !! 0%nat = Some c' /\ state c' = TRANSFER_FINISHED) /\
     conns s' !! 1%nat = conns (epoll_sample 2 sample_ticks_2) !! 1%nat /\
     num_active_clients s' = num_active_clients (epoll_sample 2 sample_ticks_2) - 1) /\
  (exists s', PollServer.conn_poll_step (sample_server 2500)
                (mkTick false None None None false true (fun _ => (false, mkWrite (-1) 32))
                   (fun _ => true) (fun _ => true)) (Z.of_nat 0)
                (set_pollfds (poll_sample 2 sample_ticks_2)
                   [mkPollfd 3 1 0; mkPollfd 5 20 4; mkPollfd 6 20 0]) = Done tt s' /\
     (exists c', conns s' !! 0%nat = Some c' /\ state c' = TRANSFER_FINISHED)) /\
  (exists s', EpollServer.conn_event_step (sample_server 2500)
                (mkTick false None None None false true (fun _ => (false, mkWrite 1024 0))
                   (fun _ => false) (fun _ => true)) (1 + Z.of_nat 0)
                EpollServer.EPOLLHUP (epoll_sample 2 sample_ticks_2) = Exited EXIT_FAILURE s') /\
  (exists s', PollServer.conn_poll_step (sample_server 2500)
                (mkTick false None None None false true (fun _ => (false, mkWrite (-1) 32))
                   (fun _ => true) (fun _ => false)) (Z.of_nat 0)
                (set_pollfds (poll_sample 2 sample_ticks_2)
                   [mkPollfd 3 1 0; mkPollfd 5 20 4; mkPollfd 6 20 0]) = Exited EXIT_FAILURE s') /\
  (exists s', EpollServer.accept_event
                (mkTick false None None (Some 7%N) false true (fun _ => (false, mkWrite 1024 0))
                   (fun _ => false) (fun _ => true))
                (epoll_sample 3 [sample_tick 5 [0]]) = Exited EXIT_FAILURE s') /\
  (exists s', EpollServer.loop_top 3 (sample_server 2500)
                (mkTick true None None None false true (fun _ => (false, mkWrite 1024 0))
                   (fun _ => false) (fun _ => true))
                (epoll_sample 3 [sample_tick 5 [0]]) = Exited EXIT_FAILURE s') /\
  (exists s, EpollServer.main 2 (mkSetup true true (Some [1; 2]) true None true true) []
               true true (EpollServer.init 2) = Exited EXIT_FAILURE s) /\
  (exists s, PollServer.main 2 (mkSetup true true None true (Some 3%N) true true) []
               true true (PollServer.init 2) = Exited EXIT_FAILURE s).
Proof.
  split; [|split; [|split; [|split; [|split; [|split; [|split]]]]]].
  - destruct (proj1 failures_local_or_fatal 2 (sample_server 2500) (sample_tick 7 [])
                (epoll_sample 2 sample_ticks_2) 0%nat (mkConn 5 0 SEND_DATA_BLOCK)
                EpollServer.EPOLLHUP)
      as (s' & H1 & _ & H2 & H3 & _ & H4 & _).
    + exact (proj1 (epoll_run_ok 2 sample_setup sample_ticks_2 (sample_server 2500) false
                      (epoll_sample 2 sample_ticks_2) ltac:(lia) ltac:(lia)
                      ltac:(vm_compute; reflexivity))).
    + lia.
    + vm_compute. reflexivity.
    + reflexivity.
    + simpl. lia.
    + reflexivity.
    + reflexivity.
    + left. vm_compute. congruence.
    + exists s'. split; [exact H1|]. split; [exact H2|]. split; [apply H3; lia|exact H4].
  - destruct (proj1 (proj2 failures_local_or_fatal) 2 (sample_server 2500)
                (mkTick false None None None false true (fun _ => (false, mkWrite (-1) 32))
                   (fun _ => true) (fun _ => true))
                (set_pollfds (poll_sample 2 sample_ticks_2)
                   [mkPollfd 3 1 0; mkPollfd 5 20 4; mkPollfd 6 20 0])
                0%nat (mkConn 5 0 SEND_DATA_BLOCK) (mkPollfd 5 20 4))
      as (s' & H1 & _ & (c' & H2 & H2' & _) & _).
    + apply slots_ok_set_pollfds.
      exact (proj1 (proj1 (poll_run_ok 2 sample_setup sample_ticks_2 (sample_server 2500)
                             false (poll_sample 2 sample_ticks_2) ltac:(lia) ltac:(lia)
                             ltac:(vm_compute; reflexivity)))).
    + lia.
    + vm_compute. reflexivity.
    + reflexivity.
    + vm_compute. reflexivity.
    + reflexivity.
    + right. split; [vm_compute; reflexivity|]. split; [vm_compute; congruence|].
      exists (mkConn 5 0 TRANSFER_FINISHED), []. vm_compute. reflexivity.
    + exists s'. split; [exact H1|]. exists c'. auto.
  - apply (proj1 (proj2 (proj2 failures_local_or_fatal)) (sample_server 2500)
             (mkTick false None None None false true (fun _ => (false, mkWrite 1024 0))
                (fun _ => false) (fun _ => true))
             (epoll_sample 2 sample_ticks_2) 0%nat (mkConn 5 0 SEND_DATA_BLOCK)).
    + lia.
    + vm_compute. reflexivity.
    + left. reflexivity.
    + left. vm_compute. congruence.
  - apply (proj1 (proj2 (proj2 (proj2 failures_local_or_fatal))) (sample_server 2500)
             (mkTick false None None None false true (fun _ => (false, mkWrite (-1) 32))
                (fun _ => true) (fun _ => false))
             (set_pollfds (poll_sample 2 sample_ticks_2)
                [mkPollfd 3 1 0; mkPollfd 5 20 4; mkPollfd 6 20 0])
             0%nat (mkConn 5 0 SEND_DATA_BLOCK) (mkPollfd 5 20 4)).
    + vm_compute. reflexivity.
    + vm_compute. reflexivity.
    + reflexivity.
    + right. split; [vm_compute; reflexivity|]. split; [vm_compute; congruence|].
      exists (mkConn 5 0 TRANSFER_FINISHED), []. vm_compute. reflexivity.
  - apply (proj1 (proj2 (proj2 (proj2 (proj2 failures_local_or_fatal))))). reflexivity.
  - apply (proj1 (proj2 (proj2 (proj2 (proj2 (proj2 failures_local_or_fatal)))))).
    + vm_compute. reflexivity.
    + vm_compute. reflexivity.
    + vm_compute. discriminate.
    + reflexivity.
  - apply (proj1 (proj2 (proj2 (proj2 (proj2 (proj2 (proj2 failures_local_or_fatal))))))).
    right; right; left. reflexivity.
  - apply (proj2 (proj2 (proj2 (proj2 (proj2 (proj2 (proj2 failures_local_or_fatal))))))).
    left. reflexivity.
Defined.

(** C10 (confirmed).  For a run that is still in the loop after the
    iterations [ts] and any continuation [ts'] of it: the admitted count
    does not decrease, a received SIGINT stays received, and if
    [accept_new_connections] is false after [ts] it is false after
    [ts ++ ts'] as well. *)
Theorem admission_monotone :
  (forall N su ts ts' srv s srv' b' s', 0 < N < 2 ^ 64 ->
     EpollServer.run_loop N su ts (EpollServer.init N) = Done (srv, false) s ->
     EpollServer.run_loop N su (ts ++ ts') (EpollServer.init N) = Done (srv', b') s' ->
     monotone s s' /\ (admission N s = false -> admission N s' = false)) /\
  (forall N su ts ts' srv s srv' b' s', 0 < N < 2 ^ 64 ->
     PollServer.run_loop N su ts (PollServer.init N) = Done (srv, false) s ->
     PollServer.run_loop N su (ts ++ ts') (PollServer.init N) = Done (srv', b') s' ->
     monotone s s' /\ (admission N s = false -> admission N s' = false)).
Proof.
  split.
  - intros N su ts ts' srv s srv' b' s' HN H1 H2.
    destruct (epoll_run_ok N su ts srv false s ltac:(lia) ltac:(lia) H1) as (Hinv & _).
    unfold EpollServer.run_loop in H1, H2.
    apply bind_Done in H1 as (srv0 & s0 & Hsu & H1).
    apply bind_Done in H1 as (b0 & s2 & Hel & H1).
    cbv [mret ST_ret] in H1. injection H1 as <- Hb0 <-. subst b0.
    apply bind_Done in H2 as (srv1 & s1 & Hsu' & H2). rewrite Hsu in Hsu'.
    injection Hsu' as <- <-.
    apply bind_Done in H2 as (b1 & s3 & Hel' & H2).
    cbv [mret ST_ret] in H2. injection H2 as _ _ <-.
    rewrite epoll_event_loop_app in Hel'. unfold st_bind in Hel'. rewrite Hel in Hel'.
    destruct (epoll_event_loop_ok N srv0 ts' s2 b1 s3 Hinv ltac:(lia) Hel')
      as (_ & [Hc Hs] & _ & Ha).
    split; [split; auto|]. intros Hadm. apply (admission_stays N s2 s3 Hadm (Ha Hadm) Hs).
  - intros N su ts ts' srv s srv' b' s' HN H1 H2.
    destruct (poll_run_ok N su ts srv false s ltac:(lia) ltac:(lia) H1) as (Hinv & _).
    unfold PollServer.run_loop in H1, H2.
    apply bind_Done in H1 as (srv0 & s0 & Hsu & H1).
    apply bind_Done in H1 as (b0 & s2 & Hel & H1).
    cbv [mret ST_ret] in H1. injection H1 as <- Hb0 <-. subst b0.
    apply bind_Done in H2 as (srv1 & s1 & Hsu' & H2). rewrite Hsu in Hsu'.
    injection Hsu' as <- <-.
    apply bind_Done in H2 as (b1 & s3 & Hel' & H2).
    cbv [mret ST_ret] in H2. injection H2 as _ _ <-.
    rewrite poll_event_loop_app in Hel'. unfold st_bind in Hel'. rewrite Hel in Hel'.
    destruct (poll_event_loop_ok N srv0 ts' s2 b1 s3 Hinv ltac:(lia) Hel')
      as (_ & [Hc Hs] & _ & Ha).
    split; [split; auto|]. intros Hadm. apply (admission_stays N s2 s3 Hadm (Ha Hadm) Hs).
Qed.

Lemma admission_monotone_witness :
  admission 1 (epoll_sample 1 [sample_tick 5 [0]]) = false /\
  (monotone (epoll_sample 1 [sample_tick 5 [0]]) (epoll_sample 1 sample_ticks_1) /\
   (admission 1 (epoll_sample 1 [sample_tick 5 [0]]) = false ->
    admission 1 (epoll_sample 1 sample_ticks_1) = false)) /\
  (monotone (poll_sample 1 [sample_tick 5 [0]]) (poll_sample 1 sample_ticks_1) /\
   (admission 1 (poll_sample 1 [sample_tick 5 [0]]) = false ->
    admission 1 (poll_sample 1 sample_ticks_1) = false)).
Proof.
  split; [vm_compute; reflexivity|]. split.
  - apply (proj1 admission_monotone 1 sample_setup [sample_tick 5 [0]] (drop 1 sample_ticks_1)
             (sample_server 2500) (epoll_sample 1 [sample_tick 5 [0]]) (sample_server 2500) true
             (epoll_sample 1 sample_ticks_1)); [lia|vm_compute; reflexivity|vm_compute; reflexivity].
  - apply (proj2 admission_monotone 1 sample_setup [sample_tick 5 [0]] (drop 1 sample_ticks_1)
             (sample_server 2500) (poll_sample 1 [sample_tick 5 [0]]) (sample_server 2500) true
             (poll_sample 1 sample_ticks_1)); [lia|vm_compute; reflexivity|vm_compute; reflexivity].
Defined.

(* ------------------------------------------------------------------ *)
(** ** Facts about the argument parsing and the client *)

Lemma scan_digits_all ds rest acc :
  Forall (fun c => c_isdigit c = true) ds ->
  match rest with c :: _ => c_isdigit c = false | [] => True end ->
  scan_digits (ds ++ rest) acc = (fold_left (fun acc c => 10 * acc + digit_value c) ds acc, length ds).
Proof.
  intros Hd Hr. revert acc; induction Hd as [|d ds Hd Hds IH]; intros acc; simpl.
  - destruct rest as [|c rest]; simpl; [reflexivity|]. rewrite Hr. reflexivity.
  - rewrite Hd. rewrite IH. reflexivity.
Qed.

Lemma fold_digits_range ds acc :
  Forall (fun c => c_isdigit c = true) ds -> 0 <= acc ->
  acc <= fold_left (fun acc c => 10 * acc + digit_value c) ds acc.
Proof.
  intros Hd. revert acc; induction Hd as [|d ds Hd Hds IH]; intros acc Ha; simpl; [lia|].
  assert (0 <= digit_value d).
  { unfold c_isdigit in Hd. unfold digit_value. apply andb_true_iff in Hd as [H1 H2].
    apply Nat.leb_le in H1. lia. }
  specialize (IH (10 * acc + digit_value d) ltac:(lia)). lia.
Qed.

Lemma decimal_value_nonneg ds :
  Forall (fun c => c_isdigit c = true) ds -> 0 <= decimal_value ds.
Proof. intros Hd. pose proof (fold_digits_range ds 0 Hd ltac:(lia)). unfold decimal_value. lia. Qed.

Lemma digit_not_sign c : c_isdigit c = true ->
  c_isspace c = false /\ Ascii.eqb c "-"%char = false /\ Ascii.eqb c "+"%char = false.
Proof.
  intros H. unfold c_isdigit in H. apply andb_true_iff in H as [H1 H2].
  apply Nat.leb_le in H1, H2. unfold c_isspace.
  split; [|split].
  - apply orb_false_iff. split; [apply Nat.eqb_neq; lia|].
    apply andb_false_iff. right. apply Nat.leb_gt. lia.
  - apply Ascii.eqb_neq. intros ->. cbv in H1. lia.
  - apply Ascii.eqb_neq. intros ->. cbv in H1. lia.
Qed.

(** X1: a nonempty string of decimal digits is accepted as the client
    count exactly when its value is not 0, and the count is the value
    clamped to LONG_MAX by [strtol]. *)
Theorem parse_max_conns_decimal ds :
  ds <> [] -> Forall (fun c => c_isdigit c = true) ds ->
  parse_max_conns (string_of_list_ascii ds)
  = if decimal_value ds =? 0 then None else Some (Z.min LONG_MAX (decimal_value ds)).
Proof.
  intros Hne Hd. unfold parse_max_conns. rewrite list_ascii_of_string_of_list_ascii.
  pose proof (decimal_value_nonneg ds Hd) as Hv.
  destruct ds as [|d ds']; [congruence|].
  pose proof (Forall_inv Hd) as Hd0. destruct (digit_not_sign d Hd0) as (Hs & Hm & Hp).
  unfold strtol10. simpl skip_space. rewrite Hs. simpl drop.
  cbv iota. rewrite Hm, Hp. cbv iota.
  simpl drop.
  pose proof (scan_digits_all (d :: ds') [] 0 Hd I) as Hsc. rewrite app_nil_r in Hsc.
  rewrite Hsc. simpl length. cbv beta iota zeta. simpl Nat.eqb.
  cbv iota. fold (decimal_value (d :: ds')).
  rewrite Nat.ltb_irrefl. simpl orb.
  rewrite Z.max_r by (unfold LONG_MIN, LONG_MAX; lia).
  rewrite size_t_small by (unfold LONG_MAX; lia).
  destruct (decimal_value (d :: ds') =? 0) eqn:E; bool_facts.
  - rewrite E. reflexivity.
  - rewrite (proj2 (Z.eqb_neq _ _)) by (unfold LONG_MAX; lia). reflexivity.
Qed.

(** X2: a minus sign followed by decimal digits of a nonzero value is
    accepted: the negative [long] is converted to [size_t], giving
    2^64 minus the value (clamped to 2^63). *)
Theorem parse_max_conns_negative ds :
  ds <> [] -> Forall (fun c => c_isdigit c = true) ds ->
  parse_max_conns (String "-" (string_of_list_ascii ds))
  = if decimal_value ds =? 0 then None else Some (2 ^ 64 - Z.min (2 ^ 63) (decimal_value ds)).
Proof.
  intros Hne Hd. unfold parse_max_conns. cbn [list_ascii_of_string].
  rewrite list_ascii_of_string_of_list_ascii.
  pose proof (decimal_value_nonneg ds Hd) as Hv.
  unfold strtol10. cbn [skip_space drop]. change (c_isspace "-") with false. cbv iota.
  change (Ascii.eqb "-" "-") with true. cbv iota. cbn [drop].
  pose proof (scan_digits_all ds [] 0 Hd I) as Hsc. rewrite app_nil_r in Hsc.
  rewrite Ascii.eqb_refl. cbv iota. cbn [drop]. rewrite ?drop_0. rewrite Hsc. fold (decimal_value ds).
  destruct ds as [|d ds']; [congruence|]. cbn [length]. cbv beta iota zeta.
  simpl Nat.eqb. cbv iota. simpl orb.
  simpl plus. rewrite Nat.ltb_irrefl. simpl orb.
  rewrite Z.min_r by (unfold LONG_MAX; lia).
  unfold size_t, LONG_MIN.
  destruct (decimal_value (d :: ds') =? 0) eqn:E; bool_facts.
  - rewrite E. reflexivity.
  - destruct (Z.le_gt_cases (decimal_value (d :: ds')) (2 ^ 63)).
    + rewrite Z.max_r by lia. rewrite Z.min_r by lia.
      rewrite <- (Z.mod_add _ 1) by lia.
      rewrite Z.mod_small by lia.
      rewrite (proj2 (Z.eqb_neq _ _)) by lia. f_equal. lia.
    + rewrite Z.max_l by lia. rewrite Z.min_l by lia.
      change ((- 2 ^ 63) mod 2 ^ 64) with (2 ^ 63). reflexivity.
Qed.

(** X3: leading white space does not change how the client count is
    parsed. *)
Theorem parse_max_conns_space c a :
  c_isspace c = true -> parse_max_conns (String c a) = parse_max_conns a.
Proof.
  intros Hc. unfold parse_max_conns. cbn [list_ascii_of_string].
  destruct (list_ascii_of_string a) as [|c0 l0] eqn:El.
  - unfold strtol10. cbn [skip_space]. rewrite Hc. reflexivity.
  - set (l := c0 :: l0). assert (Hl : (0 < length l)%nat) by (subst l; simpl; lia).
    clearbody l. clear El.
    unfold strtol10. cbn [skip_space]. rewrite Hc. cbn [drop].
    destruct (match drop (skip_space l) l with
              | [] => (false, 0%nat)
              | c1 :: _ => if (c1 =? "-")%char then (true, 1%nat)
                           else if (c1 =? "+")%char then (false, 1%nat) else (false, 0%nat)
              end) as [neg k].
    destruct (scan_digits (drop k (drop (skip_space l) l)) 0) as [mag nd].
    destruct (nd =? 0)%nat.
    + destruct l; simpl in Hl; [lia|]. reflexivity.
    + replace (S (skip_space l) + k + nd <? length (c :: l))%nat
        with (skip_space l + k + nd <? length l)%nat
        by (apply eq_iff_eq_true; rewrite !Nat.ltb_lt; simpl; lia).
      destruct l; simpl in Hl; [lia|]. reflexivity.
Qed.

Lemma scan_digits_end l acc :
  (snd (scan_digits l acc) <= length l)%nat /\
  (snd (scan_digits l acc) = 0%nat \/
   exists d, l !! (snd (scan_digits l acc) - 1)%nat = Some d /\ c_isdigit d = true).
Proof.
  revert acc; induction l as [|c l IH]; intros acc; simpl; [lia|].
  destruct (c_isdigit c) eqn:Hc; simpl; [|lia].
  destruct (IH (10 * acc + digit_value c)) as [H1 H2].
  destruct (snd (scan_digits l (10 * acc + digit_value c))) as [|n] eqn:En.
  - split; [lia|]. right. exists c. simpl. auto.
  - destruct H2 as [H2|(d & Hd & Hdd)]; [lia|].
    split; [lia|]. right. exists d. simpl. replace (S n - 1)%nat with n in Hd by lia. auto.
Qed.

Lemma strtol10_end l :
  snd (strtol10 l) = 0%nat \/
  ((snd (strtol10 l) <= length l)%nat /\
   exists d, l !! (snd (strtol10 l) - 1)%nat = Some d /\ c_isdigit d = true).
Proof.
  unfold strtol10.
  set (w := skip_space l).
  destruct (match drop w l with
            | [] => (false, 0%nat)
            | c1 :: _ => if (c1 =? "-")%char then (true, 1%nat)
                         else if (c1 =? "+")%char then (false, 1%nat) else (false, 0%nat)
            end) as [neg k].
  pose proof (scan_digits_end (drop k (drop w l)) 0) as [H1 H2].
  destruct (scan_digits (drop k (drop w l)) 0) as [mag nd]. simpl in H1, H2.
  destruct (nd =? 0)%nat eqn:Hnd; [left; reflexivity|right]. simpl.
  apply Nat.eqb_neq in Hnd. destruct H2 as [H2|(d & Hd & Hdd)]; [lia|].
  rewrite drop_drop, length_drop in H1. rewrite drop_drop, lookup_drop in Hd.
  split; [lia|]. exists d. split; [|exact Hdd].
  replace (w + k + nd - 1)%nat with (w + k + (nd - 1))%nat by lia. exact Hd.
Qed.

Lemma list_ascii_of_string_append a b :
  list_ascii_of_string (a ++ b) = list_ascii_of_string a ++ list_ascii_of_string b.
Proof. induction a as [|c a IH]; simpl; [reflexivity|]. rewrite IH. reflexivity. Qed.

(** X4: a client-count argument that ends in a character that is not a
    digit is always rejected. *)
Theorem parse_max_conns_trailing a c :
  c_isdigit c = false -> parse_max_conns (a ++ String c EmptyString) = None.
Proof.
  intros Hc. unfold parse_max_conns.
  rewrite list_ascii_of_string_append. simpl (list_ascii_of_string (String c "")).
  set (l := list_ascii_of_string a ++ [c]).
  assert (Hlast : l !! (length l - 1)%nat = Some c).
  { subst l. rewrite length_app. simpl.
    rewrite lookup_app_r by lia. replace (length (list_ascii_of_string a) + 1 - 1 - length (list_ascii_of_string a))%nat with 0%nat by lia. reflexivity. }
  assert (Hpos : (0 < length l)%nat) by (subst l; rewrite length_app; simpl; lia).
  clearbody l.
  pose proof (strtol10_end l) as He.
  destruct (strtol10 l) as [v e]. simpl in He.
  assert (Hlt : (e < length l)%nat).
  { destruct He as [->|[He (d & Hd & Hdd)]]; [exact Hpos|].
    destruct (Nat.eq_dec e (length l)) as [->|]; [|lia].
    rewrite Hlast in Hd. injection Hd as <-. congruence. }
  apply Nat.ltb_lt in Hlt. rewrite Hlt. rewrite orb_true_r. simpl. reflexivity.
Qed.

(** ** Client *)

Lemma client_block_gen (body dst : list Z) sz (c : nat) cap :
  (c < length body)%nat ->
  Z.of_nat (length body) < 2 ^ 64 ->
  exists m, (0 < m)%nat /\ (c + m <= length body)%nat /\
    client_recv_file_block (mkClient dst sz (Z.of_nat c)) (drop c body) cap
    = (true, mkClient (pwrite_file dst (take m (drop c body)) c) sz (Z.of_nat (c + m)),
       drop (c + m) body).
Proof.
  intros Hc Hsz. unfold client_recv_file_block.
  set (n := match drop c body with [] => 0 | _ => Z.max 1 (Z.min cap TRANSFER_BLOCK_SIZE) end).
  assert (Hn : n = Z.max 1 (Z.min cap TRANSFER_BLOCK_SIZE)).
  { subst n. destruct (drop c body) eqn:Ed; [|reflexivity].
    apply (f_equal length) in Ed. rewrite length_drop in Ed. simpl in Ed. lia. }
  clearbody n. subst n.
  set (k := Z.to_nat (Z.max 1 (Z.min cap TRANSFER_BLOCK_SIZE))).
  assert (Hk : (1 <= k)%nat) by (subst k; lia).
  exists (Nat.min k (length body - c)).
  split; [lia|]. split; [lia|].
  set (m := Nat.min k (length body - c)).
  assert (Hlen : length (take k (drop c body)) = m)
    by (rewrite length_take, length_drop; reflexivity).
  rewrite Hlen. rewrite (size_t_small (Z.of_nat m)) by lia.
  rewrite (proj2 (Z.eqb_neq _ _)) by lia. simpl (false && _). cbv iota.
  cbn [dst_file dst_file_size dst_file_offset].
  rewrite size_t_small by lia.
  assert (Hblk : take k (drop c body) = take m (drop c body)).
  { rewrite take_min_length, length_drop. reflexivity. }
  assert (Hrest : drop k (drop c body) = drop (c + m) body).
  { rewrite drop_drop. destruct (Nat.le_gt_cases k (length body - c)).
    - f_equal. lia.
    - rewrite !drop_ge by lia. reflexivity. }
  rewrite Hrest, Hblk, Nat2Z.id. do 3 f_equal. lia.
Qed.

Lemma pwrite_prefix (body : list Z) (size c m : nat) :
  (c + m <= size)%nat -> (c + m <= length body)%nat ->
  pwrite_file (take c body ++ replicate (size - c) 0) (take m (drop c body)) c
  = take (c + m) body ++ replicate (size - (c + m)) 0.
Proof.
  intros H1 H2. unfold pwrite_file.
  rewrite length_app, length_take, length_replicate.
  replace (c - (Nat.min c (length body) + (size - c)))%nat with 0%nat by lia.
  rewrite take_app_length' by (rewrite length_take; lia).
  rewrite length_take, length_drop.
  replace (Nat.min m (length body - c)) with m by lia.
  rewrite drop_app_ge by (rewrite length_take; lia).
  rewrite length_take, drop_replicate. simpl.
  rewrite app_assoc, take_take_drop. f_equal. f_equal. lia.
Qed.

Lemma client_loop_sound fuel caps k (body : list Z) (size c : nat) dst cl'' :
  Z.of_nat (length body) < 2 ^ 64 -> (c <= length body)%nat ->
  ((c <= size)%nat -> dst = take c body ++ replicate (size - c) 0) ->
  client_recv_loop fuel caps k (mkClient dst (Z.of_nat size) (Z.of_nat c)) (drop c body)
    = Some cl'' ->
  (size <= length body)%nat /\ dst_file cl'' = take size body /\
  dst_file_size cl'' = Z.of_nat size.
Proof.
  intros Hsz. revert k c dst; induction fuel as [|fuel IH]; intros k c dst Hc Hdst Hrun;
    cbn [client_recv_loop dst_file_offset dst_file_size] in Hrun.
  - destruct (Z.of_nat c =? Z.of_nat size) eqn:E; [|discriminate].
    apply Z.eqb_eq, Nat2Z.inj in E. subst c. injection Hrun as <-. simpl.
    rewrite Hdst, Nat.sub_diag, app_nil_r by lia. auto.
  - destruct (Z.of_nat c =? Z.of_nat size) eqn:E.
    + apply Z.eqb_eq, Nat2Z.inj in E. subst c. injection Hrun as <-. simpl.
      rewrite Hdst, Nat.sub_diag, app_nil_r by lia. auto.
    + apply Z.eqb_neq in E.
      destruct (Nat.eq_dec c (length body)) as [->|Hne].
      * rewrite drop_ge in Hrun by lia. unfold client_recv_file_block in Hrun.
        cbn [take length dst_file_offset dst_file_size] in Hrun. change (size_t (Z.of_nat (length (take (Z.to_nat 0) (@nil Z)))) =? 0) with true in Hrun. cbn [andb] in Hrun.
        rewrite (proj2 (Z.eqb_neq _ _)) in Hrun by exact E. discriminate.
      * destruct (client_block_gen body dst (Z.of_nat size) c (caps k) ltac:(lia) Hsz)
          as (m & Hm & Hm' & Hstep).
        rewrite Hstep in Hrun.
        apply (IH (S k) (c + m)%nat) in Hrun; [exact Hrun|lia|].
        intros Hle. rewrite Hdst by lia. apply pwrite_prefix; lia.
Qed.

(** X5: when a connection of the client ends in [exit(EXIT_SUCCESS)],
    the stream began with an eight-byte header announcing a positive size,
    and the destination file is exactly the first size bytes that follow
    the header. *)
Theorem client_main_success stream caps fs dst :
  Z.of_nat (length stream) < 2 ^ 64 ->
  client_main stream caps fs = ClientExit EXIT_SUCCESS dst ->
  (8 <= length stream)%nat /\
  0 < htobe64 (le_load (take 8 stream)) /\
  Z.of_nat (length dst) = htobe64 (le_load (take 8 stream)) /\
  dst = take (Z.to_nat (htobe64 (le_load (take 8 stream)))) (drop 8 stream).
Proof.
  intros Hlen Hrun. unfold client_main, client_recv_file_size in Hrun.
  rewrite size_t_small in Hrun by (rewrite length_take; lia).
  destruct (Z.of_nat (length (take 8 stream)) =? 8) eqn:E8; [|discriminate].
  apply Z.eqb_eq in E8. rewrite length_take in E8.
  cbv iota beta in Hrun. unfold client_open_dst_file in Hrun. cbn [dst_file_size dst_file_offset dst_file] in Hrun.
  set (size := htobe64 (le_load (take 8 stream))) in *.
  cbn [negb] in Hrun. cbv iota beta in Hrun. cbn [dst_file_size dst_file_offset dst_file negb] in Hrun.
  destruct (fs_open_ok fs); [|unfold EXIT_SUCCESS in Hrun; discriminate]. cbn [negb] in Hrun.
  destruct (fallocate fs size) eqn:Ef; [|unfold EXIT_SUCCESS in Hrun; discriminate]. cbn [negb] in Hrun.
  pose proof (fallocate_pos fs size Ef) as Es.
  destruct (client_recv_loop _ _ _ _ _) as [cl''|] eqn:Hl; [|discriminate].
  injection Hrun as <-.
  pose proof (client_loop_sound (S (length (drop 8 stream))) caps 0 (drop 8 stream)
                (Z.to_nat size) 0 (replicate (Z.to_nat size) 0) cl'') as L.
  rewrite drop_0, Z2Nat.id in L by lia. change (Z.of_nat 0) with 0 in L.
  specialize (L ltac:(rewrite length_drop; lia) ltac:(lia)
                ltac:(intros _; simpl; rewrite Nat.sub_0_r; reflexivity) Hl).
  destruct L as (Hle & Hd & Hsz).
  unfold client_close_dst_file. rewrite Hsz, Hd.
  rewrite length_drop in Hle.
  rewrite take_take, Nat.min_id, length_take, length_drop.
  replace (Z.to_nat size - Nat.min (Z.to_nat size) (length stream - 8))%nat with 0%nat by lia.
  rewrite app_nil_r. rewrite length_take, length_drop.
  repeat split; try lia.
Qed.

(** X6: a stream shorter than the eight-byte size header makes the
    client reconnect. *)
Theorem client_main_short_header stream caps fs :
  (length stream < 8)%nat -> client_main stream caps fs = ClientRetry.
Proof.
  intros H. unfold client_main, client_recv_file_size.
  rewrite size_t_small by (rewrite length_take; lia).
  rewrite (proj2 (Z.eqb_neq _ _)) by (rewrite length_take; lia). reflexivity.
Qed.

(** X7: a stream that ends before the announced number of bytes makes
    the client reconnect, unless its [open] or its [fallocate] of the
    announced size fails, on which it exits with [EXIT_FAILURE]; it never
    exits with [EXIT_SUCCESS]. *)
Theorem client_main_truncated stream caps fs :
  Z.of_nat (length stream) < 2 ^ 64 ->
  (8 <= length stream)%nat ->
  Z.of_nat (length stream - 8) < htobe64 (le_load (take 8 stream)) ->
  client_main stream caps fs =
    if dst_file_opens fs (htobe64 (le_load (take 8 stream))) then ClientRetry
    else ClientExit EXIT_FAILURE [].
Proof.
  intros Hlen H8 Hshort. unfold client_main, client_recv_file_size.
  rewrite size_t_small by (rewrite length_take; lia).
  rewrite (proj2 (Z.eqb_eq _ _)) by (rewrite length_take; lia).
  cbn [negb]. cbv iota beta. unfold client_open_dst_file, dst_file_opens.
  cbn [dst_file_size dst_file_offset dst_file negb].
  set (size := htobe64 (le_load (take 8 stream))) in *.
  destruct (fs_open_ok fs); [|reflexivity]. cbn [negb andb].
  destruct (fallocate fs size); [|reflexivity]. cbn [negb].
  destruct (client_recv_loop _ _ _ _ _) as [cl''|] eqn:Hl; [|reflexivity].
  exfalso.
  pose proof (client_loop_sound (S (length (drop 8 stream))) caps 0 (drop 8 stream)
                (Z.to_nat size) 0 (replicate (Z.to_nat size) 0) cl'') as L.
  rewrite drop_0, Z2Nat.id in L by lia. change (Z.of_nat 0) with 0 in L.
  specialize (L ltac:(rewrite length_drop; lia) ltac:(lia)
                ltac:(intros _; simpl; rewrite Nat.sub_0_r; reflexivity) Hl).
  destruct L as (Hle & _). rewrite length_drop in Hle. lia.
Qed.

Lemma parse_max_conns_decimal_witness :
  ["1"; "2"]%char <> [] /\ Forall (fun c => c_isdigit c = true) ["1"; "2"]%char /\
  parse_max_conns (string_of_list_ascii ["1"; "2"]%char) =
    (if decimal_value ["1"; "2"]%char =? 0 then None
     else Some (Z.min LONG_MAX (decimal_value ["1"; "2"]%char))).
Proof.
  split; [discriminate|]. split; [repeat constructor|].
  apply parse_max_conns_decimal; [discriminate|repeat constructor].
Defined.

Lemma parse_max_conns_negative_witness :
  ["5"]%char <> [] /\ Forall (fun c => c_isdigit c = true) ["5"]%char /\
  parse_max_conns (String "-" (string_of_list_ascii ["5"]%char)) =
    (if decimal_value ["5"]%char =? 0 then None
     else Some (2 ^ 64 - Z.min (2 ^ 63) (decimal_value ["5"]%char))).
Proof.
  split; [discriminate|]. split; [repeat constructor|].
  apply parse_max_conns_negative; [discriminate|repeat constructor].
Defined.

Lemma parse_max_conns_space_witness :
  c_isspace " "%char = true /\ parse_max_conns (String " " "7") = parse_max_conns "7".
Proof.
  split; [reflexivity|]. apply parse_max_conns_space. reflexivity.
Defined.

Lemma parse_max_conns_trailing_witness :
  c_isdigit "x"%char = false /\ parse_max_conns ("12" ++ String "x" EmptyString) = None.
Proof.
  split; [reflexivity|]. apply parse_max_conns_trailing. reflexivity.
Defined.

Lemma client_main_success_witness :
  Z.of_nat (length (rev (le_store 8 3) ++ [1; 2; 3])) < 2 ^ 64 /\
  client_main (rev (le_store 8 3) ++ [1; 2; 3]) (fun _ => 1024) ample_fs = ClientExit EXIT_SUCCESS [1; 2; 3] /\
  (8 <= length (rev (le_store 8 3) ++ [1%Z; 2%Z; 3%Z]))%nat /\
  0 < htobe64 (le_load (take 8 (rev (le_store 8 3) ++ [1; 2; 3]))) /\
  Z.of_nat (length ([1; 2; 3] : list Z)) = htobe64 (le_load (take 8 (rev (le_store 8 3) ++ [1; 2; 3]))) /\
  [1; 2; 3] = take (Z.to_nat (htobe64 (le_load (take 8 (rev (le_store 8 3) ++ [1; 2; 3])))))
                (drop 8 (rev (le_store 8 3) ++ [1; 2; 3])).
Proof.
  split; [vm_compute; reflexivity|]. split; [vm_compute; reflexivity|].
  apply (client_main_success (rev (le_store 8 3) ++ [1; 2; 3]) (fun _ => 1024) ample_fs [1; 2; 3]);
    vm_compute; reflexivity.
Defined.

Lemma client_main_short_header_witness :
  (length ([1%Z; 2%Z; 3%Z] : list Z) < 8)%nat /\ client_main [1%Z; 2%Z; 3%Z] (fun _ => 1024) ample_fs = ClientRetry.
Proof.
  split; [simpl; lia|]. apply client_main_short_header. simpl. lia.
Defined.

Lemma client_main_truncated_witness :
  Z.of_nat (length (rev (le_store 8 10) ++ [1; 2; 3])) < 2 ^ 64 /\
  (8 <= length (rev (le_store 8 10) ++ [1%Z; 2%Z; 3%Z]))%nat /\
  Z.of_nat (length (rev (le_store 8 10) ++ [1; 2; 3]) - 8) <
    htobe64 (le_load (take 8 (rev (le_store 8 10) ++ [1; 2; 3]))) /\
  client_main (rev (le_store 8 10) ++ [1; 2; 3]) (fun _ => 1024) ample_fs = ClientRetry /\
  client_main (rev (le_store 8 10) ++ [1; 2; 3]) (fun _ => 1024)
    (mkFileSystem true (fun len => len <? 5)) = ClientExit EXIT_FAILURE [].
Proof.
  split; [vm_compute; reflexivity|]. split; [simpl; lia|].
  split; [vm_compute; reflexivity|]. split.
  - rewrite (client_main_truncated (rev (le_store 8 10) ++ [1; 2; 3]) (fun _ => 1024) ample_fs
               ltac:(vm_compute; reflexivity) ltac:(simpl; lia) ltac:(vm_compute; reflexivity)).
    vm_compute. reflexivity.
  - rewrite (client_main_truncated (rev (le_store 8 10) ++ [1; 2; 3]) (fun _ => 1024)
               (mkFileSystem true (fun len => len <? 5))
               ltac:(vm_compute; reflexivity) ltac:(simpl; lia) ltac:(vm_compute; reflexivity)).
    vm_compute. reflexivity.
Defined.

(* ------------------------------------------------------------------ *)
(** ** Facts about the libaio copy *)

Module LinuxAioFacts.
Import LinuxAio.

Lemma lookup_mem_store (mem data : list Z) a i :
  (a + length data <= length mem)%nat ->
  mem_store mem a data !! i =
  if decide (a <= i < a + length data)%nat then data !! (i - a)%nat else mem !! i.
Proof.
  intros H. unfold mem_store.
  destruct (decide (i < a)%nat).
  - rewrite lookup_app_l by (rewrite length_take; lia). rewrite lookup_take_lt by lia.
    rewrite decide_False by lia. reflexivity.
  - rewrite lookup_app_r by (rewrite length_take; lia). rewrite length_take.
    replace (Nat.min a (length mem)) with a by lia.
    destruct (decide (i < a + length data)%nat).
    + rewrite lookup_app_l by lia. rewrite decide_True by lia. reflexivity.
    + rewrite lookup_app_r by lia. rewrite lookup_drop. rewrite decide_False by lia.
      f_equal. lia.
Qed.

Lemma length_mem_store (mem data : list Z) a :
  (a + length data <= length mem)%nat -> length (mem_store mem a data) = length mem.
Proof.
  intros H. unfold mem_store. rewrite !length_app, length_take, length_drop. lia.
Qed.

Lemma lookup_pwrite_file (file b : list Z) off i :
  pwrite_file file b off !! i =
  if decide (i < off)%nat then (if decide (i < length file)%nat then file !! i else Some 0)
  else if decide (i < off + length b)%nat then b !! (i - off)%nat else file !! i.
Proof.
  unfold pwrite_file.
  destruct (decide (i < off)%nat).
  - destruct (decide (i < length file)%nat).
    + rewrite lookup_app_l by (rewrite length_take; lia). rewrite lookup_take_lt by lia. reflexivity.
    + rewrite lookup_app_r by (rewrite length_take; lia). rewrite length_take.
      rewrite lookup_app_l by (rewrite length_replicate; lia).
      rewrite lookup_replicate_2 by lia. reflexivity.
  - rewrite lookup_app_r by (rewrite length_take; lia). rewrite length_take.
    rewrite lookup_app_r by (rewrite length_replicate; lia). rewrite length_replicate.
    destruct (decide (i < off + length b)%nat).
    + rewrite lookup_app_l by lia. f_equal. lia.
    + rewrite lookup_app_r by lia. rewrite lookup_drop. f_equal. lia.
Qed.

Lemma take_drop_ext (l l' : list Z) b k :
  (forall i, (b <= i < b + k)%nat -> l !! i = l' !! i) ->
  take k (drop b l) = take k (drop b l').
Proof.
  intros H. apply list_eq. intros i.
  rewrite !lookup_take, !lookup_drop.
  destruct (decide (i < k)%nat); [apply H; lia|reflexivity].
Qed.


Ltac inv_destruct H :=
  destruct H as (Hli & Hls & Hlb & Hn0 & Hpl & Hn16 & Hnd & Hlt & Hnum & Ho0 & Hom & HoR &
                 Hfull & Hsl & Hev & Hblk & Heof).

Lemma filter_ne_notin (l : list nat) j :
  j ∉ l -> filter (fun k => k ≠ j) l = l.
Proof.
  induction l as [|x l IH]; intros Hn; [reflexivity|].
  rewrite elem_of_cons in Hn.
  rewrite filter_cons_True by (intros ->; tauto). f_equal. apply IH. tauto.
Qed.

Lemma perm_remove (l : list nat) j :
  j ∈ l -> NoDup l -> l ≡ₚ j :: filter (fun k => k ≠ j) l.
Proof.
  induction l as [|x l IH]; intros Hin Hnd; [inversion Hin|].
  apply NoDup_cons in Hnd as [Hx Hnd].
  destruct (decide (x = j)) as [->|Hne].
  - rewrite filter_cons_False by tauto. rewrite filter_ne_notin by exact Hx. reflexivity.
  - rewrite filter_cons_True by exact Hne.
    apply elem_of_cons in Hin as [->|Hin]; [congruence|].
    rewrite (IH Hin Hnd) at 1. apply Permutation_swap.
Qed.

Lemma NoDup_bound (l : list nat) n :
  NoDup l -> Forall (fun j => j < n)%nat l -> (length l <= n)%nat.
Proof.
  intros Hnd Hlt. rewrite <- (length_seq n 0).
  apply NoDup_incl_length; [apply NoDup_ListNoDup; exact Hnd|].
  intros x Hx. apply in_seq. rewrite Forall_forall in Hlt.
  specialize (Hlt x (proj2 (list_elem_of_In _ _) Hx)). lia.
Qed.

Section Proofs.
Variables (src_fd dst_fd : Z) (src : list Z) (src_size : Z).

Lemma length_blk o : (length (blk src o) <= 4096)%nat.
Proof. unfold blk. rewrite length_take. lia. Qed.

Lemma length_blk_eq o :
  length (blk src o) = Nat.min 4096 (length src - Z.to_nat o).
Proof. unfold blk. rewrite length_take, length_drop. reflexivity. Qed.

Lemma lookup_blk o i :
  (i < length (blk src o))%nat -> blk src o !! i = src !! (Z.to_nat o + i)%nat.
Proof.
  intros H. unfold blk in *. rewrite lookup_take_lt by (rewrite length_take in H; lia).
  rewrite lookup_drop. reflexivity.
Qed.

Lemma region_read (mem data : list Z) (j : nat) :
  (j < 16)%nat -> (length data <= 4096)%nat -> length mem = Z.to_nat 65536 ->
  take (length data) (drop (4096 * j) (mem_store mem (4096 * j) data)) = data.
Proof.
  intros Hj Hd Hm. apply list_eq. intros i.
  rewrite lookup_take, lookup_drop.
  destruct (decide (i < length data)%nat).
  - rewrite lookup_mem_store by lia. rewrite decide_True by lia. f_equal. lia.
  - symmetry. apply lookup_ge_None_2. lia.
Qed.

Lemma region_frame (mem data : list Z) (j k n : nat) :
  (j < 16)%nat -> (k < 16)%nat -> j <> k -> (n <= 4096)%nat ->
  (length data <= 4096)%nat -> length mem = Z.to_nat 65536 ->
  take n (drop (4096 * k) (mem_store mem (4096 * j) data)) = take n (drop (4096 * k) mem).
Proof.
  intros Hj Hk Hjk Hn Hd Hm. apply take_drop_ext. intros i Hi.
  rewrite lookup_mem_store by lia. rewrite decide_False; [reflexivity|].
  intros Hc. assert (j < k \/ k < j)%nat as [Hlt|Hlt] by lia; nia.
Qed.

Lemma block_done_ext s s' o :
  dst s' = dst s -> block_done src s o -> block_done src s' o.
Proof. intros E H i Hi Hl. rewrite E. apply H; assumption. Qed.

Lemma block_done_write s s' o o' :
  0 <= o -> dst s' = pwrite_file (dst s) (blk src o) (Z.to_nat o) ->
  block_done src s o' -> block_done src s' o'.
Proof.
  intros Ho E H i Hi Hl. rewrite E. specialize (H i Hi Hl).
  rewrite lookup_pwrite_file.
  destruct (decide (i < Z.to_nat o)%nat).
  - rewrite decide_True; [exact H|]. apply lookup_lt_is_Some_1. rewrite H.
    apply lookup_lt_is_Some_2. exact Hl.
  - destruct (decide (i < Z.to_nat o + length (blk src o))%nat); [|exact H].
    rewrite lookup_blk by lia. f_equal. lia.
Qed.

Lemma block_done_written s s' o :
  0 <= o -> dst s' = pwrite_file (dst s) (blk src o) (Z.to_nat o) ->
  block_done src s' o.
Proof.
  intros Ho E i Hi Hl. rewrite E, lookup_pwrite_file.
  rewrite decide_False by lia. rewrite length_blk_eq.
  rewrite decide_True by lia. rewrite lookup_blk by (rewrite length_blk_eq; lia).
  f_equal. lia.
Qed.

Lemma off_ok_mono s s' o :
  src_off s <= src_off s' -> off_ok s o -> off_ok s' o.
Proof. unfold off_ok. lia. Qed.

Lemma slot_ok_frame s s' j :
  iocbs s' !!! j = iocbs s !!! j -> src_off s <= src_off s' ->
  (forall n, (n <= 4096)%nat -> take n (drop (4096 * j) (buffer s')) = take n (drop (4096 * j) (buffer s))) ->
  slot_ok src s j -> slot_ok src s' j.
Proof.
  intros Hi Ho Hb (Hbuf & Hoff & Hop). unfold slot_ok. rewrite Hi.
  split; [exact Hbuf|]. split; [exact (off_ok_mono _ _ _ Ho Hoff)|].
  destruct Hop as [Hop|(Hop & Hn & Hp & Hd)]; [left; exact Hop|right].
  split; [exact Hop|]. split; [exact Hn|]. split; [exact Hp|].
  rewrite Hb; [exact Hd|]. rewrite Hn. pose proof (length_blk (offset (iocbs s !!! j))). lia.
Qed.

Lemma ev_ok_frame s s' ev :
  iocbs s' !!! fst ev = iocbs s !!! fst ev -> src_off s <= src_off s' ->
  (forall n, (n <= 4096)%nat -> take n (drop (4096 * fst ev) (buffer s')) = take n (drop (4096 * fst ev) (buffer s))) ->
  (forall o, block_done src s o -> block_done src s' o) ->
  ev_ok src s ev -> ev_ok src s' ev.
Proof.
  destruct ev as [j r]. simpl fst.
  intros Hi Ho Hb Hd (Hbuf & Hoff & Hop). unfold ev_ok. rewrite Hi.
  split; [exact Hbuf|]. split; [exact (off_ok_mono _ _ _ Ho Hoff)|].
  destruct Hop as [(Hop & Hr & Hbb)|(Hop & Hr & Hp & Hdd)]; [left|right].
  - split; [exact Hop|]. split; [exact Hr|]. rewrite Hb; [exact Hbb|apply length_blk].
  - split; [exact Hop|]. split; [exact Hr|]. split; [exact Hp|]. apply Hd, Hdd.
Qed.

End Proofs.

Ltac rsplit n :=
  lazymatch n with
  | O => idtac
  | S ?m => split; [ | rsplit m ]
  end.

Ltac inv_split := rsplit 16%nat.

Section Kernel.
Variables (src : list Z) (src_size : Z).

Lemma kernel_complete_cases s j :
  slot_ok src s j -> (j < 16)%nat -> length (buffer s) = Z.to_nat 65536 ->
  let cb := iocbs s !!! j in
  let s' := fst (kernel_complete src s j) in
  let r := snd (kernel_complete src s j) in
  iocbs s' = iocbs s /\ submit_list s' = submit_list s /\ src_off s' = src_off s /\
  num_io_reqs s' = num_io_reqs s /\ num_to_submit s' = num_to_submit s /\
  inflight s' = filter (fun k => k ≠ j) (inflight s) /\
  r = Z.of_nat (length (blk src (offset cb))) /\
  ((aio_lio_opcode cb = IO_CMD_PREAD /\ dst s' = dst s /\
    buffer s' = mem_store (buffer s) (4096 * j) (blk src (offset cb))) \/
   (aio_lio_opcode cb = IO_CMD_PWRITE /\ buffer s' = buffer s /\
    dst s' = pwrite_file (dst s) (blk src (offset cb)) (Z.to_nat (offset cb)))).
Proof.
  intros (Hbuf & Hoff & Hop) Hj Hlb. cbv zeta. unfold kernel_complete.
  destruct Hop as [(Hop & Hn)|(Hop & Hn & Hp & Hd)].
  - rewrite Hop. cbn [Z.eqb IO_CMD_PREAD]. simpl fst. simpl snd.
    rewrite Hn, Hbuf. change (Z.to_nat 4096) with 4096%nat. fold (blk src (offset (iocbs s !!! j))).
    replace (Z.to_nat (4096 * Z.of_nat j)) with (4096 * j)%nat by lia.
    do 7 (split; [reflexivity|]). left. auto.
  - rewrite Hop. cbn [Z.eqb IO_CMD_PREAD IO_CMD_PWRITE]. simpl fst. simpl snd.
    rewrite Hbuf. replace (Z.to_nat (4096 * Z.of_nat j)) with (4096 * j)%nat by lia.
    cbn [buffer set_inflight]. rewrite Hd.
    do 7 (split; [reflexivity|]). right. auto.
Qed.

End Kernel.

Lemma in_map_fst (j : nat) (r : Z) (evs : list (nat * Z)) :
  (j, r) ∈ evs -> j ∈ map fst evs.
Proof.
  intros H. apply list_elem_of_In, in_map_iff. exists (j, r). split; [reflexivity|].
  apply list_elem_of_In, H.
Qed.

Section KernelInv.
Variables (src : list Z) (src_size : Z).

Lemma kernel_complete_inv s evs j :
  Inv src src_size s evs -> j ∈ inflight s ->
  Inv src src_size (fst (kernel_complete src s j)) (evs ++ [(j, snd (kernel_complete src s j))]).
Proof.
  intros H Hj. inv_destruct H.
  assert (Hjin : j ∈ active s evs) by (unfold active; apply elem_of_app; left; exact Hj).
  assert (Hj16 : (j < 16)%nat) by (rewrite Forall_forall in Hlt; apply Hlt, Hjin).
  assert (Hslj : slot_ok src s j)
    by (rewrite Forall_forall in Hsl; apply Hsl, elem_of_app; left; exact Hj).
  assert (Hndi : NoDup (inflight s)) by (unfold active in Hnd; apply NoDup_app in Hnd; tauto).
  assert (Hjo : j ∉ pending s ++ map fst evs).
  { unfold active in Hnd. apply NoDup_app in Hnd as (_ & Hd & _). apply Hd, Hj. }
  pose proof (kernel_complete_cases src s j Hslj Hj16 Hlb)
    as (Ei & Esl & Eo & En & Ets & Efl & Er & Ecase).
  cbv zeta in *.
  destruct Hslj as (Hbufj & Hoffj & Hopj).
  set (s' := fst (kernel_complete src s j)) in *.
  set (r := snd (kernel_complete src s j)) in *.
  set (o := offset (iocbs s !!! j)) in *.
  assert (Hpend : pending s' = pending s) by (unfold pending; rewrite Esl, Ets; reflexivity).
  assert (HP : active s' (evs ++ [(j, r)]) ≡ₚ active s evs).
  { unfold active. rewrite Hpend, Efl, map_app. simpl.
    rewrite (perm_remove (inflight s) j Hj Hndi) at 2. simpl.
    rewrite !app_assoc. symmetry. apply Permutation_cons_append. }
  assert (Hbuf' : forall k n, (k < 16)%nat -> k <> j -> (n <= 4096)%nat ->
            take n (drop (4096 * k) (buffer s')) = take n (drop (4096 * k) (buffer s))).
  { intros k n Hk Hkj Hn.
    destruct Ecase as [(_ & _ & ->)|(_ & -> & _)]; [|reflexivity].
    apply region_frame; auto using length_blk. }
  assert (Hdone' : forall o', block_done src s o' -> block_done src s' o').
  { intros o' Hd. destruct Ecase as [(_ & Ed & _)|(_ & _ & Ed)].
    - exact (block_done_ext src s s' o' Ed Hd).
    - exact (block_done_write src s s' o o' (proj1 Hoffj) Ed Hd). }
  inv_split.
  - rewrite Ei. exact Hli.
  - rewrite Esl. exact Hls.
  - destruct Ecase as [(_ & _ & ->)|(_ & -> & _)]; [|exact Hlb].
    rewrite length_mem_store; [exact Hlb|]. pose proof (length_blk src o). lia.
  - rewrite Ets. exact Hn0.
  - rewrite Hpend, Ets. exact Hpl.
  - rewrite Ets. exact Hn16.
  - rewrite HP. exact Hnd.
  - rewrite HP. exact Hlt.
  - rewrite En, (Permutation_length HP). exact Hnum.
  - rewrite Eo. exact Ho0.
  - rewrite Eo. exact Hom.
  - rewrite Eo. exact HoR.
  - rewrite Eo, En. exact Hfull.
  - rewrite Forall_forall in Hsl |- *. intros k Hk.
    rewrite Hpend, Efl in Hk. apply elem_of_app in Hk as [Hk|Hk].
    + apply list_elem_of_filter in Hk as [Hkj Hk].
      apply (slot_ok_frame src s s'); [rewrite Ei; reflexivity|lia| |apply Hsl, elem_of_app; left; exact Hk].
      intros n Hn. apply Hbuf'; [|exact Hkj|exact Hn].
      rewrite Forall_forall in Hlt. apply Hlt. unfold active. apply elem_of_app. left. exact Hk.
    + assert (Hkj : k <> j) by (intros ->; apply Hjo, elem_of_app; left; exact Hk).
      apply (slot_ok_frame src s s'); [rewrite Ei; reflexivity|lia| |apply Hsl, elem_of_app; right; exact Hk].
      intros n Hn. apply Hbuf'; [|exact Hkj|exact Hn].
      rewrite Forall_forall in Hlt. apply Hlt. unfold active. apply elem_of_app. right.
      apply elem_of_app. left. exact Hk.
  - apply Forall_app. split.
    + rewrite Forall_forall in Hev |- *. intros [k rk] Hk.
      assert (Hkj : k <> j).
      { intros ->. apply Hjo, elem_of_app. right. apply (in_map_fst j rk), Hk. }
      apply (ev_ok_frame src s s'); [rewrite Ei; reflexivity|lia| |exact Hdone'|apply Hev, Hk].
      intros n Hn. simpl fst. apply Hbuf'; [|exact Hkj|exact Hn].
      rewrite Forall_forall in Hlt. apply Hlt. unfold active. apply elem_of_app. right.
      apply elem_of_app. right. apply (in_map_fst k rk), Hk.
    + apply Forall_singleton. unfold ev_ok. rewrite Ei.
      split; [exact Hbufj|]. split; [exact (off_ok_mono s s' o ltac:(lia) Hoffj)|].
      fold o. destruct Ecase as [(Hop & Ed & Eb)|(Hop & Eb & Ed)].
      * left. split; [exact Hop|]. split; [exact Er|].
        rewrite Eb. apply region_read; auto using length_blk.
      * right. split; [exact Hop|].
        destruct Hopj as [(Hop' & _)|(_ & Hn & Hp & _)].
        { rewrite Hop in Hop'. discriminate. }
        split; [fold o in Hn; rewrite Er, Hn; reflexivity|].
        split; [fold o in Hn; lia|].
        exact (block_done_written src s s' o (proj1 Hoffj) Ed).
  - intros o' Ho' Hm. rewrite Eo in Ho'. destruct (Hblk o' Ho' Hm) as [Hd|(k & Hk & Hko)].
    + left. apply Hdone', Hd.
    + right. exists k. split; [rewrite HP; exact Hk|]. rewrite Ei. exact Hko.
  - intros Hl Ho'. rewrite Eo in Ho'. destruct (Heof Hl Ho') as (k & Hk & Hk1 & Hk2).
    exists k. rewrite Ei, HP. auto.
Qed.

End KernelInv.

Lemma length_pwrite_file (file b : list Z) off :
  (off + length b <= length file)%nat -> length (pwrite_file file b off) = length file.
Proof.
  intros H. unfold pwrite_file. rewrite !length_app, length_take, length_replicate, length_drop. lia.
Qed.

Lemma kernel_complete_inflight src s j :
  inflight (fst (kernel_complete src s j)) = filter (fun k => k ≠ j) (inflight s).
Proof. unfold kernel_complete. destruct (_ =? _); reflexivity. Qed.

Lemma rounded_size_mod x : 0 <= rounded_size x /\ rounded_size x mod 4096 = 0.
Proof.
  unfold rounded_size, READ_BLOCK_SIZE.
  assert (E : x + 4096 - x mod 4096 = 4096 * (x / 4096 + 1))
    by (pose proof (Z.div_mod x 4096); lia).
  rewrite E. change (2 ^ 32) with (4096 * 2 ^ 20). rewrite Z.mul_mod_distr_l by lia.
  split; [pose proof (Z.mod_pos_bound (x / 4096 + 1) (2 ^ 20)); lia|].
  rewrite Z.mul_comm. apply Z_mod_mult.
Qed.

Section KernelSafe.
Variables (src : list Z) (src_size : Z) (dst0 : list Z).
Hypothesis Hdst0 : (length src <= length dst0)%nat.

Lemma kernel_complete_safe s evs j :
  Inv src src_size s evs -> j ∈ inflight s -> Safe src dst0 s ->
  Safe src dst0 (fst (kernel_complete src s j)).
Proof.
  intros H Hj [Hl Hs]. inv_destruct H.
  assert (Hj16 : (j < 16)%nat)
    by (rewrite Forall_forall in Hlt; apply Hlt; unfold active; apply elem_of_app; left; exact Hj).
  assert (Hslj : slot_ok src s j)
    by (rewrite Forall_forall in Hsl; apply Hsl, elem_of_app; left; exact Hj).
  pose proof (kernel_complete_cases src s j Hslj Hj16 Hlb)
    as (Ei & Esl & Eo & En & Ets & Efl & Er & Ecase).
  cbv zeta in *.
  destruct Ecase as [(_ & Ed & _)|(Hop & _ & Ed)].
  - unfold Safe. rewrite Ed. auto.
  - destruct Hslj as (_ & Hoff & [(Hop' & _)|(_ & Hn & Hp & _)]).
    { rewrite Hop in Hop'. discriminate. }
    set (o := offset (iocbs s !!! j)) in *.
    assert (Hin : (Z.to_nat o + length (blk src o) <= length src)%nat).
    { rewrite length_blk_eq. rewrite length_blk_eq in Hn. lia. }
    unfold Safe. rewrite Ed. split.
    + rewrite length_pwrite_file by lia. exact Hl.
    + intros i. rewrite lookup_pwrite_file.
      destruct (decide (i < Z.to_nat o)%nat).
      * rewrite decide_True by lia. apply Hs.
      * destruct (decide (i < Z.to_nat o + length (blk src o))%nat); [|apply Hs].
        right. rewrite lookup_blk by lia. f_equal. lia.
Qed.

End KernelSafe.

Lemma kernel_events_inv src src_size l s evs :
  Inv src src_size s evs -> NoDup l -> (forall j, j ∈ l -> j ∈ inflight s) ->
  Inv src src_size (fst (kernel_events src s l)) (evs ++ snd (kernel_events src s l)) /\
  map fst (snd (kernel_events src s l)) = l.
Proof.
  revert s evs. induction l as [|j l IH]; intros s evs H Hnd Hsub.
  - simpl. rewrite app_nil_r. auto.
  - cbn [kernel_events].
    pose proof (kernel_complete_inv src src_size s evs j H (Hsub j ltac:(left))) as H1.
    pose proof (kernel_complete_inflight src s j) as Ef.
    destruct (kernel_complete src s j) as [s1 r]. simpl fst in H1, Ef. simpl snd in H1.
    apply NoDup_cons in Hnd as [Hjl Hnd].
    destruct (IH s1 (evs ++ [(j, r)]) H1 Hnd) as [H2 E2].
    { intros k Hk. rewrite Ef. apply list_elem_of_filter. split.
      - intros ->. contradiction.
      - apply Hsub. right. exact Hk. }
    destruct (kernel_events src s1 l) as [s2 rs]. simpl in *.
    rewrite <- app_assoc in H2. simpl in H2. split; [exact H2|]. f_equal. exact E2.
Qed.

Lemma kernel_events_safe src src_size dst0 l s evs :
  (length src <= length dst0)%nat ->
  Inv src src_size s evs -> NoDup l -> (forall j, j ∈ l -> j ∈ inflight s) ->
  Safe src dst0 s -> Safe src dst0 (fst (kernel_events src s l)).
Proof.
  intros Hd. revert s evs. induction l as [|j l IH]; intros s evs H Hnd Hsub Hs.
  - exact Hs.
  - cbn [kernel_events].
    pose proof (kernel_complete_inv src src_size s evs j H (Hsub j ltac:(left))) as H1.
    pose proof (kernel_complete_safe src src_size dst0 Hd s evs j H (Hsub j ltac:(left)) Hs) as Hs1.
    pose proof (kernel_complete_inflight src s j) as Ef.
    destruct (kernel_complete src s j) as [s1 r]. simpl fst in H1, Ef, Hs1. simpl snd in H1.
    apply NoDup_cons in Hnd as [Hjl Hnd].
    specialize (IH s1 (evs ++ [(j, r)]) H1 Hnd).
    destruct (kernel_events src s1 l) as [s2 rs]. simpl in *. apply IH; [|exact Hs1].
    intros k Hk. rewrite Ef. apply list_elem_of_filter. split.
    + intros ->. contradiction.
    + apply Hsub. right. exact Hk.
Qed.

Lemma pending_queue s s' j :
  0 <= num_to_submit s -> (Z.to_nat (num_to_submit s) < length (submit_list s))%nat ->
  submit_list s' = <[Z.to_nat (num_to_submit s) := Some j]> (submit_list s) ->
  num_to_submit s' = num_to_submit s + 1 ->
  pending s' = pending s ++ [j].
Proof.
  intros H0 Hlt Esl Ets. unfold pending. rewrite Esl, Ets.
  replace (Z.to_nat (num_to_submit s + 1)) with (S (Z.to_nat (num_to_submit s))) by lia.
  rewrite (take_S_r _ _ (Some j)) by (apply list_lookup_insert_eq; exact Hlt).
  rewrite take_insert_ge by lia. rewrite omap_app. reflexivity.
Qed.

Lemma active_length_bound s evs :
  NoDup (active s evs) -> Forall (fun j => j < 16)%nat (active s evs) ->
  (length (inflight s) + length (pending s) + length evs <= 16)%nat.
Proof.
  intros Hnd Hlt. pose proof (NoDup_bound _ 16 Hnd Hlt) as H.
  unfold active in H. rewrite !length_app, length_map in H. lia.
Qed.

Section Handle.
Variables (src_fd dst_fd : Z) (src : list Z) (src_size : Z).

Lemma inv_read_done s evs j r s' :
  Inv src src_size s ((j, r) :: evs) ->
  aio_lio_opcode (iocbs s !!! j) = IO_CMD_PREAD -> r <> 0 ->
  iocbs s' = <[j := io_write_setup dst_fd (offset (iocbs s !!! j)) (buf (iocbs s !!! j)) r]> (iocbs s) ->
  submit_list s' = <[Z.to_nat (num_to_submit s) := Some j]> (submit_list s) ->
  num_to_submit s' = num_to_submit s + 1 ->
  src_off s' = src_off s -> num_io_reqs s' = num_io_reqs s -> inflight s' = inflight s ->
  buffer s' = buffer s -> dst s' = dst s ->
  Inv src src_size s' evs.
Proof.
  intros H Hop Hr Ei Esl Ets Eo En Efl Eb Ed. inv_destruct H.
  pose proof (active_length_bound s _ Hnd Hlt) as Hbound. simpl in Hbound.
  assert (Hpend : pending s' = pending s ++ [j])
    by (apply pending_queue; [lia|lia|exact Esl|exact Ets]).
  assert (HA : active s' evs = active s ((j, r) :: evs)).
  { unfold active. rewrite Hpend, Efl. simpl. rewrite <- app_assoc. reflexivity. }
  assert (Hj16 : (j < 16)%nat).
  { rewrite Forall_forall in Hlt. apply Hlt. unfold active. rewrite !elem_of_app. right. right. left. }
  assert (Hjn : forall k, k ∈ inflight s ++ pending s -> k <> j).
  { intros k Hk ->. unfold active in Hnd. rewrite app_assoc in Hnd.
    apply NoDup_app in Hnd as (_ & Hd & _). apply (Hd j Hk). simpl. left. }
  assert (Hjn' : forall k rk, (k, rk) ∈ evs -> k <> j).
  { intros k rk Hk ->. unfold active in Hnd. rewrite app_assoc in Hnd.
    apply NoDup_app in Hnd as (_ & _ & Hd). simpl in Hd. apply NoDup_cons in Hd as [Hd _].
    apply Hd. apply (in_map_fst j rk), Hk. }
  assert (Hlk : forall k, k <> j -> iocbs s' !!! k = iocbs s !!! k)
    by (intros k Hk; rewrite Ei; apply list_lookup_total_insert_ne; congruence).
  assert (Hlj : iocbs s' !!! j = io_write_setup dst_fd (offset (iocbs s !!! j)) (buf (iocbs s !!! j)) r)
    by (rewrite Ei; apply list_lookup_total_insert_eq; lia).
  assert (Hoffs : forall k, offset (iocbs s' !!! k) = offset (iocbs s !!! k)).
  { intros k. destruct (decide (k = j)) as [->|Hk]; [rewrite Hlj; reflexivity|rewrite Hlk; auto]. }
  rewrite Forall_cons in Hev. destruct Hev as [Hevj Hev].
  destruct Hevj as (Hbj & Hoj & [(_ & Hrj & Htj)|(Hop' & _)]);
    [|rewrite Hop in Hop'; discriminate].
  inv_split.
  - rewrite Ei, length_insert. exact Hli.
  - rewrite Esl, length_insert. exact Hls.
  - rewrite Eb. exact Hlb.
  - rewrite Ets. lia.
  - rewrite Hpend, Ets, length_app. simpl. lia.
  - rewrite Ets. lia.
  - rewrite HA. exact Hnd.
  - rewrite HA. exact Hlt.
  - rewrite HA, En. exact Hnum.
  - rewrite Eo. exact Ho0.
  - rewrite Eo. exact Hom.
  - rewrite Eo. exact HoR.
  - rewrite Eo, En. exact Hfull.
  - rewrite Hpend, Efl, app_assoc. apply Forall_app. split.
    + rewrite Forall_forall in Hsl |- *. intros k Hk.
      apply (slot_ok_frame src s s'); [apply Hlk, Hjn, Hk|lia| |apply Hsl, Hk].
      intros n _. rewrite Eb. reflexivity.
    + apply Forall_singleton. unfold slot_ok. rewrite Hlj. cbn [buf offset nbytes aio_lio_opcode io_write_setup].
      split; [exact Hbj|]. split; [exact (off_ok_mono s s' _ ltac:(lia) Hoj)|].
      right. split; [reflexivity|]. split; [exact Hrj|].
      split; [rewrite Hrj in Hr |- *; lia|].
      rewrite Eb, Hrj, Nat2Z.id. exact Htj.
  - rewrite Forall_forall in Hev |- *. intros [k rk] Hk.
    apply (ev_ok_frame src s s'); [apply Hlk, (Hjn' k rk Hk)|lia| | |apply Hev, Hk].
    + intros n _. rewrite Eb. reflexivity.
    + intros o' Hd. exact (block_done_ext src s s' o' Ed Hd).
  - intros o' Ho' Hm. rewrite Eo in Ho'. destruct (Hblk o' Ho' Hm) as [Hd|(k & Hk & Hko)].
    + left. exact (block_done_ext src s s' o' Ed Hd).
    + right. exists k. rewrite HA, Hoffs. auto.
  - intros Hl Ho'. rewrite Eo in Ho'. destruct (Heof Hl Ho') as (k & Hk & Hk1 & Hk2).
    exists k. rewrite HA, Hoffs. split; [exact Hk|]. split; [|exact Hk2].
    destruct (decide (k = j)) as [->|Hkj]; [|rewrite Hlk; auto].
    exfalso. apply Hr. rewrite Hrj, Hk2. rewrite length_blk_eq.
    replace (Z.to_nat (rounded_size src_size - 4096)) with (length src) by lia. lia.
Qed.

Lemma active_drop_head s evs j r k :
  k ∈ active s ((j, r) :: evs) -> k <> j -> k ∈ active s evs.
Proof.
  unfold active. simpl. rewrite !elem_of_app, elem_of_cons. intros [H|[H|[H|H]]] Hk;
    [left; exact H|right; left; exact H|congruence|right; right; exact H].
Qed.

Lemma NoDup_drop_mid (a c : list nat) (b : nat) : NoDup (a ++ b :: c) -> NoDup (a ++ c).
Proof.
  intros H. apply NoDup_app in H as (Ha & Hd & Hc). apply NoDup_cons in Hc as [_ Hc].
  apply NoDup_app. split; [exact Ha|]. split; [|exact Hc].
  intros x Hx Hx'. apply (Hd x Hx). apply elem_of_cons. right. exact Hx'.
Qed.

Lemma inv_write_next s evs j r s' :
  Inv src src_size s ((j, r) :: evs) ->
  aio_lio_opcode (iocbs s !!! j) = IO_CMD_PWRITE -> src_off s < rounded_size src_size ->
  iocbs s' = <[j := io_read_setup src_fd (src_off s) (buf (iocbs s !!! j)) READ_BLOCK_SIZE]> (iocbs s) ->
  submit_list s' = <[Z.to_nat (num_to_submit s) := Some j]> (submit_list s) ->
  num_to_submit s' = num_to_submit s + 1 ->
  src_off s' = src_off s + READ_BLOCK_SIZE -> num_io_reqs s' = num_io_reqs s -> inflight s' = inflight s ->
  buffer s' = buffer s -> dst s' = dst s ->
  Inv src src_size s' evs.
Proof.
  intros H Hop HR Ei Esl Ets Eo En Efl Eb Ed. unfold READ_BLOCK_SIZE in Eo. inv_destruct H.
  pose proof (active_length_bound s _ Hnd Hlt) as Hbound. simpl in Hbound.
  pose proof (rounded_size_mod src_size) as [HR0 HRm].
  assert (HoR' : src_off s + 4096 <= rounded_size src_size).
  { pose proof (Z.div_mod (src_off s) 4096) as D1. pose proof (Z.div_mod (rounded_size src_size) 4096) as D2.
    rewrite Hom in D1. rewrite HRm in D2.
    assert (src_off s / 4096 < rounded_size src_size / 4096) by lia. lia. }
  assert (Hpend : pending s' = pending s ++ [j])
    by (apply pending_queue; [lia|lia|exact Esl|exact Ets]).
  assert (HA : active s' evs = active s ((j, r) :: evs)).
  { unfold active. rewrite Hpend, Efl. simpl. rewrite <- app_assoc. reflexivity. }
  assert (Hj16 : (j < 16)%nat).
  { rewrite Forall_forall in Hlt. apply Hlt. unfold active. rewrite !elem_of_app. right. right. left. }
  assert (Hjn : forall k, k ∈ inflight s ++ pending s -> k <> j).
  { intros k Hk ->. unfold active in Hnd. rewrite app_assoc in Hnd.
    apply NoDup_app in Hnd as (_ & Hd & _). apply (Hd j Hk). simpl. left. }
  assert (Hjn' : forall k rk, (k, rk) ∈ evs -> k <> j).
  { intros k rk Hk ->. unfold active in Hnd. rewrite app_assoc in Hnd.
    apply NoDup_app in Hnd as (_ & _ & Hd). simpl in Hd. apply NoDup_cons in Hd as [Hd _].
    apply Hd. apply (in_map_fst j rk), Hk. }
  assert (Hlk : forall k, k <> j -> iocbs s' !!! k = iocbs s !!! k)
    by (intros k Hk; rewrite Ei; apply list_lookup_total_insert_ne; congruence).
  assert (Hlj : iocbs s' !!! j = io_read_setup src_fd (src_off s) (buf (iocbs s !!! j)) READ_BLOCK_SIZE)
    by (rewrite Ei; apply list_lookup_total_insert_eq; lia).
  rewrite Forall_cons in Hev. destruct Hev as [Hevj Hev].
  destruct Hevj as (Hbj & Hoj & [(Hop' & _)|(_ & Hrj & Hr0 & Hdj)]);
    [rewrite Hop in Hop'; discriminate|].
  inv_split.
  - rewrite Ei, length_insert. exact Hli.
  - rewrite Esl, length_insert. exact Hls.
  - rewrite Eb. exact Hlb.
  - rewrite Ets. lia.
  - rewrite Hpend, Ets, length_app. simpl. lia.
  - rewrite Ets. lia.
  - rewrite HA. exact Hnd.
  - rewrite HA. exact Hlt.
  - rewrite HA, En. exact Hnum.
  - rewrite Eo. lia.
  - rewrite Eo, Zplus_mod, Hom. reflexivity.
  - rewrite Eo. exact HoR'.
  - rewrite En. intros _. apply Hfull. exact HR.
  - rewrite Hpend, Efl, app_assoc. apply Forall_app. split.
    + rewrite Forall_forall in Hsl |- *. intros k Hk.
      apply (slot_ok_frame src s s'); [apply Hlk, Hjn, Hk|lia| |apply Hsl, Hk].
      intros n _. rewrite Eb. reflexivity.
    + apply Forall_singleton. unfold slot_ok. rewrite Hlj.
      cbn [buf offset nbytes aio_lio_opcode io_read_setup].
      split; [exact Hbj|]. split; [unfold off_ok; lia|].
      left. split; reflexivity.
  - rewrite Forall_forall in Hev |- *. intros [k rk] Hk.
    apply (ev_ok_frame src s s'); [apply Hlk, (Hjn' k rk Hk)|lia| | |apply Hev, Hk].
    + intros n _. rewrite Eb. reflexivity.
    + intros o' Hd. exact (block_done_ext src s s' o' Ed Hd).
  - intros o' Ho' Hm. rewrite Eo in Ho'.
    destruct (Z.lt_ge_cases o' (src_off s)) as [Hlt'|Hge].
    + destruct (Hblk o' (conj (proj1 Ho') Hlt') Hm) as [Hd|(k & Hk & Hko)].
      * left. exact (block_done_ext src s s' o' Ed Hd).
      * destruct (decide (k = j)) as [->|Hkj].
        -- left. rewrite <- Hko. exact (block_done_ext src s s' _ Ed Hdj).
        -- right. exists k. rewrite HA, Hlk by exact Hkj. auto.
    + right. exists j. rewrite HA, Hlj. split.
      * unfold active. rewrite !elem_of_app. right. right. left.
      * cbn [offset io_read_setup]. pose proof (Z.div_mod o' 4096) as D1.
        pose proof (Z.div_mod (src_off s) 4096) as D2. rewrite Hm in D1. rewrite Hom in D2.
        assert (o' / 4096 = src_off s / 4096) by lia. lia.
  - intros Hl Ho'. rewrite Eo in Ho'. exists j. rewrite HA, Hlj.
    cbn [offset aio_lio_opcode io_read_setup]. split; [|split; [reflexivity|lia]].
    unfold active. rewrite !elem_of_app. right. right. left.
Qed.

Lemma inv_write_retire s evs j r s' :
  Inv src src_size s ((j, r) :: evs) ->
  aio_lio_opcode (iocbs s !!! j) = IO_CMD_PWRITE -> rounded_size src_size <= src_off s ->
  num_io_reqs s' = size_t (num_io_reqs s - 1) ->
  iocbs s' = iocbs s -> submit_list s' = submit_list s -> num_to_submit s' = num_to_submit s ->
  src_off s' = src_off s -> inflight s' = inflight s ->
  buffer s' = buffer s -> dst s' = dst s ->
  Inv src src_size s' evs.
Proof.
  intros H Hop HR En Ei Esl Ets Eo Efl Eb Ed. inv_destruct H.
  assert (Hpend : pending s' = pending s) by (unfold pending; rewrite Esl, Ets; reflexivity).
  assert (HAe : active s' evs = active s evs) by (unfold active; rewrite Hpend, Efl; reflexivity).
  assert (HAs : active s ((j, r) :: evs) = (inflight s ++ pending s) ++ j :: map fst evs)
    by (unfold active; rewrite <- app_assoc; reflexivity).
  assert (HAs' : active s evs = (inflight s ++ pending s) ++ map fst evs)
    by (unfold active; rewrite <- app_assoc; reflexivity).
  rewrite Forall_cons in Hev. destruct Hev as [Hevj Hev].
  destruct Hevj as (Hbj & Hoj & [(Hop' & _)|(_ & Hrj & Hr0 & Hdj)]);
    [rewrite Hop in Hop'; discriminate|].
  assert (Hfr : forall k, iocbs s' !!! k = iocbs s !!! k) by (intros k; rewrite Ei; reflexivity).
  inv_split.
  - rewrite Ei. exact Hli.
  - rewrite Esl. exact Hls.
  - rewrite Eb. exact Hlb.
  - rewrite Ets. exact Hn0.
  - rewrite Hpend, Ets. exact Hpl.
  - rewrite Ets. exact Hn16.
  - rewrite HAe, HAs'. rewrite HAs in Hnd. exact (NoDup_drop_mid _ _ _ Hnd).
  - rewrite HAe, HAs'. rewrite HAs in Hlt. apply Forall_app in Hlt as [H1 H2].
    apply Forall_cons in H2 as [_ H2]. apply Forall_app. auto.
  - rewrite En, HAe, HAs'. rewrite HAs in Hnum. rewrite !length_app in Hnum |- *.
    simpl in Hnum. rewrite Hnum, size_t_small; [lia|]. rewrite HAs in Hnd, Hlt. pose proof (NoDup_bound _ 16 Hnd Hlt) as Hb. rewrite !length_app in Hb. simpl in Hb. lia.
  - rewrite Eo. exact Ho0.
  - rewrite Eo. exact Hom.
  - rewrite Eo. exact HoR.
  - rewrite Eo. lia.
  - rewrite Forall_forall in Hsl |- *. rewrite Hpend, Efl. intros k Hk.
    apply (slot_ok_frame src s s'); [apply Hfr|lia| |apply Hsl, Hk].
    intros n _. rewrite Eb. reflexivity.
  - rewrite Forall_forall in Hev |- *. intros [k rk] Hk.
    apply (ev_ok_frame src s s'); [apply Hfr|lia| | |apply Hev, Hk].
    + intros n _. rewrite Eb. reflexivity.
    + intros o' Hd. exact (block_done_ext src s s' o' Ed Hd).
  - intros o' Ho' Hm. rewrite Eo in Ho'. destruct (Hblk o' Ho' Hm) as [Hd|(k & Hk & Hko)].
    + left. exact (block_done_ext src s s' o' Ed Hd).
    + destruct (decide (k = j)) as [->|Hkj].
      * left. rewrite <- Hko. exact (block_done_ext src s s' _ Ed Hdj).
      * right. exists k. rewrite HAe, Hfr. split; [|exact Hko].
        exact (active_drop_head s evs j r k Hk Hkj).
  - intros Hl Ho'. rewrite Eo in Ho'. destruct (Heof Hl Ho') as (k & Hk & Hk1 & Hk2).
    exists k. rewrite HAe, Hfr. split; [|auto].
    apply (active_drop_head s evs j r k Hk). intros ->. rewrite Hop in Hk1. discriminate.
Qed.

End Handle.

Ltac am_unfold H :=
  cbv [st_bind st_get st_modify st_put st_exit mbind ST_bind mret ST_ret queue aio_printf] in H.

Section HandleRun.
Variables (src_fd dst_fd : Z) (src : list Z) (src_size : Z).

Lemma handle_event_inv s evs j r u s' :
  Inv src src_size s ((j, r) :: evs) ->
  handle_event src_fd dst_fd src_size (j, r) s = Done u s' ->
  Inv src src_size s' evs.
Proof.
  intros H Hrun. pose proof H as H'. inv_destruct H'.
  rewrite Forall_cons in Hev. destruct Hev as [(_ & _ & Hopj) _].
  unfold handle_event in Hrun. am_unfold Hrun.
  destruct Hopj as [(Hop & _)|(Hop & _)]; rewrite Hop in Hrun;
    cbn [Z.eqb IO_CMD_PREAD IO_CMD_PWRITE Pos.eqb] in Hrun.
  - destruct (r =? 0) eqn:Er; cbn [negb] in Hrun; [discriminate|].
    injection Hrun as _ <-.
    apply (inv_read_done dst_fd src src_size s evs j r); try reflexivity; auto.
    apply Z.eqb_neq, Er.
  - destruct (negb (r =? 0) && (src_off s <? rounded_size src_size)) eqn:Ec;
      injection Hrun as _ <-.
    + apply andb_true_iff in Ec as [_ Ec]. apply Z.ltb_lt in Ec.
      apply (inv_write_next src_fd src src_size s evs j r); try reflexivity; auto.
    + apply (inv_write_retire src src_size s evs j r); try reflexivity; auto.
      apply andb_false_iff in Ec as [Ec|Ec].
      * exfalso. destruct H as (_ & _ & _ & _ & _ & _ & _ & _ & _ & _ & _ & _ & _ & _ & Hev & _).
        rewrite Forall_cons in Hev. destruct Hev as [(_ & _ & [(Hop' & _)|(_ & Hr & Hr0 & _)]) _];
          [rewrite Hop in Hop'; discriminate|].
        apply negb_false_iff, Z.eqb_eq in Ec. lia.
      * apply Z.ltb_ge, Ec.
Qed.

Lemma handle_event_dst s ev :
  dst (final_state (handle_event src_fd dst_fd src_size ev s)) = dst s.
Proof.
  destruct ev as [j r]. unfold handle_event.
  cbv [st_bind st_get st_modify st_put st_exit mbind ST_bind mret ST_ret queue aio_printf].
  repeat case_match; reflexivity.
Qed.

Lemma handle_events_cons ev evs s :
  handle_events src_fd dst_fd src_size (ev :: evs) s =
  match handle_event src_fd dst_fd src_size ev s with
  | Done _ s1 => handle_events src_fd dst_fd src_size evs s1
  | Exited c s1 => Exited c s1
  end.
Proof. reflexivity. Qed.

Lemma handle_events_inv evs s u s' :
  Inv src src_size s evs ->
  handle_events src_fd dst_fd src_size evs s = Done u s' ->
  Inv src src_size s' [].
Proof.
  revert s. induction evs as [|ev evs IH]; intros s H Hrun.
  - cbv in Hrun. injection Hrun as _ <-. exact H.
  - rewrite handle_events_cons in Hrun. destruct ev as [j r].
    destruct (handle_event src_fd dst_fd src_size (j, r) s) as [u1 s1|c s1] eqn:E;
      [|discriminate].
    exact (IH s1 (handle_event_inv s evs j r u1 s1 H E) Hrun).
Qed.

Lemma handle_events_dst evs s :
  dst (final_state (handle_events src_fd dst_fd src_size evs s)) = dst s.
Proof.
  revert s. induction evs as [|ev evs IH]; intros s; [reflexivity|].
  rewrite handle_events_cons. pose proof (handle_event_dst s ev) as E.
  destruct (handle_event src_fd dst_fd src_size ev s) as [u1 s1|c s1]; simpl in E |- *;
    [rewrite IH|]; exact E.
Qed.

End HandleRun.

Lemma kernel_events_nts src s l n :
  kernel_events src (set_num_to_submit s n) l =
  (set_num_to_submit (fst (kernel_events src s l)) n, snd (kernel_events src s l)).
Proof.
  revert s. induction l as [|j l IH]; intros s; [reflexivity|].
  cbn [kernel_events].
  assert (E : kernel_complete src (set_num_to_submit s n) j =
              (set_num_to_submit (fst (kernel_complete src s j)) n, snd (kernel_complete src s j))).
  { unfold kernel_complete. destruct s. simpl. case_match; reflexivity. }
  rewrite E. destruct (kernel_complete src s j) as [s1 r]. simpl. rewrite IH.
  destruct (kernel_events src s1 l). reflexivity.
Qed.

Lemma NoDup_take_nat n (l : list nat) : NoDup l -> NoDup (take n l).
Proof.
  intros H. rewrite <- (take_drop n l) in H. apply NoDup_app in H. tauto.
Qed.

Lemma reported_props held req :
  NoDup held ->
  NoDup (reported held req) /\ (forall j, j ∈ reported held req -> j ∈ held).
Proof.
  intros Hh. unfold reported.
  assert (Hsub : forall j, j ∈ take QUEUE_SIZE (remove_dups (filter (fun j => j ∈ held) req)) -> j ∈ held).
  { intros j Hj. apply subseteq_take, elem_of_remove_dups, list_elem_of_filter in Hj. tauto. }
  assert (Hnd : NoDup (take QUEUE_SIZE (remove_dups (filter (fun j => j ∈ held) req))))
    by (apply NoDup_take_nat, NoDup_remove_dups).
  destruct (take QUEUE_SIZE (remove_dups (filter (fun j => j ∈ held) req))) as [|k l] eqn:E.
  - split; [apply NoDup_take_nat, Hh|]. intros j Hj. apply subseteq_take in Hj. exact Hj.
  - split; [exact Hnd|exact Hsub].
Qed.

Lemma inv_submit src src_size s :
  Inv src src_size s [] ->
  Inv src src_size (set_num_to_submit (set_inflight s (inflight s ++ pending s)) 0) [].
Proof.
  intros H. inv_destruct H.
  set (s1 := set_num_to_submit (set_inflight s (inflight s ++ pending s)) 0).
  assert (Hp : pending s1 = []) by reflexivity.
  assert (HA : active s1 [] = active s []).
  { unfold active. rewrite Hp. simpl. rewrite !app_nil_r. reflexivity. }
  inv_split.
  - exact Hli.
  - exact Hls.
  - exact Hlb.
  - simpl. lia.
  - rewrite Hp. reflexivity.
  - simpl. lia.
  - rewrite HA. exact Hnd.
  - rewrite HA. exact Hlt.
  - rewrite HA. exact Hnum.
  - exact Ho0.
  - exact Hom.
  - exact HoR.
  - exact Hfull.
  - rewrite Hp, app_nil_r. exact Hsl.
  - constructor.
  - intros o Ho Hm. rewrite HA. exact (Hblk o Ho Hm).
  - intros Hl Ho. rewrite HA. exact (Heof Hl Ho).
Qed.

Section Iteration.
Variables (src_fd dst_fd : Z) (src : list Z) (src_size : Z).

Lemma iteration_run t s :
  iteration src_fd dst_fd src src_size t s =
  if negb (at_submit t) then Exited EXIT_FAILURE s
  else match at_events t with
       | None => Exited EXIT_FAILURE
                   (set_out (set_inflight s (inflight s ++ pending s))
                      (out (set_inflight s (inflight s ++ pending s)) ++ ["Unable to get finished I/O events"%string]))
       | Some req =>
           let s1 := set_num_to_submit (set_inflight s (inflight s ++ pending s)) 0 in
           let ke := kernel_events src s1 (reported (inflight s ++ pending s) req) in
           handle_events src_fd dst_fd src_size (snd ke) (fst ke)
       end.
Proof.
  unfold iteration. destruct (at_submit t); [|reflexivity]. cbn [negb].
  destruct (at_events t) as [req|]; [|reflexivity].
  cbv [st_bind st_get st_modify st_put mbind ST_bind].
  change (inflight (set_inflight s (inflight s ++ pending s))) with (inflight s ++ pending s).
  cbv zeta. rewrite kernel_events_nts.
  destruct (kernel_events src (set_inflight s (inflight s ++ pending s))
             (reported (inflight s ++ pending s) req)). reflexivity.
Qed.

Lemma iteration_inv t s u s' :
  Inv src src_size s [] ->
  iteration src_fd dst_fd src src_size t s = Done u s' ->
  Inv src src_size s' [].
Proof.
  intros H Hrun. rewrite iteration_run in Hrun.
  destruct (at_submit t); [|discriminate]. cbn [negb] in Hrun.
  destruct (at_events t) as [req|]; [|discriminate].
  pose proof (inv_submit src src_size s H) as H1.
  set (s1 := set_num_to_submit (set_inflight s (inflight s ++ pending s)) 0) in *.
  pose proof H1 as Hc. inv_destruct Hc.
  destruct (reported_props (inflight s1) req) as [Hr1 Hr2].
  { unfold active in Hnd. apply NoDup_app in Hnd. tauto. }
  destruct (kernel_events_inv src src_size _ s1 [] H1 Hr1 Hr2) as [H2 _].
  exact (handle_events_inv src_fd dst_fd src src_size _ _ u s' H2 Hrun).
Qed.

Lemma iteration_safe dst0 t s :
  (length src <= length dst0)%nat ->
  Inv src src_size s [] -> Safe src dst0 s ->
  Safe src dst0 (final_state (iteration src_fd dst_fd src src_size t s)).
Proof.
  intros Hd H Hs. rewrite iteration_run.
  destruct (at_submit t); [|exact Hs]. cbn [negb].
  destruct (at_events t) as [req|]; [|exact Hs].
  pose proof (inv_submit src src_size s H) as H1.
  set (s1 := set_num_to_submit (set_inflight s (inflight s ++ pending s)) 0) in *.
  pose proof H1 as Hc. inv_destruct Hc.
  destruct (reported_props (inflight s1) req) as [Hr1 Hr2].
  { unfold active in Hnd. apply NoDup_app in Hnd. tauto. }
  pose proof (kernel_events_safe src src_size dst0 _ s1 [] Hd H1 Hr1 Hr2 Hs) as Hs2.
  destruct Hs2 as [Hs2l Hs2i]. split.
  - rewrite handle_events_dst. exact Hs2l.
  - rewrite handle_events_dst. exact Hs2i.
Qed.

End Iteration.

Section Loop.
Variables (src_fd dst_fd : Z) (src : list Z) (src_size : Z).

Lemma copy_loop_cons t ts s :
  copy_loop src_fd dst_fd src src_size (t :: ts) s =
  if num_io_reqs s =? 0 then Done true s
  else match iteration src_fd dst_fd src src_size t s with
       | Done _ s1 => copy_loop src_fd dst_fd src src_size ts s1
       | Exited c s1 => Exited c s1
       end.
Proof. cbn. destruct (num_io_reqs s =? 0); reflexivity. Qed.

Lemma copy_loop_inv ts s b s' :
  Inv src src_size s [] ->
  copy_loop src_fd dst_fd src src_size ts s = Done b s' ->
  Inv src src_size s' [] /\ (b = true -> num_io_reqs s' = 0).
Proof.
  revert s. induction ts as [|t ts IH]; intros s H Hrun.
  - cbv [copy_loop st_bind st_get] in Hrun.
    destruct (num_io_reqs s =? 0) eqn:E; injection Hrun as <- <-;
      [split; [exact H|intros _; apply Z.eqb_eq, E]|split; [exact H|discriminate]].
  - rewrite copy_loop_cons in Hrun. destruct (num_io_reqs s =? 0) eqn:E.
    + injection Hrun as <- <-. split; [exact H|intros _; apply Z.eqb_eq, E].
    + destruct (iteration src_fd dst_fd src src_size t s) as [u s1|c s1] eqn:Ei; [|discriminate].
      exact (IH s1 (iteration_inv src_fd dst_fd src src_size t s u s1 H Ei) Hrun).
Qed.

Lemma copy_loop_safe dst0 ts s :
  (length src <= length dst0)%nat ->
  Inv src src_size s [] -> Safe src dst0 s ->
  Safe src dst0 (final_state (copy_loop src_fd dst_fd src src_size ts s)).
Proof.
  intros Hd. revert s. induction ts as [|t ts IH]; intros s H Hs.
  - cbv [copy_loop st_bind st_get]. destruct (num_io_reqs s =? 0); exact Hs.
  - rewrite copy_loop_cons. destruct (num_io_reqs s =? 0); [exact Hs|].
    pose proof (iteration_safe src_fd dst_fd src src_size dst0 t s Hd H Hs) as Hs1.
    destruct (iteration src_fd dst_fd src src_size t s) as [u s1|c s1] eqn:Ei; [|exact Hs1].
    exact (IH s1 (iteration_inv src_fd dst_fd src src_size t s u s1 H Ei) Hs1).
Qed.

End Loop.

Lemma omap_id_map_Some (l : list nat) : omap id (map Some l) = l.
Proof. induction l as [|x l IH]; [reflexivity|]. change (x :: omap id (map Some l) = x :: l). rewrite IH. reflexivity. Qed.

Section Start.
Variables (src_fd dst_fd : Z) (src : list Z) (src_size : Z).

Lemma mult_4096_le a b :
  a mod 4096 = 0 -> b mod 4096 = 0 -> a < b -> a + 4096 <= b.
Proof.
  intros Ha Hb Hlt. pose proof (Z.div_mod a 4096) as D1. pose proof (Z.div_mod b 4096) as D2.
  rewrite Ha in D1. rewrite Hb in D2. assert (a / 4096 < b / 4096) by lia. lia.
Qed.

Lemma initial_reads_spec fuel k s :
  (k + fuel = 16)%nat ->
  length (iocbs s) = 16%nat -> length (submit_list s) = 16%nat ->
  src_off s = 4096 * Z.of_nat k -> num_io_reqs s = Z.of_nat k -> src_off s <= rounded_size src_size ->
  (forall i, (i < k)%nat -> iocbs s !!! i =
     io_read_setup src_fd (Z.of_nat i * READ_BLOCK_SIZE) (Z.of_nat i * READ_BLOCK_SIZE) READ_BLOCK_SIZE) ->
  take k (submit_list s) = map Some (seq 0 k) ->
  exists k' s', initial_reads src_fd src_size k fuel s = Done tt s' /\
    (k <= k' <= 16)%nat /\ (k' = 16%nat \/ rounded_size src_size <= src_off s') /\
    length (iocbs s') = 16%nat /\ length (submit_list s') = 16%nat /\
    src_off s' = 4096 * Z.of_nat k' /\ num_io_reqs s' = Z.of_nat k' /\
    src_off s' <= rounded_size src_size /\
    (forall i, (i < k')%nat -> iocbs s' !!! i =
       io_read_setup src_fd (Z.of_nat i * READ_BLOCK_SIZE) (Z.of_nat i * READ_BLOCK_SIZE) READ_BLOCK_SIZE) /\
    take k' (submit_list s') = map Some (seq 0 k') /\
    inflight s' = inflight s /\ buffer s' = buffer s /\ dst s' = dst s.
Proof.
  revert k s. induction fuel as [|fuel IH]; intros k s Hk Hli Hls Ho Hn HoR Hi Hs.
  - exists k, s. split; [reflexivity|]. rewrite Nat.add_0_r in Hk. subst k.
    repeat split; auto; lia.
  - cbn [initial_reads]. cbv [st_bind st_get st_put mbind ST_bind].
    destruct (src_off s <? rounded_size src_size) eqn:Ec.
    + apply Z.ltb_lt in Ec. pose proof (rounded_size_mod src_size) as [_ HRm].
      assert (Hom : src_off s mod 4096 = 0)
        by (rewrite Ho, Z.mul_comm; apply Z_mod_mult).
      pose proof (mult_4096_le _ _ Hom HRm Ec) as Hle.
      match goal with |- context [initial_reads _ _ (S k) fuel ?s1] => set (s1' := s1) end.
      assert (H1 : (S k + fuel = 16)%nat) by lia.
      assert (H2 : length (iocbs s1') = 16%nat) by (cbn; rewrite length_insert; exact Hli).
      assert (H3 : length (submit_list s1') = 16%nat) by (cbn; rewrite length_insert; exact Hls).
      assert (H4 : src_off s1' = 4096 * Z.of_nat (S k)) by (cbn; unfold READ_BLOCK_SIZE; lia).
      assert (H5 : num_io_reqs s1' = Z.of_nat (S k)) by (cbn; rewrite Hn; lia).
      assert (H6 : src_off s1' <= rounded_size src_size) by (cbn; unfold READ_BLOCK_SIZE; lia).
      assert (H7 : forall i, (i < S k)%nat -> iocbs s1' !!! i =
        io_read_setup src_fd (Z.of_nat i * READ_BLOCK_SIZE) (Z.of_nat i * READ_BLOCK_SIZE) READ_BLOCK_SIZE).
      { intros i Hi'. cbn [s1' iocbs set_iocbs set_submit_list set_src_off set_num_io_reqs].
        destruct (decide (i = k)) as [->|Hne].
        - rewrite list_lookup_total_insert_eq by lia. rewrite Ho. f_equal. unfold READ_BLOCK_SIZE. lia.
        - rewrite list_lookup_total_insert_ne by congruence. apply Hi. lia. }
      assert (H8 : take (S k) (submit_list s1') = map Some (seq 0 (S k))).
      { cbn [s1' submit_list set_iocbs set_submit_list set_src_off set_num_io_reqs].
        rewrite (take_S_r _ _ (Some k)) by (apply list_lookup_insert_eq; lia).
        rewrite take_insert_ge by lia. rewrite Hs, seq_S, map_app. reflexivity. }
      destruct (IH (S k) s1' H1 H2 H3 H4 H5 H6 H7 H8) as (k' & s' & Hrun & Hk' & Hrest).
      exists k', s'. split; [exact Hrun|]. split; [lia|exact Hrest].
    + apply Z.ltb_ge in Ec. exists k, s. split; [reflexivity|].
      repeat split; auto; lia.
Qed.

Lemma copy_start dst0 buffer0 ts :
  length buffer0 = Z.to_nat 65536 ->
  exists s0, copy src_fd dst_fd src src_size dst0 buffer0 ts = copy_loop src_fd dst_fd src src_size ts s0 /\
    Inv src src_size s0 [] /\ dst s0 = dst0.
Proof.
  intros Hb. pose proof (rounded_size_mod src_size) as [HR0 HRm].
  edestruct (initial_reads_spec QUEUE_SIZE 0 (aio_init dst0 buffer0))
    as (k & s & Hrun & Hk & Hend & Hli & Hls & Ho & Hn & HoR & Hi & Hs & Hfl & Hbuf & Hd);
    [reflexivity|reflexivity|reflexivity|reflexivity|reflexivity|exact HR0|intros; lia|reflexivity|].
  exists (set_num_to_submit s (num_io_reqs s)). split.
  { unfold copy. cbv [mbind ST_bind st_bind]. rewrite Hrun. reflexivity. }
  split; [|exact Hd].
  set (s0 := set_num_to_submit s (num_io_reqs s)).
  assert (Hp : pending s0 = seq 0 k).
  { unfold pending. cbn [s0 num_to_submit submit_list set_num_to_submit].
    rewrite Hn, Nat2Z.id, Hs. apply omap_id_map_Some. }
  assert (HA : active s0 [] = seq 0 k).
  { unfold active. rewrite Hp. cbn [s0 inflight set_num_to_submit]. rewrite Hfl. simpl. apply app_nil_r. }
  assert (Hin : forall j, j ∈ seq 0 k <-> (j < k)%nat).
  { intros j. rewrite list_elem_of_In, in_seq. lia. }
  assert (Hlk : forall j, (j < k)%nat -> iocbs s0 !!! j =
     io_read_setup src_fd (Z.of_nat j * READ_BLOCK_SIZE) (Z.of_nat j * READ_BLOCK_SIZE) READ_BLOCK_SIZE)
    by exact Hi.
  inv_split.
  - exact Hli.
  - exact Hls.
  - cbn [s0 buffer set_num_to_submit]. rewrite Hbuf. exact Hb.
  - cbn [s0 num_to_submit set_num_to_submit]. lia.
  - rewrite Hp, length_seq. cbn [s0 num_to_submit set_num_to_submit]. lia.
  - cbn [s0 num_to_submit set_num_to_submit]. lia.
  - rewrite HA. apply NoDup_seq.
  - rewrite HA, Forall_forall. intros j Hj. apply Hin in Hj. lia.
  - rewrite HA, length_seq. exact Hn.
  - cbn [s0 src_off set_num_to_submit]. lia.
  - cbn [s0 src_off set_num_to_submit]. rewrite Ho, Z.mul_comm. apply Z_mod_mult.
  - exact HoR.
  - cbn [s0 src_off num_io_reqs set_num_to_submit]. intros Hlt. destruct Hend as [->|Hend]; lia.
  - cbn [s0 inflight set_num_to_submit]. rewrite Hfl, Hp. simpl. rewrite Forall_forall.
    intros j Hj. apply Hin in Hj. unfold slot_ok. rewrite (Hlk j Hj).
    cbn [buf offset nbytes aio_lio_opcode io_read_setup]. unfold READ_BLOCK_SIZE.
    split; [lia|]. split; [unfold off_ok; cbn [s0 src_off set_num_to_submit]; rewrite Ho;
      split; [lia|]; split; [rewrite Z.mod_mul by lia; reflexivity|lia]|].
    left. split; reflexivity.
  - constructor.
  - intros o Ho' Hm. right. exists (Z.to_nat (o / 4096)). rewrite HA, Hin.
    cbn [s0 src_off set_num_to_submit] in Ho'. rewrite Ho in Ho'.
    pose proof (Z.div_mod o 4096) as D. rewrite Hm in D.
    assert (Hlt : (Z.to_nat (o / 4096) < k)%nat) by lia. split; [exact Hlt|].
    rewrite (Hlk _ Hlt). cbn [offset io_read_setup]. unfold READ_BLOCK_SIZE. lia.
  - intros Hl Ho'. cbn [s0 src_off set_num_to_submit] in Ho'.
    assert (Hk1 : (1 <= k)%nat) by lia.
    exists (k - 1)%nat. rewrite HA, Hin. split; [lia|].
    rewrite (Hlk (k - 1)%nat ltac:(lia)). cbn [offset aio_lio_opcode io_read_setup].
    split; [reflexivity|]. unfold READ_BLOCK_SIZE. lia.
Qed.

End Start.

Lemma buffer_length_nat (buffer0 : list Z) :
  Z.of_nat (length buffer0) = 65536 -> length buffer0 = Z.to_nat 65536.
Proof. intros H. rewrite <- H, Nat2Z.id. reflexivity. Qed.

Lemma done_true_final {S} (e : exec S bool) :
  match e with Done true _ => true | _ => false end = true -> e = Done true (final_state e).
Proof. destruct e as [[|] s|c s]; simpl; congruence. Qed.

Section Results.
Variables (src_fd dst_fd : Z) (src : list Z) (src_size : Z).

Lemma inv_finished s :
  Inv src src_size s [] -> num_io_reqs s = 0 ->
  active s [] = [] /\ src_off s = rounded_size src_size.
Proof.
  intros H Hn. inv_destruct H. rewrite Hn in Hnum.
  destruct (active s []) as [|x l] eqn:E; [|simpl in Hnum; lia].
  split; [reflexivity|].
  destruct (Z.lt_ge_cases (src_off s) (rounded_size src_size)) as [Hlt'|]; [|lia].
  specialize (Hfull Hlt'). lia.
Qed.

(** X8: when the source size is a multiple of 4096 (and the rounded size
    does not wrap), the copy loop never ends normally: the read at the
    end of the file returns 0, which the program reports as an error. *)
Lemma copy_multiple_fails dst0 buffer0 ts s :
  Z.of_nat (length src) = src_size -> src_size mod 4096 = 0 -> src_size + 4096 < 2 ^ 32 ->
  Z.of_nat (length buffer0) = 65536 ->
  copy src_fd dst_fd src src_size dst0 buffer0 ts <> Done true s.
Proof.
  intros Hl Hm Hw Hb Hrun. apply buffer_length_nat in Hb.
  destruct (copy_start src_fd dst_fd src src_size dst0 buffer0 ts Hb) as (s0 & E & H0 & _).
  rewrite E in Hrun.
  destruct (copy_loop_inv src_fd dst_fd src src_size ts s0 true s H0 Hrun) as [H Hn].
  specialize (Hn eq_refl). destruct (inv_finished s H Hn) as [HA Ho].
  assert (HR : rounded_size src_size = src_size + 4096).
  { unfold rounded_size, READ_BLOCK_SIZE. rewrite Hm, Z.sub_0_r. apply Z.mod_small. lia. }
  inv_destruct H. destruct (Heof ltac:(lia) Ho) as (j & Hj & _). rewrite HA in Hj.
  apply not_elem_of_nil in Hj. exact Hj.
Qed.

(** X9: when the copy loop ends normally and the rounded size does not
    wrap, the destination starts with the whole source. *)
Lemma copy_success_copies dst0 buffer0 ts s :
  Z.of_nat (length src) = src_size -> src_size < 2 ^ 32 - 4096 ->
  Z.of_nat (length buffer0) = 65536 ->
  copy src_fd dst_fd src src_size dst0 buffer0 ts = Done true s ->
  take (length src) (dst s) = src.
Proof.
  intros Hl Hw Hb Hrun. apply buffer_length_nat in Hb.
  destruct (copy_start src_fd dst_fd src src_size dst0 buffer0 ts Hb) as (s0 & E & H0 & _).
  rewrite E in Hrun.
  destruct (copy_loop_inv src_fd dst_fd src src_size ts s0 true s H0 Hrun) as [H Hn].
  specialize (Hn eq_refl). destruct (inv_finished s H Hn) as [HA Ho].
  assert (HR : src_size < rounded_size src_size).
  { unfold rounded_size, READ_BLOCK_SIZE. pose proof (Z.mod_pos_bound src_size 4096).
    rewrite Z.mod_small; lia. }
  inv_destruct H.
  apply list_eq. intros i. destruct (decide (i < length src)%nat) as [Hi|Hi].
  - rewrite lookup_take_lt by exact Hi.
    set (o := 4096 * (Z.of_nat i / 4096)).
    pose proof (Z.div_mod (Z.of_nat i) 4096) as D. pose proof (Z.mod_pos_bound (Z.of_nat i) 4096).
    destruct (Hblk o ltac:(lia) ltac:(unfold o; rewrite Z.mul_comm; apply Z_mod_mult))
      as [Hd|(j & Hj & _)].
    + apply Hd; [lia|exact Hi].
    + rewrite HA in Hj. apply not_elem_of_nil in Hj. contradiction.
  - rewrite lookup_take_ge by lia. symmetry. apply lookup_ge_None_2. lia.
Qed.

Lemma copy_loop_finished ts s :
  num_io_reqs s = 0 -> copy_loop src_fd dst_fd src src_size ts s = Done true s.
Proof.
  intros Hn. destruct ts; cbv [copy_loop st_bind st_get]; rewrite Hn; reflexivity.
Qed.

(** X10: for a source size within 4096 bytes of 2^32, the rounding of
    [src_size] wraps to 0: no request is started and the loop ends at
    once, leaving the destination as it was. *)
Lemma copy_wraps dst0 buffer0 ts :
  2 ^ 32 - 4096 <= src_size < 2 ^ 32 ->
  exists s, copy src_fd dst_fd src src_size dst0 buffer0 ts = Done true s /\ dst s = dst0.
Proof.
  intros Hw.
  assert (HR : rounded_size src_size = 0).
  { unfold rounded_size, READ_BLOCK_SIZE.
    replace (src_size mod 4096) with (src_size - (2 ^ 32 - 4096)).
    - replace (src_size + 4096 - (src_size - (2 ^ 32 - 4096))) with (2 ^ 32) by lia.
      apply Z_mod_same_full.
    - apply (Z.mod_unique _ _ (2 ^ 20 - 1)); lia. }
  unfold copy. cbn [QUEUE_SIZE initial_reads]. cbv [mbind ST_bind st_bind st_get st_modify].
  rewrite HR. cbn. eexists. split; [apply copy_loop_finished; reflexivity|reflexivity].
Qed.

(** X11: whatever the kernel reports, a destination at least as long as
    the source keeps its length and every byte of it is either its
    original byte or the source's byte at the same position. *)
Lemma copy_safe dst0 buffer0 ts :
  (length src <= length dst0)%nat -> Z.of_nat (length buffer0) = 65536 ->
  length (dst (final_state (copy src_fd dst_fd src src_size dst0 buffer0 ts))) = length dst0 /\
  forall i, dst (final_state (copy src_fd dst_fd src src_size dst0 buffer0 ts)) !! i = dst0 !! i \/
            dst (final_state (copy src_fd dst_fd src src_size dst0 buffer0 ts)) !! i = src !! i.
Proof.
  intros Hd Hb. apply buffer_length_nat in Hb.
  destruct (copy_start src_fd dst_fd src src_size dst0 buffer0 ts Hb) as (s0 & E & H0 & Hd0).
  rewrite E. apply copy_loop_safe; [exact Hd|exact H0|].
  split; [rewrite Hd0; reflexivity|]. intros i. left. rewrite Hd0. reflexivity.
Qed.

End Results.

Lemma copy_multiple_fails_witness :
  Z.of_nat (length (replicate (Z.to_nat 4096) 7)) = 4096 /\ 4096 mod 4096 = 0 /\ 4096 + 4096 < 2 ^ 32 /\
  Z.of_nat (length (replicate (Z.to_nat 65536) 0)) = 65536 /\
  copy 3 4 (replicate (Z.to_nat 4096) 7) 4096 (replicate (Z.to_nat 4096) 0) (replicate (Z.to_nat 65536) 0)
    [mkAioTick true (Some [0%nat]); mkAioTick true (Some [0%nat])]
  <> Done true (aio_init [] []).
Proof.
  split; [vm_compute; reflexivity|]. split; [reflexivity|]. split; [lia|].
  split; [vm_compute; reflexivity|].
  apply (copy_multiple_fails 3 4 (replicate (Z.to_nat 4096) 7) 4096 (replicate (Z.to_nat 4096) 0)
           (replicate (Z.to_nat 65536) 0) [mkAioTick true (Some [0%nat]); mkAioTick true (Some [0%nat])]);
    [vm_compute; reflexivity|reflexivity|lia|vm_compute; reflexivity].
Defined.

Lemma copy_success_copies_witness :
  Z.of_nat (length ([1; 2; 3] : list Z)) = 3 /\ 3 < 2 ^ 32 - 4096 /\
  Z.of_nat (length (replicate (Z.to_nat 65536) 0)) = 65536 /\
  copy 3 4 [1; 2; 3] 3 [0; 0; 0] (replicate (Z.to_nat 65536) 0)
    [mkAioTick true (Some [0%nat]); mkAioTick true (Some [0%nat])] =
    Done true (final_state (copy 3 4 [1; 2; 3] 3 [0; 0; 0] (replicate (Z.to_nat 65536) 0)
                              [mkAioTick true (Some [0%nat]); mkAioTick true (Some [0%nat])])) /\
  take (length ([1; 2; 3] : list Z))
    (dst (final_state (copy 3 4 [1; 2; 3] 3 [0; 0; 0] (replicate (Z.to_nat 65536) 0)
                          [mkAioTick true (Some [0%nat]); mkAioTick true (Some [0%nat])]))) = [1; 2; 3].
Proof.
  split; [reflexivity|]. split; [lia|]. split; [vm_compute; reflexivity|].
  split; [apply done_true_final; vm_compute; reflexivity|].
  apply (copy_success_copies 3 4 [1; 2; 3] 3 [0; 0; 0] (replicate (Z.to_nat 65536) 0)
           [mkAioTick true (Some [0%nat]); mkAioTick true (Some [0%nat])]);
    [reflexivity|lia|vm_compute; reflexivity|apply done_true_final; vm_compute; reflexivity].
Defined.

Lemma copy_wraps_witness :
  2 ^ 32 - 4096 <= 2 ^ 32 - 1 < 2 ^ 32 /\
  exists s, copy 3 4 [] (2 ^ 32 - 1) [0] [] [] = Done true s /\ dst s = [0].
Proof.
  split; [lia|]. apply copy_wraps. lia.
Defined.

Lemma copy_safe_witness :
  (length ([1%Z; 2%Z; 3%Z] : list Z) <= length ([0%Z; 0%Z; 0%Z; 0%Z] : list Z))%nat /\
  Z.of_nat (length (replicate (Z.to_nat 65536) 0)) = 65536 /\
  length (dst (final_state (copy 3 4 [1; 2; 3] 3 [0; 0; 0; 0] (replicate (Z.to_nat 65536) 0)
                              [mkAioTick true (Some [0%nat])]))) = length ([0; 0; 0; 0] : list Z) /\
  forall i, dst (final_state (copy 3 4 [1; 2; 3] 3 [0; 0; 0; 0] (replicate (Z.to_nat 65536) 0)
                               [mkAioTick true (Some [0%nat])])) !! i = [0; 0; 0; 0] !! i \/
            dst (final_state (copy 3 4 [1; 2; 3] 3 [0; 0; 0; 0] (replicate (Z.to_nat 65536) 0)
                               [mkAioTick true (Some [0%nat])])) !! i = [1; 2; 3] !! i.
Proof.
  split; [simpl; lia|]. split; [vm_compute; reflexivity|].
  apply (copy_safe 3 4 [1; 2; 3] 3 [0; 0; 0; 0] (replicate (Z.to_nat 65536) 0) [mkAioTick true (Some [0%nat])]);
    [simpl; lia|vm_compute; reflexivity].
Defined.

End LinuxAioFacts.

(* ------------------------------------------------------------------ *)
(** ** Facts about the POSIX AIO copy *)

Module PosixAioFacts.
Import PosixAio.

Lemma count_insert_false (w : list bool) i :
  w !! i = Some true ->
  length (List.filter id w) = S (length (List.filter id (<[i := false]> w))).
Proof.
  revert i. induction w as [|b w IH]; intros [|i] H; try discriminate.
  - simpl in H. injection H as ->. reflexivity.
  - simpl in H. simpl. destruct b; simpl; rewrite (IH i H); reflexivity.
Qed.

Lemma count_le (w : list bool) : (length (List.filter id w) <= length w)%nat.
Proof. induction w as [|[|] w IH]; simpl; lia. Qed.

Lemma count_replicate k m :
  length (List.filter id (replicate k true ++ replicate m false)) = k.
Proof.
  induction k as [|k IH]; simpl; [|rewrite IH; reflexivity].
  induction m as [|m IHm]; simpl; auto.
Qed.

Lemma lookup_wait_true k m j :
  (replicate k true ++ replicate m false) !! j = Some true <-> (j < k)%nat.
Proof.
  destruct (decide (j < k)%nat).
  - rewrite lookup_app_l by (rewrite length_replicate; lia).
    rewrite lookup_replicate_2 by lia. tauto.
  - rewrite lookup_app_r by (rewrite length_replicate; lia).
    rewrite lookup_replicate. split; [intros [? _]; discriminate|lia].
Qed.

Lemma insert_wait k m :
  <[k := true]> (replicate k true ++ replicate (S m) false) = replicate (S k) true ++ replicate m false.
Proof.
  rewrite insert_app_r_alt by (rewrite length_replicate; lia).
  rewrite length_replicate, Nat.sub_diag, (replicate_S_end k), <- app_assoc. reflexivity.
Qed.

Lemma prounded_size_mod x : 0 <= rounded_size x /\ rounded_size x mod 4096 = 0.
Proof. exact (LinuxAioFacts.rounded_size_mod x). Qed.

Lemma wait_lookup (w : list bool) i :
  (i < length w)%nat -> w !!! i = true -> w !! i = Some true.
Proof.
  intros Hi E. rewrite list_lookup_lookup_total by (apply lookup_lt_is_Some_2; exact Hi).
  rewrite E. reflexivity.
Qed.

Ltac pinv_destruct H :=
  destruct H as (Hla & Hlw & Hlb & Hnum & Ho0 & Hom & HoR & Hfull & Hsl & Hblk & Heof).

Section Blocks.
Variable src : list Z.

Lemma pblock_done_write d o o' :
  0 <= o -> pblock_done src d o' ->
  pblock_done src (pwrite_file d (LinuxAio.blk src o) (Z.to_nat o)) o'.
Proof.
  intros Ho H i Hi Hl. specialize (H i Hi Hl).
  rewrite LinuxAioFacts.lookup_pwrite_file.
  destruct (decide (i < Z.to_nat o)%nat).
  - rewrite decide_True; [exact H|]. apply lookup_lt_is_Some_1. rewrite H.
    apply lookup_lt_is_Some_2. exact Hl.
  - destruct (decide (i < Z.to_nat o + length (LinuxAio.blk src o))%nat); [|exact H].
    rewrite LinuxAioFacts.lookup_blk by lia. f_equal. lia.
Qed.

Lemma pblock_done_written d o :
  0 <= o -> pblock_done src (pwrite_file d (LinuxAio.blk src o) (Z.to_nat o)) o.
Proof.
  intros Ho i Hi Hl. rewrite LinuxAioFacts.lookup_pwrite_file.
  rewrite decide_False by lia. rewrite LinuxAioFacts.length_blk_eq.
  rewrite decide_True by lia. rewrite LinuxAioFacts.lookup_blk by (rewrite LinuxAioFacts.length_blk_eq; lia).
  f_equal. lia.
Qed.

Lemma complete_cases s i :
  pslot_ok src s i -> (i < 16)%nat ->
  let cb := aiocbs s !!! i in
  let s' := fst (complete src s i) in
  let r := snd (complete src s i) in
  aiocbs s' = aiocbs s /\ wait_list s' = wait_list s /\ src_off s' = src_off s /\
  num_io_reqs s' = num_io_reqs s /\ calls s' = calls s /\
  r = Z.of_nat (length (LinuxAio.blk src (aio_offset cb))) /\
  ((aio_lio_opcode cb = LIO_READ /\ dst s' = dst s /\
    buffer s' = LinuxAio.mem_store (buffer s) (4096 * i) (LinuxAio.blk src (aio_offset cb))) \/
   (aio_lio_opcode cb = LIO_WRITE /\ buffer s' = buffer s /\
    dst s' = pwrite_file (dst s) (LinuxAio.blk src (aio_offset cb)) (Z.to_nat (aio_offset cb)))).
Proof.
  intros (Hbuf & Ho0 & Hom & Hlt & Hop) Hi. cbv zeta. unfold complete.
  destruct Hop as [(Hop & Hn)|(Hop & Hn & Hp & Hd)].
  - rewrite Hop, Z.eqb_refl. cbn [fst snd].
    rewrite Hn, Hbuf. change (Z.to_nat 4096) with 4096%nat.
    fold (LinuxAio.blk src (aio_offset (aiocbs s !!! i))).
    replace (Z.to_nat (4096 * Z.of_nat i)) with (4096 * i)%nat by lia.
    do 6 (split; [reflexivity|]). left. auto.
  - rewrite Hop. change (LIO_WRITE =? LIO_READ) with false. cbn [fst snd].
    rewrite Hbuf. replace (Z.to_nat (4096 * Z.of_nat i)) with (4096 * i)%nat by lia.
    rewrite Hd.
    do 6 (split; [reflexivity|]). right. auto.
Qed.

End Blocks.

Section Setup.
Variable enqueue_ok : nat -> bool.

Lemma read_setup_run i fd o b n s :
  (i < length (aiocbs s))%nat ->
  aio_read_setup enqueue_ok i fd o b n s =
  if enqueue_ok (calls s)
  then Done tt (set_calls (set_aiocbs s (<[i := mkAiocb fd LIO_READ b n o]> (aiocbs s))) (S (calls s)))
  else Exited EXIT_FAILURE (set_aiocbs s (<[i := mkAiocb fd 0 b n o]> (aiocbs s))).
Proof.
  intros Hi. cbv [aio_read_setup aio_request st_bind st_get st_put st_modify st_exit mbind ST_bind].
  cbn [calls aiocbs set_aiocbs]. rewrite list_lookup_total_insert_eq by lia.
  cbn [aio_fildes aio_buf aio_nbytes aio_offset]. rewrite list_insert_insert_eq.
  destruct (enqueue_ok (calls s)); reflexivity.
Qed.

Lemma write_setup_run i fd o b n s :
  (i < length (aiocbs s))%nat ->
  aio_write_setup enqueue_ok i fd o b n s =
  if enqueue_ok (calls s)
  then Done tt (set_calls (set_aiocbs s (<[i := mkAiocb fd LIO_WRITE b n o]> (aiocbs s))) (S (calls s)))
  else Exited EXIT_FAILURE (set_aiocbs s (<[i := mkAiocb fd 0 b n o]> (aiocbs s))).
Proof.
  intros Hi. cbv [aio_write_setup aio_request st_bind st_get st_put st_modify st_exit mbind ST_bind].
  cbn [calls aiocbs set_aiocbs]. rewrite list_lookup_total_insert_eq by lia.
  cbn [aio_fildes aio_buf aio_nbytes aio_offset]. rewrite list_insert_insert_eq.
  destruct (enqueue_ok (calls s)); reflexivity.
Qed.

Lemma read_setup_dst i fd o b n s :
  dst (final_state (aio_read_setup enqueue_ok i fd o b n s)) = dst s.
Proof.
  cbv [aio_read_setup aio_request st_bind st_get st_put st_modify st_exit mbind ST_bind].
  destruct (enqueue_ok _); reflexivity.
Qed.

Lemma write_setup_dst i fd o b n s :
  dst (final_state (aio_write_setup enqueue_ok i fd o b n s)) = dst s.
Proof.
  cbv [aio_write_setup aio_request st_bind st_get st_put st_modify st_exit mbind ST_bind].
  destruct (enqueue_ok _); reflexivity.
Qed.

End Setup.

Section Scan.
Variables (src_fd dst_fd : Z) (src : list Z) (src_size : Z) (enqueue_ok : nat -> bool).

Lemma scan_slot_run done i s :
  scan_slot src_fd dst_fd src src_size enqueue_ok done i s =
  if negb (wait_list s !!! i) then Done tt s
  else if negb (bool_decide (i ∈ done)) then Done tt s
  else
    let s1 := fst (complete src s i) in
    let ret := snd (complete src s i) in
    let cb := aiocbs s1 !!! i in
    if aio_lio_opcode cb =? LIO_READ then
      if negb (ret =? 0) then
        aio_write_setup enqueue_ok i dst_fd (aio_offset cb) (Z.of_nat i * READ_BLOCK_SIZE) ret s1
      else Exited EXIT_FAILURE (set_out s1 (out s1 ++ ["ERROR: reach unavailible state"%string]))
    else if aio_lio_opcode cb =? LIO_WRITE then
      if negb (ret =? 0) && (src_off s1 <? rounded_size src_size) then
        match aio_read_setup enqueue_ok i src_fd (src_off s1) (Z.of_nat i * READ_BLOCK_SIZE)
                READ_BLOCK_SIZE s1 with
        | Done _ s2 => Done tt (set_src_off s2 (src_off s2 + READ_BLOCK_SIZE))
        | Exited c s2 => Exited c s2
        end
      else Done tt (set_num_io_reqs (set_wait_list s1 (<[i := false]> (wait_list s1)))
                      (size_t (num_io_reqs s1 - 1)))
    else Done tt s1.
Proof.
  unfold scan_slot. cbv [st_bind st_get st_put st_modify st_exit paio_printf mbind ST_bind mret ST_ret].
  destruct (wait_list s !!! i); [|reflexivity]. cbn [negb].
  destruct (bool_decide (i ∈ done)); [|reflexivity]. cbn [negb].
  destruct (complete src s i) as [s1 r]. cbn [fst snd].
  destruct (_ =? LIO_READ).
  - destruct (negb (r =? 0)); reflexivity.
  - destruct (_ =? LIO_WRITE); [|reflexivity].
    destruct (_ && _); [|reflexivity].
    destruct (aio_read_setup _ _ _ _ _ _ s1); reflexivity.
Qed.

End Scan.

Section StepInv.
Variables (src_fd dst_fd : Z) (src : list Z) (src_size : Z).

Lemma pinv_read_done s i s' :
  PInv src src_size s -> wait_list s !! i = Some true ->
  aio_lio_opcode (aiocbs s !!! i) = LIO_READ ->
  length (LinuxAio.blk src (aio_offset (aiocbs s !!! i))) <> 0%nat ->
  aiocbs s' = <[i := mkAiocb dst_fd LIO_WRITE (Z.of_nat i * READ_BLOCK_SIZE)
                  (Z.of_nat (length (LinuxAio.blk src (aio_offset (aiocbs s !!! i)))))
                  (aio_offset (aiocbs s !!! i))]> (aiocbs s) ->
  wait_list s' = wait_list s -> src_off s' = src_off s -> num_io_reqs s' = num_io_reqs s ->
  buffer s' = LinuxAio.mem_store (buffer s) (4096 * i) (LinuxAio.blk src (aio_offset (aiocbs s !!! i))) ->
  dst s' = dst s -> PInv src src_size s'.
Proof.
  intros H Hw Hop Hne Ea Ew Eo En Eb Ed. pose proof H as Hc. pinv_destruct Hc.
  assert (Hi : (i < 16)%nat) by (rewrite <- Hlw; exact (lookup_lt_Some _ _ _ Hw)).
  set (o := aio_offset (aiocbs s !!! i)) in *.
  destruct (Hsl i Hw) as (Hbuf & Hoi0 & Hoim & Hoilt & _).
  pose proof (LinuxAioFacts.length_blk src o) as Hlo.
  unfold PInv. rewrite Eo, En, Ed.
  LinuxAioFacts.rsplit 10%nat.
  - rewrite Ea, length_insert. exact Hla.
  - rewrite Ew. exact Hlw.
  - rewrite Eb, LinuxAioFacts.length_mem_store; [exact Hlb|rewrite Hlb; lia].
  - rewrite Ew. exact Hnum.
  - exact Ho0.
  - exact Hom.
  - exact HoR.
  - exact Hfull.
  - intros j Hj. rewrite Ew in Hj. unfold pslot_ok. rewrite Ea, Eo, Eb.
    assert (Hj16 : (j < 16)%nat) by (rewrite <- Hlw; exact (lookup_lt_Some _ _ _ Hj)).
    destruct (decide (j = i)) as [->|Hji].
    + rewrite list_lookup_total_insert_eq by lia.
      cbn [aio_buf aio_offset aio_lio_opcode aio_nbytes]. unfold READ_BLOCK_SIZE.
      split; [lia|]. split; [exact Hoi0|]. split; [exact Hoim|]. split; [exact Hoilt|].
      right. split; [reflexivity|]. split; [reflexivity|]. split; [lia|].
      rewrite Nat2Z.id. apply LinuxAioFacts.region_read; [lia|exact Hlo|exact Hlb].
    + rewrite list_lookup_total_insert_ne by congruence.
      destruct (Hsl j Hj) as (B & O0 & OM & OL & Op).
      split; [exact B|]. split; [exact O0|]. split; [exact OM|]. split; [exact OL|].
      destruct Op as [Op|(Op & Nn & Np & Nd)]; [left; exact Op|right].
      split; [exact Op|]. split; [exact Nn|]. split; [exact Np|].
      pose proof (LinuxAioFacts.length_blk src (aio_offset (aiocbs s !!! j))).
      rewrite LinuxAioFacts.region_frame; [exact Nd|lia|lia|congruence|lia|exact Hlo|exact Hlb].
  - intros o' Ho' Hm. destruct (Hblk o' Ho' Hm) as [Hd|(j & Hj & Hjo)]; [left; exact Hd|right].
    exists j. rewrite Ew. split; [exact Hj|]. rewrite Ea.
    destruct (decide (j = i)) as [->|Hji].
    + rewrite list_lookup_total_insert_eq by lia. exact Hjo.
    + rewrite list_lookup_total_insert_ne by congruence. exact Hjo.
  - intros Hl Ho'. destruct (Heof Hl Ho') as (j & Hj & Hjop & Hjo).
    destruct (decide (j = i)) as [->|Hji].
    + exfalso. apply Hne. fold o in Hjo. rewrite LinuxAioFacts.length_blk_eq. lia.
    + exists j. rewrite Ew, Ea, list_lookup_total_insert_ne by congruence. auto.
Qed.

Lemma pinv_write_next s i s' :
  PInv src src_size s -> wait_list s !! i = Some true ->
  aio_lio_opcode (aiocbs s !!! i) = LIO_WRITE ->
  src_off s < rounded_size src_size ->
  aiocbs s' = <[i := mkAiocb src_fd LIO_READ (Z.of_nat i * READ_BLOCK_SIZE) READ_BLOCK_SIZE
                  (src_off s)]> (aiocbs s) ->
  wait_list s' = wait_list s -> src_off s' = src_off s + READ_BLOCK_SIZE ->
  num_io_reqs s' = num_io_reqs s -> buffer s' = buffer s ->
  dst s' = pwrite_file (dst s) (LinuxAio.blk src (aio_offset (aiocbs s !!! i)))
             (Z.to_nat (aio_offset (aiocbs s !!! i))) ->
  PInv src src_size s'.
Proof.
  intros H Hw Hop Hlt Ea Ew Eo En Eb Ed. pose proof H as Hc. pinv_destruct Hc.
  assert (Hi : (i < 16)%nat) by (rewrite <- Hlw; exact (lookup_lt_Some _ _ _ Hw)).
  set (o := aio_offset (aiocbs s !!! i)) in *.
  destruct (Hsl i Hw) as (Hbuf & Hoi0 & Hoim & Hoilt & _).
  pose proof (prounded_size_mod src_size) as [HR0 HRm].
  pose proof (LinuxAioFacts.mult_4096_le _ _ Hom HRm Hlt) as Hle.
  unfold READ_BLOCK_SIZE in *.
  unfold PInv. rewrite Eo, En, Eb.
  LinuxAioFacts.rsplit 10%nat.
  - rewrite Ea, length_insert. exact Hla.
  - rewrite Ew. exact Hlw.
  - exact Hlb.
  - rewrite Ew. exact Hnum.
  - lia.
  - replace (src_off s + 4096) with (src_off s + 1 * 4096) by lia. rewrite Z_mod_plus_full. exact Hom.
  - exact Hle.
  - intros _. exact (Hfull Hlt).
  - intros j Hj. rewrite Ew in Hj. unfold pslot_ok. rewrite Ea, Eo, Eb.
    destruct (decide (j = i)) as [->|Hji].
    + rewrite list_lookup_total_insert_eq by lia.
      cbn [aio_buf aio_offset aio_lio_opcode aio_nbytes]. unfold READ_BLOCK_SIZE.
      split; [lia|]. split; [exact Ho0|]. split; [exact Hom|]. split; [lia|].
      left. split; reflexivity.
    + rewrite list_lookup_total_insert_ne by congruence.
      destruct (Hsl j Hj) as (B & O0 & OM & OL & Op).
      split; [exact B|]. split; [exact O0|]. split; [exact OM|]. split; [lia|]. exact Op.
  - intros o' Ho' Hm.
    destruct (decide (o' = src_off s)) as [->|Hne].
    + right. exists i. rewrite Ew. split; [exact Hw|]. rewrite Ea, list_lookup_total_insert_eq by lia.
      reflexivity.
    + assert (Ho'' : 0 <= o' < src_off s).
      { destruct (Z.lt_ge_cases o' (src_off s)) as [|Hge]; [lia|].
        assert (src_off s < o') by lia.
        pose proof (LinuxAioFacts.mult_4096_le _ _ Hom Hm ltac:(lia)). lia. }
      destruct (Hblk o' Ho'' Hm) as [Hd|(j & Hj & Hjo)].
      * left. rewrite Ed. apply pblock_done_write; [exact Hoi0|exact Hd].
      * destruct (decide (j = i)) as [->|Hji].
        -- left. rewrite Ed. fold o in Hjo. subst o'. apply pblock_done_written. exact Hoi0.
        -- right. exists j. rewrite Ew. split; [exact Hj|].
           rewrite Ea, list_lookup_total_insert_ne by congruence. exact Hjo.
  - intros Hl Ho'. exists i. rewrite Ew. split; [exact Hw|].
    rewrite Ea, list_lookup_total_insert_eq by lia. cbn [aio_lio_opcode aio_offset].
    split; [reflexivity|lia].
Qed.

Lemma pinv_write_retire s i s' :
  PInv src src_size s -> wait_list s !! i = Some true ->
  aio_lio_opcode (aiocbs s !!! i) = LIO_WRITE ->
  rounded_size src_size <= src_off s ->
  aiocbs s' = aiocbs s ->
  wait_list s' = <[i := false]> (wait_list s) -> src_off s' = src_off s ->
  num_io_reqs s' = size_t (num_io_reqs s - 1) -> buffer s' = buffer s ->
  dst s' = pwrite_file (dst s) (LinuxAio.blk src (aio_offset (aiocbs s !!! i)))
             (Z.to_nat (aio_offset (aiocbs s !!! i))) ->
  PInv src src_size s'.
Proof.
  intros H Hw Hop Hge Ea Ew Eo En Eb Ed. pose proof H as Hc. pinv_destruct Hc.
  assert (Hi : (i < 16)%nat) by (rewrite <- Hlw; exact (lookup_lt_Some _ _ _ Hw)).
  set (o := aio_offset (aiocbs s !!! i)) in *.
  destruct (Hsl i Hw) as (Hbuf & Hoi0 & Hoim & Hoilt & _).
  pose proof (count_insert_false _ _ Hw) as Hcnt.
  pose proof (count_le (<[i := false]> (wait_list s))) as Hcle.
  rewrite length_insert in Hcle.
  assert (Hwi : forall j, wait_list s' !! j = Some true -> j <> i /\ wait_list s !! j = Some true).
  { intros j Hj. rewrite Ew in Hj. destruct (decide (j = i)) as [->|Hji].
    - rewrite list_lookup_insert_eq in Hj by lia. discriminate.
    - rewrite list_lookup_insert_ne in Hj by congruence. auto. }
  unfold PInv. rewrite Eo, En, Eb.
  LinuxAioFacts.rsplit 10%nat.
  - rewrite Ea. exact Hla.
  - rewrite Ew, length_insert. exact Hlw.
  - exact Hlb.
  - rewrite Ew, size_t_small by lia. lia.
  - exact Ho0.
  - exact Hom.
  - exact HoR.
  - intros Hlt. lia.
  - intros j Hj. destruct (Hwi j Hj) as [_ Hj']. unfold pslot_ok. rewrite Ea, Eo, Eb.
    exact (Hsl j Hj').
  - intros o' Ho' Hm. destruct (Hblk o' Ho' Hm) as [Hd|(j & Hj & Hjo)].
    + left. rewrite Ed. apply pblock_done_write; [exact Hoi0|exact Hd].
    + destruct (decide (j = i)) as [->|Hji].
      * left. rewrite Ed. fold o in Hjo. subst o'. apply pblock_done_written. exact Hoi0.
      * right. exists j. rewrite Ew, list_lookup_insert_ne by congruence. rewrite Ea. auto.
  - intros Hl Ho'. destruct (Heof Hl Ho') as (j & Hj & Hjop & Hjo).
    destruct (decide (j = i)) as [->|Hji].
    + rewrite Hop in Hjop. discriminate.
    + exists j. rewrite Ew, list_lookup_insert_ne by congruence. rewrite Ea. auto.
Qed.

End StepInv.

Section ScanInv.
Variables (src_fd dst_fd : Z) (src : list Z) (src_size : Z) (enqueue_ok : nat -> bool).

Lemma scan_slot_inv done i s u s' :
  (i < 16)%nat -> PInv src src_size s ->
  scan_slot src_fd dst_fd src src_size enqueue_ok done i s = Done u s' ->
  PInv src src_size s'.
Proof.
  intros Hi H Hrun. rewrite scan_slot_run in Hrun.
  pose proof H as Hc. pinv_destruct Hc.
  destruct (wait_list s !!! i) eqn:Ewi; cbn [negb] in Hrun; [|injection Hrun as _ <-; exact H].
  apply wait_lookup in Ewi; [|lia].
  destruct (bool_decide (i ∈ done)); cbn [negb] in Hrun; [|injection Hrun as _ <-; exact H].
  pose proof (Hsl i Ewi) as Hslot. pose proof Hslot as (_ & _ & _ & _ & Hop').
  destruct (complete_cases src s i Hslot Hi) as (Ea & Ew & Eo & En & Ec & Er & Ecase).
  cbv zeta in *.
  set (s1 := fst (complete src s i)) in *. set (r := snd (complete src s i)) in *.
  rewrite Ea in Hrun.
  destruct Ecase as [(Hop & Ed & Eb)|(Hop & Eb & Ed)].
  - rewrite Hop, Z.eqb_refl in Hrun.
    destruct (r =? 0) eqn:Er0; cbn [negb] in Hrun; [discriminate|].
    apply Z.eqb_neq in Er0.
    rewrite write_setup_run in Hrun by (rewrite Ea; lia).
    destruct (enqueue_ok (calls s1)); [|discriminate].
    injection Hrun as _ <-.
    apply (pinv_read_done dst_fd src src_size s i); auto.
    + intros E. apply Er0. rewrite Er, E. reflexivity.
    + cbn. rewrite Ea, <- Er. reflexivity.
  - rewrite Hop in Hrun. change (LIO_WRITE =? LIO_READ) with false in Hrun.
    change (LIO_WRITE =? LIO_WRITE) with true in Hrun. cbv iota in Hrun.
    destruct Hop' as [(Hop' & _)|(_ & Hn & Hp & _)]; [rewrite Hop in Hop'; discriminate|].
    assert (Er0 : (r =? 0) = false) by (apply Z.eqb_neq; lia).
    rewrite Er0 in Hrun. cbn [negb andb] in Hrun. rewrite Eo in Hrun.
    destruct (src_off s <? rounded_size src_size) eqn:Elt.
    + apply Z.ltb_lt in Elt.
      rewrite read_setup_run in Hrun by (rewrite Ea; lia).
      destruct (enqueue_ok (calls s1)); [|discriminate].
      injection Hrun as _ <-.
      apply (pinv_write_next src_fd src src_size s i); auto; cbn; rewrite ?Ea, ?Eo; reflexivity.
    + apply Z.ltb_ge in Elt. injection Hrun as _ <-.
      apply (pinv_write_retire src src_size s i); auto; cbn; rewrite ?Ea, ?Ew, ?Eo, ?En; reflexivity.
Qed.

Lemma complete_safe dst0 s i :
  (length src <= length dst0)%nat -> (i < 16)%nat ->
  PInv src src_size s -> wait_list s !! i = Some true -> PSafe src dst0 s ->
  PSafe src dst0 (fst (complete src s i)).
Proof.
  intros Hd Hi H Hw [Hl Hs]. pose proof H as Hc. pinv_destruct Hc.
  pose proof (Hsl i Hw) as Hslot.
  destruct (complete_cases src s i Hslot Hi) as (_ & _ & _ & _ & _ & _ & Ecase).
  cbv zeta in *.
  destruct Ecase as [(_ & Ed & _)|(Hop & _ & Ed)].
  - unfold PSafe. rewrite Ed. auto.
  - destruct Hslot as (_ & Hoff & _ & _ & [(Hop' & _)|(_ & Hn & Hp & _)]).
    { rewrite Hop in Hop'. discriminate. }
    set (o := aio_offset (aiocbs s !!! i)) in *.
    assert (Hin : (Z.to_nat o + length (LinuxAio.blk src o) <= length src)%nat).
    { rewrite LinuxAioFacts.length_blk_eq. rewrite LinuxAioFacts.length_blk_eq in Hn. lia. }
    unfold PSafe. rewrite Ed. split.
    + rewrite LinuxAioFacts.length_pwrite_file by lia. exact Hl.
    + intros j. rewrite LinuxAioFacts.lookup_pwrite_file.
      destruct (decide (j < Z.to_nat o)%nat).
      * rewrite decide_True by lia. apply Hs.
      * destruct (decide (j < Z.to_nat o + length (LinuxAio.blk src o))%nat); [|apply Hs].
        right. rewrite LinuxAioFacts.lookup_blk by lia. f_equal. lia.
Qed.

Lemma scan_slot_safe dst0 done i s :
  (length src <= length dst0)%nat -> (i < 16)%nat ->
  PInv src src_size s -> PSafe src dst0 s ->
  PSafe src dst0 (final_state (scan_slot src_fd dst_fd src src_size enqueue_ok done i s)).
Proof.
  intros Hd Hi H Hs. rewrite scan_slot_run.
  pose proof H as Hc. pinv_destruct Hc.
  destruct (wait_list s !!! i) eqn:Ewi; cbn [negb]; [|exact Hs].
  apply wait_lookup in Ewi; [|lia].
  destruct (bool_decide (i ∈ done)); cbn [negb]; [|exact Hs].
  pose proof (complete_safe dst0 s i Hd Hi H Ewi Hs) as Hs1.
  set (s1 := fst (complete src s i)) in *. set (r := snd (complete src s i)).
  assert (E : dst (final_state
    (if aio_lio_opcode (aiocbs s1 !!! i) =? LIO_READ then
      if negb (r =? 0) then
        aio_write_setup enqueue_ok i dst_fd (aio_offset (aiocbs s1 !!! i)) (Z.of_nat i * READ_BLOCK_SIZE) r s1
      else Exited EXIT_FAILURE (set_out s1 (out s1 ++ ["ERROR: reach unavailible state"%string]))
    else if aio_lio_opcode (aiocbs s1 !!! i) =? LIO_WRITE then
      if negb (r =? 0) && (src_off s1 <? rounded_size src_size) then
        match aio_read_setup enqueue_ok i src_fd (src_off s1) (Z.of_nat i * READ_BLOCK_SIZE)
                READ_BLOCK_SIZE s1 with
        | Done _ s2 => Done tt (set_src_off s2 (src_off s2 + READ_BLOCK_SIZE))
        | Exited c s2 => Exited c s2
        end
      else Done tt (set_num_io_reqs (set_wait_list s1 (<[i := false]> (wait_list s1)))
                      (size_t (num_io_reqs s1 - 1)))
    else Done tt s1)) = dst s1).
  { destruct (_ =? LIO_READ).
    - destruct (negb (r =? 0)); [apply write_setup_dst|reflexivity].
    - destruct (_ =? LIO_WRITE); [|reflexivity].
      destruct (_ && _); [|reflexivity].
      pose proof (read_setup_dst enqueue_ok i src_fd (src_off s1) (Z.of_nat i * READ_BLOCK_SIZE)
                    READ_BLOCK_SIZE s1) as E.
      destruct (aio_read_setup _ _ _ _ _ _ s1); exact E. }
  destruct Hs1 as [Hl1 Hs1]. split; rewrite E; assumption.
Qed.

Lemma scan_slots_inv done l s u s' :
  Forall (fun i => i < 16)%nat l -> PInv src src_size s ->
  scan_slots src_fd dst_fd src src_size enqueue_ok done l s = Done u s' ->
  PInv src src_size s'.
Proof.
  revert s. induction l as [|i l IH]; intros s Hl H Hrun.
  - cbv [scan_slots mret ST_ret] in Hrun. injection Hrun as _ <-. exact H.
  - apply Forall_cons in Hl as [Hi Hl].
    cbn [scan_slots] in Hrun. cbv [mbind ST_bind st_bind] in Hrun.
    destruct (scan_slot src_fd dst_fd src src_size enqueue_ok done i s) as [v s1|c s1] eqn:E;
      [|discriminate].
    exact (IH s1 Hl (scan_slot_inv done i s v s1 Hi H E) Hrun).
Qed.

Lemma scan_slots_safe dst0 done l s :
  (length src <= length dst0)%nat ->
  Forall (fun i => i < 16)%nat l -> PInv src src_size s -> PSafe src dst0 s ->
  PSafe src dst0 (final_state (scan_slots src_fd dst_fd src src_size enqueue_ok done l s)).
Proof.
  intros Hd. revert s. induction l as [|i l IH]; intros s Hl H Hs.
  - exact Hs.
  - apply Forall_cons in Hl as [Hi Hl].
    cbn [scan_slots]. cbv [mbind ST_bind st_bind].
    pose proof (scan_slot_safe dst0 done i s Hd Hi H Hs) as Hs1.
    destruct (scan_slot src_fd dst_fd src src_size enqueue_ok done i s) as [v s1|c s1] eqn:E;
      [|exact Hs1].
    exact (IH s1 Hl (scan_slot_inv done i s v s1 Hi H E) Hs1).
Qed.

Lemma seq_16_bound : Forall (fun i => i < 16)%nat (seq 0 QUEUE_SIZE).
Proof. rewrite Forall_forall. intros i Hi. apply list_elem_of_In, in_seq in Hi. unfold QUEUE_SIZE in Hi. lia. Qed.

Lemma piteration_inv t s u s' :
  PInv src src_size s ->
  iteration src_fd dst_fd src src_size enqueue_ok t s = Done u s' ->
  PInv src src_size s'.
Proof.
  intros H Hrun. unfold iteration in Hrun.
  destruct (pt_suspend t); cbn [negb] in Hrun.
  - exact (scan_slots_inv _ _ s u s' seq_16_bound H Hrun).
  - cbv [mbind ST_bind st_bind paio_printf st_modify st_exit] in Hrun. discriminate.
Qed.

Lemma piteration_safe dst0 t s :
  (length src <= length dst0)%nat -> PInv src src_size s -> PSafe src dst0 s ->
  PSafe src dst0 (final_state (iteration src_fd dst_fd src src_size enqueue_ok t s)).
Proof.
  intros Hd H Hs. unfold iteration.
  destruct (pt_suspend t); cbn [negb].
  - exact (scan_slots_safe dst0 _ _ s Hd seq_16_bound H Hs).
  - exact Hs.
Qed.

Lemma pcopy_loop_cons t ts s :
  copy_loop src_fd dst_fd src src_size enqueue_ok (t :: ts) s =
  if num_io_reqs s =? 0 then Done true s
  else match iteration src_fd dst_fd src src_size enqueue_ok t s with
       | Done _ s1 => copy_loop src_fd dst_fd src src_size enqueue_ok ts s1
       | Exited c s1 => Exited c s1
       end.
Proof. cbn. destruct (num_io_reqs s =? 0); reflexivity. Qed.

Lemma pcopy_loop_inv ts s b s' :
  PInv src src_size s ->
  copy_loop src_fd dst_fd src src_size enqueue_ok ts s = Done b s' ->
  PInv src src_size s' /\ (b = true -> num_io_reqs s' = 0).
Proof.
  revert s. induction ts as [|t ts IH]; intros s H Hrun.
  - cbv [copy_loop st_bind st_get mbind ST_bind mret ST_ret] in Hrun.
    destruct (num_io_reqs s =? 0) eqn:E; injection Hrun as <- <-;
      [split; [exact H|intros _; apply Z.eqb_eq, E]|split; [exact H|discriminate]].
  - rewrite pcopy_loop_cons in Hrun. destruct (num_io_reqs s =? 0) eqn:E.
    + injection Hrun as <- <-. split; [exact H|intros _; apply Z.eqb_eq, E].
    + destruct (iteration src_fd dst_fd src src_size enqueue_ok t s) as [u s1|c s1] eqn:Ei;
        [|discriminate].
      exact (IH s1 (piteration_inv t s u s1 H Ei) Hrun).
Qed.

Lemma pcopy_loop_safe dst0 ts s :
  (length src <= length dst0)%nat ->
  PInv src src_size s -> PSafe src dst0 s ->
  PSafe src dst0 (final_state (copy_loop src_fd dst_fd src src_size enqueue_ok ts s)).
Proof.
  intros Hd. revert s. induction ts as [|t ts IH]; intros s H Hs.
  - cbv [copy_loop st_bind st_get mbind ST_bind mret ST_ret]. destruct (num_io_reqs s =? 0); exact Hs.
  - rewrite pcopy_loop_cons. destruct (num_io_reqs s =? 0); [exact Hs|].
    pose proof (piteration_safe dst0 t s Hd H Hs) as Hs1.
    destruct (iteration src_fd dst_fd src src_size enqueue_ok t s) as [u s1|c s1] eqn:Ei;
      [|exact Hs1].
    exact (IH s1 (piteration_inv t s u s1 H Ei) Hs1).
Qed.

End ScanInv.

Section Start.
Variables (src_fd dst_fd : Z) (src : list Z) (src_size : Z) (enqueue_ok : nat -> bool).

Lemma pinitial_reads_spec fuel k s :
  (k + fuel = 16)%nat ->
  length (aiocbs s) = 16%nat -> wait_list s = replicate k true ++ replicate (16 - k) false ->
  src_off s = 4096 * Z.of_nat k -> num_io_reqs s = Z.of_nat k ->
  src_off s <= rounded_size src_size ->
  (forall i, (i < k)%nat -> aiocbs s !!! i =
     mkAiocb src_fd LIO_READ (Z.of_nat i * READ_BLOCK_SIZE) READ_BLOCK_SIZE (Z.of_nat i * READ_BLOCK_SIZE)) ->
  (exists k' s', initial_reads src_fd src_size enqueue_ok k fuel s = Done tt s' /\
    (k <= k' <= 16)%nat /\ (k' = 16%nat \/ rounded_size src_size <= src_off s') /\
    length (aiocbs s') = 16%nat /\ wait_list s' = replicate k' true ++ replicate (16 - k') false /\
    src_off s' = 4096 * Z.of_nat k' /\ num_io_reqs s' = Z.of_nat k' /\
    src_off s' <= rounded_size src_size /\
    (forall i, (i < k')%nat -> aiocbs s' !!! i =
       mkAiocb src_fd LIO_READ (Z.of_nat i * READ_BLOCK_SIZE) READ_BLOCK_SIZE (Z.of_nat i * READ_BLOCK_SIZE)) /\
    buffer s' = buffer s /\ dst s' = dst s) \/
  (exists c s', initial_reads src_fd src_size enqueue_ok k fuel s = Exited c s' /\ dst s' = dst s).
Proof.
  revert k s. induction fuel as [|fuel IH]; intros k s Hk Hla Hw Ho Hn HoR Hi.
  - left. exists k, s. split; [reflexivity|]. rewrite Nat.add_0_r in Hk. subst k.
    repeat split; auto; lia.
  - cbn [initial_reads]. cbv [st_bind st_get st_put st_modify mbind ST_bind mret ST_ret].
    destruct (src_off s <? rounded_size src_size) eqn:Ec.
    + apply Z.ltb_lt in Ec. pose proof (prounded_size_mod src_size) as [_ HRm].
      assert (Hom : src_off s mod 4096 = 0)
        by (rewrite Ho, Z.mul_comm; apply Z_mod_mult).
      pose proof (LinuxAioFacts.mult_4096_le _ _ Hom HRm Ec) as Hle.
      rewrite read_setup_run by lia.
      destruct (enqueue_ok (calls s)); [|right; eexists _, _; split; reflexivity].
      cbv beta iota.
      match goal with |- context [initial_reads _ _ _ (S k) fuel ?s1] => set (s1' := s1) end.
      assert (H1 : (S k + fuel = 16)%nat) by lia.
      assert (H2 : length (aiocbs s1') = 16%nat) by (cbn; rewrite length_insert; exact Hla).
      assert (H3 : wait_list s1' = replicate (S k) true ++ replicate (16 - S k) false).
      { cbn. rewrite Hw. replace (16 - k)%nat with (S (16 - S k)) by lia. apply insert_wait. }
      assert (H4 : src_off s1' = 4096 * Z.of_nat (S k)) by (cbn; unfold READ_BLOCK_SIZE; lia).
      assert (H5 : num_io_reqs s1' = Z.of_nat (S k)) by (cbn; rewrite Hn; lia).
      assert (H6 : src_off s1' <= rounded_size src_size) by (cbn; unfold READ_BLOCK_SIZE; lia).
      assert (H7 : forall i, (i < S k)%nat -> aiocbs s1' !!! i =
        mkAiocb src_fd LIO_READ (Z.of_nat i * READ_BLOCK_SIZE) READ_BLOCK_SIZE (Z.of_nat i * READ_BLOCK_SIZE)).
      { intros i Hi'. cbn [s1' aiocbs set_aiocbs set_calls set_wait_list set_src_off set_num_io_reqs].
        destruct (decide (i = k)) as [->|Hne].
        - rewrite list_lookup_total_insert_eq by lia. rewrite Ho. f_equal. unfold READ_BLOCK_SIZE. lia.
        - rewrite list_lookup_total_insert_ne by congruence. apply Hi. lia. }
      destruct (IH (S k) s1' H1 H2 H3 H4 H5 H6 H7)
        as [(k' & s' & Hrun & Hk' & Hrest)|(c & s' & Hrun & Hd)].
      * left. exists k', s'. split; [exact Hrun|]. split; [lia|exact Hrest].
      * right. exists c, s'. split; [exact Hrun|exact Hd].
    + apply Z.ltb_ge in Ec. left. exists k, s. split; [reflexivity|].
      repeat split; auto; lia.
Qed.

Lemma pcopy_start dst0 buffer0 ts :
  length buffer0 = Z.to_nat 65536 ->
  (exists s0, copy src_fd dst_fd src src_size enqueue_ok dst0 buffer0 ts =
                copy_loop src_fd dst_fd src src_size enqueue_ok ts s0 /\
              PInv src src_size s0 /\ dst s0 = dst0) \/
  (exists c s0, copy src_fd dst_fd src src_size enqueue_ok dst0 buffer0 ts = Exited c s0 /\
              dst s0 = dst0).
Proof.
  intros Hb. pose proof (prounded_size_mod src_size) as [HR0 HRm].
  destruct (pinitial_reads_spec QUEUE_SIZE 0 (paio_init dst0 buffer0))
    as [(k & s & Hrun & Hk & Hend & Hla & Hw & Ho & Hn & HoR & Hi & Hbuf & Hd)|(c & s & Hrun & Hd)];
    [reflexivity|reflexivity|reflexivity|reflexivity|reflexivity|exact HR0|intros; lia| |].
  2: { right. exists c, s. split; [|exact Hd].
       unfold copy. cbv [mbind ST_bind st_bind]. rewrite Hrun. reflexivity. }
  left. exists s. split.
  { unfold copy. cbv [mbind ST_bind st_bind]. rewrite Hrun. reflexivity. }
  split; [|exact Hd].
  assert (Hwt : forall j, wait_list s !! j = Some true <-> (j < k)%nat)
    by (intros j; rewrite Hw; apply lookup_wait_true).
  unfold PInv. LinuxAioFacts.rsplit 10%nat.
  - exact Hla.
  - rewrite Hw, length_app, !length_replicate. lia.
  - rewrite Hbuf. exact Hb.
  - rewrite Hn, Hw, count_replicate. reflexivity.
  - lia.
  - rewrite Ho, Z.mul_comm. apply Z_mod_mult.
  - exact HoR.
  - intros Hlt. destruct Hend as [->|Hend]; [exact Hn|lia].
  - intros j Hj. apply Hwt in Hj. unfold pslot_ok. rewrite (Hi j Hj).
    cbn [aio_buf aio_offset aio_nbytes aio_lio_opcode]. unfold READ_BLOCK_SIZE.
    split; [lia|]. split; [lia|]. split; [rewrite Z.mod_mul by lia; reflexivity|]. split; [lia|].
    left. split; reflexivity.
  - intros o Ho' Hm. right. exists (Z.to_nat (o / 4096)).
    rewrite Ho in Ho'.
    pose proof (Z.div_mod o 4096) as D. rewrite Hm in D.
    assert (Hlt : (Z.to_nat (o / 4096) < k)%nat) by lia.
    split; [apply Hwt; exact Hlt|].
    rewrite (Hi _ Hlt). cbn [aio_offset]. unfold READ_BLOCK_SIZE. lia.
  - intros Hl Ho'.
    assert (Hk1 : (1 <= k)%nat) by lia.
    exists (k - 1)%nat. split; [apply Hwt; lia|].
    rewrite (Hi (k - 1)%nat ltac:(lia)). cbn [aio_offset aio_lio_opcode].
    split; [reflexivity|]. unfold READ_BLOCK_SIZE. lia.
Qed.

End Start.

Section Results.
Variables (src_fd dst_fd : Z) (src : list Z) (src_size : Z) (enqueue_ok : nat -> bool).

Lemma pinv_finished s :
  PInv src src_size s -> num_io_reqs s = 0 ->
  (forall j, wait_list s !! j <> Some true) /\ src_off s = rounded_size src_size.
Proof.
  intros H Hn. pinv_destruct H. rewrite Hn in Hnum. split.
  - intros j Hj. pose proof (count_insert_false _ _ Hj). lia.
  - destruct (Z.lt_ge_cases (src_off s) (rounded_size src_size)) as [Hlt'|]; [|lia].
    specialize (Hfull Hlt'). lia.
Qed.

Lemma pcopy_ends_inv dst0 buffer0 ts s :
  Z.of_nat (length buffer0) = 65536 ->
  copy src_fd dst_fd src src_size enqueue_ok dst0 buffer0 ts = Done true s ->
  PInv src src_size s /\ num_io_reqs s = 0.
Proof.
  intros Hb Hrun. apply LinuxAioFacts.buffer_length_nat in Hb.
  destruct (pcopy_start src_fd dst_fd src src_size enqueue_ok dst0 buffer0 ts Hb)
    as [(s0 & E & H0 & _)|(c & s0 & E & _)]; rewrite E in Hrun; [|discriminate].
  destruct (pcopy_loop_inv src_fd dst_fd src src_size enqueue_ok ts s0 true s H0 Hrun) as [H Hn].
  split; [exact H|exact (Hn eq_refl)].
Qed.

(** X12: in the POSIX AIO copy, when the source size is a multiple of
    4096 (and the rounded size does not wrap), the copy loop never ends
    normally: the read at the end of the file returns 0, which the
    program reports as an unreachable state before exiting. *)
Lemma posix_copy_multiple_fails dst0 buffer0 ts s :
  Z.of_nat (length src) = src_size -> src_size mod 4096 = 0 -> src_size + 4096 < 2 ^ 32 ->
  Z.of_nat (length buffer0) = 65536 ->
  copy src_fd dst_fd src src_size enqueue_ok dst0 buffer0 ts <> Done true s.
Proof.
  intros Hl Hm Hw Hb Hrun.
  destruct (pcopy_ends_inv dst0 buffer0 ts s Hb Hrun) as [H Hn].
  destruct (pinv_finished s H Hn) as [HA Ho].
  assert (HR : rounded_size src_size = src_size + 4096).
  { unfold rounded_size, READ_BLOCK_SIZE. rewrite Hm, Z.sub_0_r. apply Z.mod_small. lia. }
  pinv_destruct H. destruct (Heof ltac:(lia) Ho) as (j & Hj & _). exact (HA j Hj).
Qed.

(** X13: in the POSIX AIO copy, when the loop ends normally and the
    rounded size does not wrap, the destination starts with the whole
    source. *)
Lemma posix_copy_success_copies dst0 buffer0 ts s :
  Z.of_nat (length src) = src_size -> src_size < 2 ^ 32 - 4096 ->
  Z.of_nat (length buffer0) = 65536 ->
  copy src_fd dst_fd src src_size enqueue_ok dst0 buffer0 ts = Done true s ->
  take (length src) (dst s) = src.
Proof.
  intros Hl Hw Hb Hrun.
  destruct (pcopy_ends_inv dst0 buffer0 ts s Hb Hrun) as [H Hn].
  destruct (pinv_finished s H Hn) as [HA Ho].
  assert (HR : src_size < rounded_size src_size).
  { unfold rounded_size, READ_BLOCK_SIZE. pose proof (Z.mod_pos_bound src_size 4096).
    rewrite Z.mod_small; lia. }
  pinv_destruct H.
  apply list_eq. intros i. destruct (decide (i < length src)%nat) as [Hi|Hi].
  - rewrite lookup_take_lt by exact Hi.
    set (o := 4096 * (Z.of_nat i / 4096)).
    pose proof (Z.div_mod (Z.of_nat i) 4096) as D. pose proof (Z.mod_pos_bound (Z.of_nat i) 4096).
    destruct (Hblk o ltac:(lia) ltac:(unfold o; rewrite Z.mul_comm; apply Z_mod_mult))
      as [Hd|(j & Hj & _)].
    + apply Hd; [lia|exact Hi].
    + exfalso. exact (HA j Hj).
  - rewrite lookup_take_ge by lia. symmetry. apply lookup_ge_None_2. lia.
Qed.

Lemma pcopy_loop_finished ts s :
  num_io_reqs s = 0 -> copy_loop src_fd dst_fd src src_size enqueue_ok ts s = Done true s.
Proof.
  intros Hn. destruct ts; cbv [copy_loop st_bind st_get mbind ST_bind mret ST_ret]; rewrite Hn; reflexivity.
Qed.

(** X14: in the POSIX AIO copy, for a source size within 4096 bytes of
    2^32 the rounding of [src_size] wraps to 0: no request is started
    and the loop ends at once, leaving the destination as it was. *)
Lemma posix_copy_wraps dst0 buffer0 ts :
  2 ^ 32 - 4096 <= src_size < 2 ^ 32 ->
  exists s, copy src_fd dst_fd src src_size enqueue_ok dst0 buffer0 ts = Done true s /\ dst s = dst0.
Proof.
  intros Hw.
  assert (HR : rounded_size src_size = 0).
  { unfold rounded_size, READ_BLOCK_SIZE.
    replace (src_size mod 4096) with (src_size - (2 ^ 32 - 4096)).
    - replace (src_size + 4096 - (src_size - (2 ^ 32 - 4096))) with (2 ^ 32) by lia.
      apply Z_mod_same_full.
    - apply (Z.mod_unique _ _ (2 ^ 20 - 1)); lia. }
  unfold copy. cbn [QUEUE_SIZE initial_reads]. cbv [mbind ST_bind st_bind st_get mret ST_ret].
  rewrite HR. cbn. eexists. split; [apply pcopy_loop_finished; reflexivity|reflexivity].
Qed.

(** X15: whatever [aio_suspend], [aio_error] and the request queue
    report, the POSIX AIO copy leaves a destination at least as long as
    the source with its length, and each of its bytes is either its
    original byte or the source's byte at the same position. *)
Lemma posix_copy_safe dst0 buffer0 ts :
  (length src <= length dst0)%nat -> Z.of_nat (length buffer0) = 65536 ->
  length (dst (final_state (copy src_fd dst_fd src src_size enqueue_ok dst0 buffer0 ts))) = length dst0 /\
  forall i, dst (final_state (copy src_fd dst_fd src src_size enqueue_ok dst0 buffer0 ts)) !! i = dst0 !! i \/
            dst (final_state (copy src_fd dst_fd src src_size enqueue_ok dst0 buffer0 ts)) !! i = src !! i.
Proof.
  intros Hd Hb. apply LinuxAioFacts.buffer_length_nat in Hb.
  destruct (pcopy_start src_fd dst_fd src src_size enqueue_ok dst0 buffer0 ts Hb)
    as [(s0 & E & H0 & Hd0)|(c & s0 & E & Hd0)]; rewrite E.
  - apply pcopy_loop_safe; [exact Hd|exact H0|].
    split; [rewrite Hd0; reflexivity|]. intros i. left. rewrite Hd0. reflexivity.
  - cbn [final_state]. rewrite Hd0. split; [reflexivity|]. intros i. left. reflexivity.
Qed.

End Results.

Lemma posix_copy_multiple_fails_witness :
  Z.of_nat (length (replicate (Z.to_nat 4096) 7)) = 4096 /\ 4096 mod 4096 = 0 /\ 4096 + 4096 < 2 ^ 32 /\
  Z.of_nat (length (replicate (Z.to_nat 65536) 0)) = 65536 /\
  copy 3 4 (replicate (Z.to_nat 4096) 7) 4096 (fun _ => true) (replicate (Z.to_nat 4096) 0)
    (replicate (Z.to_nat 65536) 0) [mkPaioTick true [0%nat; 1%nat]; mkPaioTick true [0%nat; 1%nat]]
  <> Done true (paio_init [] []).
Proof.
  split; [vm_compute; reflexivity|]. split; [reflexivity|]. split; [lia|].
  split; [vm_compute; reflexivity|].
  apply (posix_copy_multiple_fails 3 4 (replicate (Z.to_nat 4096) 7) 4096 (fun _ => true)
           (replicate (Z.to_nat 4096) 0) (replicate (Z.to_nat 65536) 0)
           [mkPaioTick true [0%nat; 1%nat]; mkPaioTick true [0%nat; 1%nat]]);
    [vm_compute; reflexivity|reflexivity|lia|vm_compute; reflexivity].
Defined.

Lemma posix_copy_success_copies_witness :
  Z.of_nat (length ([1; 2; 3] : list Z)) = 3 /\ 3 < 2 ^ 32 - 4096 /\
  Z.of_nat (length (replicate (Z.to_nat 65536) 0)) = 65536 /\
  copy 3 4 [1; 2; 3] 3 (fun _ => true) [0; 0; 0] (replicate (Z.to_nat 65536) 0)
    [mkPaioTick true [0%nat]; mkPaioTick true [0%nat]] =
    Done true (final_state (copy 3 4 [1; 2; 3] 3 (fun _ => true) [0; 0; 0] (replicate (Z.to_nat 65536) 0)
                              [mkPaioTick true [0%nat]; mkPaioTick true [0%nat]])) /\
  take (length ([1; 2; 3] : list Z))
    (dst (final_state (copy 3 4 [1; 2; 3] 3 (fun _ => true) [0; 0; 0] (replicate (Z.to_nat 65536) 0)
                          [mkPaioTick true [0%nat]; mkPaioTick true [0%nat]]))) = [1; 2; 3].
Proof.
  split; [reflexivity|]. split; [lia|]. split; [vm_compute; reflexivity|].
  split; [apply LinuxAioFacts.done_true_final; vm_compute; reflexivity|].
  apply (posix_copy_success_copies 3 4 [1; 2; 3] 3 (fun _ => true) [0; 0; 0] (replicate (Z.to_nat 65536) 0)
           [mkPaioTick true [0%nat]; mkPaioTick true [0%nat]]);
    [reflexivity|lia|vm_compute; reflexivity|apply LinuxAioFacts.done_true_final; vm_compute; reflexivity].
Defined.

Lemma posix_copy_wraps_witness :
  2 ^ 32 - 4096 <= 2 ^ 32 - 1 < 2 ^ 32 /\
  exists s, copy 3 4 [] (2 ^ 32 - 1) (fun _ => true) [0] [] [] = Done true s /\ dst s = [0].
Proof.
  split; [lia|]. apply posix_copy_wraps. lia.
Defined.

Lemma posix_copy_safe_witness :
  (length ([1%Z; 2%Z; 3%Z] : list Z) <= length ([0%Z; 0%Z; 0%Z; 0%Z] : list Z))%nat /\
  Z.of_nat (length (replicate (Z.to_nat 65536) 0)) = 65536 /\
  length (dst (final_state (copy 3 4 [1; 2; 3] 3 (fun _ => true) [0; 0; 0; 0] (replicate (Z.to_nat 65536) 0)
                              [mkPaioTick true [0%nat]]))) = length ([0; 0; 0; 0] : list Z) /\
  forall i, dst (final_state (copy 3 4 [1; 2; 3] 3 (fun _ => true) [0; 0; 0; 0] (replicate (Z.to_nat 65536) 0)
                               [mkPaioTick true [0%nat]])) !! i = [0; 0; 0; 0] !! i \/
            dst (final_state (copy 3 4 [1; 2; 3] 3 (fun _ => true) [0; 0; 0; 0] (replicate (Z.to_nat 65536) 0)
                               [mkPaioTick true [0%nat]])) !! i = [1; 2; 3] !! i.
Proof.
  split; [simpl; lia|]. split; [vm_compute; reflexivity|].
  apply (posix_copy_safe 3 4 [1; 2; 3] 3 (fun _ => true) [0; 0; 0; 0] (replicate (Z.to_nat 65536) 0)
           [mkPaioTick true [0%nat]]);
    [simpl; lia|vm_compute; reflexivity].
Defined.

End PosixAioFacts.
